(** * OpenAPI preview extension: a shallow embedding and its properties

    The development follows the TypeScript sources of the extension:
    the file classifier ([Detection]), the content reader ([Reader]),
    the local content server ([Server]), the change watcher
    ([Watcher]) and the preview coordinator ([Manager]).

    Conventions of the embedding.
    - A JavaScript string is a Rocq [string]; a character stands for one
      code unit below 256.
    - A call that may throw returns a [Completion]; state changes made
      before the throw are kept, as in JavaScript.
    - Objects of the host application (documents, panels, timers,
      subscriptions) live in explicit stores; what the host answers to a
      query is a field of the store, so every statement quantifies over
      all host behaviours.
    - [console.log] and friends are not modelled. *)

From Stdlib Require Import Ascii String ZArith NArith Lia DecimalString.
From stdpp Require Import gmap strings list.

Open Scope string_scope.

(** ** JavaScript values and string primitives *)

Module Js.

(** A thrown value: an [Error] instance (with the optional [code]
    property that file-system errors carry), or anything else. *)
Inductive Thrown : Type :=
| ThrownError (code : option string) (message : string)
| ThrownObject (code : option string)
| ThrownValue (repr : string).

Inductive Completion (A : Type) : Type :=
| Normal (a : A)
| Throw (e : Thrown).
Arguments Normal {A} a.
Arguments Throw {A} e.

Definition isNormal {A} (c : Completion A) : bool :=
  match c with Normal _ => true | Throw _ => false end.

(** [error instanceof Error ? error : new Error(String(error))] *)
Definition toError (e : Thrown) : Thrown :=
  match e with
  | ThrownError c m => ThrownError c m
  | ThrownObject _ => ThrownError None "[object Object]"
  | ThrownValue r => ThrownError None r
  end.

(** [error instanceof Error ? error : undefined] *)
Definition asError (e : Thrown) : option Thrown :=
  match e with
  | ThrownError c m => Some (ThrownError c m)
  | _ => None
  end.

(** [error.message] of an [Error]. *)
Definition errorMessage (e : Thrown) : string :=
  match e with
  | ThrownError _ m => m
  | ThrownObject _ => ""
  | ThrownValue r => r
  end.

Definition code (c : ascii) : N := N_of_ascii c.

(** The character U+0022. *)
Definition doubleQuote : ascii := ascii_of_nat 34.

Definition inRange (lo hi : N) (c : ascii) : bool :=
  ((lo <=? code c) && (code c <=? hi))%N.

Definition isDigit : ascii -> bool := inRange 48 57.
Definition isUpper : ascii -> bool := inRange 65 90.
Definition isLower : ascii -> bool := inRange 97 122.
Definition isAlnum (c : ascii) : bool := isDigit c || isUpper c || isLower c.

(** Upper-case letters of the first 256 code points: A-Z and
    U+00C0..U+00DE without the multiplication sign U+00D7. *)
Definition hasLowerForm (c : ascii) : bool :=
  isUpper c || (inRange 192 222 c && negb (code c =? 215)%N).

Definition lowerChar (c : ascii) : ascii :=
  if hasLowerForm c then ascii_of_N (code c + 32) else c.

(** [String.prototype.toLowerCase] *)
Fixpoint toLowerCase (s : string) : string :=
  match s with
  | EmptyString => EmptyString
  | String c r => String (lowerChar c) (toLowerCase r)
  end.

(** White space and line terminators below 256: TAB, LF, VT, FF, CR,
    SP and NBSP; the class [\s] of a regular expression and the
    characters removed by [trim]. *)
Definition isSpace (c : ascii) : bool :=
  inRange 9 13 c || (code c =? 32)%N || (code c =? 160)%N.

(** [s.startsWith(p)] *)
Fixpoint startsWith (s p : string) {struct p} : bool :=
  match p, s with
  | EmptyString, _ => true
  | String a p', String b s' => Ascii.eqb a b && startsWith s' p'
  | String _ _, EmptyString => false
  end.

(** [s.endsWith(p)]: the last [p.length] code units of [s] are [p]. *)
Definition endsWith (s p : string) : bool :=
  let n := String.length s in
  let m := String.length p in
  (m <=? n)%nat && String.eqb (String.substring (n - m) m s) p.

Fixpoint trimStart (s : string) : string :=
  match s with
  | EmptyString => EmptyString
  | String c r => if isSpace c then trimStart r else s
  end.

Definition trimEnd (s : string) : string :=
  String.rev (trimStart (String.rev s)).

(** [s.trim()] *)
Definition trim (s : string) : string := trimEnd (trimStart s).

(** [s.substring(0, n)] *)
Definition substring0 (n : nat) (s : string) : string :=
  String.substring 0 n s.

Fixpoint dropString (n : nat) (s : string) : string :=
  match n, s with
  | O, _ => s
  | S n', String _ r => dropString n' r
  | S _, EmptyString => EmptyString
  end.

Fixpoint filterString (p : ascii -> bool) (s : string) : string :=
  match s with
  | EmptyString => EmptyString
  | String c r => if p c then String c (filterString p r) else filterString p r
  end.

Fixpoint takeWhile (p : ascii -> bool) (s : string) : string :=
  match s with
  | EmptyString => EmptyString
  | String c r => if p c then String c (takeWhile p r) else EmptyString
  end.

(** The part of [s] after the last occurrence of [sep]: what
    [s.split(sep).pop()] returns for a one-character separator. *)
Fixpoint lastSegmentFrom (acc : string) (sep : ascii) (s : string) : string :=
  match s with
  | EmptyString => acc
  | String c r =>
      if Ascii.eqb c sep then lastSegmentFrom r sep r
      else lastSegmentFrom acc sep r
  end.

Definition lastSegment (sep : ascii) (s : string) : string :=
  lastSegmentFrom s sep s.

(** Every character of [s] satisfies [p]. *)
Fixpoint allChars (p : ascii -> bool) (s : string) : bool :=
  match s with
  | EmptyString => true
  | String c r => p c && allChars p r
  end.

(** Truthiness of a string that may be [undefined]. *)
Definition truthyString (o : option string) : bool :=
  match o with
  | Some EmptyString | None => false
  | Some _ => true
  end.

(** [a || b] on strings. *)
Definition orString (a : option string) (b : string) : string :=
  match a with
  | Some (String c r) => String c r
  | _ => b
  end.

(** Decimal rendering of a number inside a template literal. *)
Definition showN (n : N) : string := NilZero.string_of_uint (N.to_uint n).

Definition showZ (z : Z) : string := NilZero.string_of_int (Z.to_int z).

(** [s.replace(/c/g, replacement)] for a pattern of one character and a
    replacement without [$]. *)
Fixpoint replaceAll (c : ascii) (replacement : string) (s : string) : string :=
  match s with
  | EmptyString => EmptyString
  | String x r =>
      if Ascii.eqb x c then replacement ++ replaceAll c replacement r
      else String x (replaceAll c replacement r)
  end.

(** The delay that [setTimeout(fn, after)] runs with: Node replaces a
    delay below 1 or above [TIMEOUT_MAX] by 1. *)
Definition TIMEOUT_MAX : Z := 2147483647.

Definition setTimeoutDelay (after : Z) : Z :=
  if (1 <=? after)%Z && (after <=? TIMEOUT_MAX)%Z then after else 1%Z.

End Js.

(** ** Regular expressions

    The fragment used by the sources: character classes, sequence,
    alternation, [?], [*] and [+], with no anchors, groups referred to
    later or look-around.  For such an expression [test] succeeds exactly
    when some substring belongs to its language, which is decided here
    with Brzozowski derivatives. *)

Module Regex.

Inductive regex : Type :=
| Never
| Eps
| Class (p : ascii -> bool)
| Seq (r1 r2 : regex)
| Alt (r1 r2 : regex)
| Star (r : regex).

Definition Opt (r : regex) : regex := Alt r Eps.
Definition Plus (r : regex) : regex := Seq r (Star r).

(** A literal character; under the [i] flag an ASCII letter matches
    both of its cases and nothing else. *)
Definition Lit (ignoreCase : bool) (c : ascii) : regex :=
  Class (fun x =>
           Ascii.eqb x c
           || (ignoreCase && (Js.isUpper x || Js.isLower x)
               && Ascii.eqb (Js.lowerChar x) (Js.lowerChar c))).

Fixpoint Word (ignoreCase : bool) (w : string) : regex :=
  match w with
  | EmptyString => Eps
  | String c r => Seq (Lit ignoreCase c) (Word ignoreCase r)
  end.

Fixpoint nullable (r : regex) : bool :=
  match r with
  | Never => false
  | Eps => true
  | Class _ => false
  | Seq a b => nullable a && nullable b
  | Alt a b => nullable a || nullable b
  | Star _ => true
  end.

Definition mkSeq (a b : regex) : regex :=
  match a with
  | Never => Never
  | Eps => b
  | _ => Seq a b
  end.

Definition mkAlt (a b : regex) : regex :=
  match a, b with
  | Never, _ => b
  | _, Never => a
  | _, _ => Alt a b
  end.

Fixpoint deriv (c : ascii) (r : regex) : regex :=
  match r with
  | Never => Never
  | Eps => Never
  | Class p => if p c then Eps else Never
  | Seq a b =>
      if nullable a then mkAlt (mkSeq (deriv c a) b) (deriv c b)
      else mkSeq (deriv c a) b
  | Alt a b => mkAlt (deriv c a) (deriv c b)
  | Star a => mkSeq (deriv c a) (Star a)
  end.

(** Some prefix of [s] matches [r]. *)
Fixpoint matchesPrefix (r : regex) (s : string) : bool :=
  nullable r ||
  match s with
  | EmptyString => false
  | String c s' => matchesPrefix (deriv c r) s'
  end.

(** [r.test(s)] for an expression without the [g] or [y] flag: some
    substring of [s] matches. *)
Fixpoint test (r : regex) (s : string) : bool :=
  matchesPrefix r s ||
  match s with
  | EmptyString => false
  | String _ s' => test r s'
  end.

(** The language of an expression. *)
Inductive matches : regex -> string -> Prop :=
| m_eps : matches Eps EmptyString
| m_class p c : p c = true -> matches (Class p) (String c EmptyString)
| m_seq a b s t : matches a s -> matches b t -> matches (Seq a b) (s ++ t)
| m_alt_l a b s : matches a s -> matches (Alt a b) s
| m_alt_r a b s : matches b s -> matches (Alt a b) s
| m_star_nil a : matches (Star a) EmptyString
| m_star_cons a c s t :
    matches a (String c s) -> matches (Star a) t ->
    matches (Star a) (String c s ++ t).

End Regex.

(** ** File classifier (fileDetection.ts) *)

Module Detection.
Import Js Regex.

(** The parts of a [vscode.Uri] that the sources read. *)
Record Uri : Type := {
  fsPath : string;
  path : string;
  uriString : string      (* uri.toString() *)
}.

(** A text document as a caller hands it over: its locator and what
    [getText()] does. *)
Record TextDocument : Type := {
  uri : Uri;
  getText : Completion string
}.

Definition OPENAPI_EXTENSIONS : list string := [".yaml"; ".yml"; ".json"].

Definition quote : regex :=
  Class (fun c => Ascii.eqb c doubleQuote || Ascii.eqb c "'"%char).
Definition space : regex := Class isSpace.
Definition digitOrDot : regex :=
  Class (fun c => isDigit c || Ascii.eqb c "."%char).

(** [/["']?\s*(openapi|swagger)\s*["']?\s*:\s*['"]?[\d.]+['"]?/im] *)
Definition OPENAPI_MARKER_REGEX : regex :=
  Seq (Opt quote)
 (Seq (Star space)
 (Seq (Alt (Word true "openapi") (Word true "swagger"))
 (Seq (Star space)
 (Seq (Opt quote)
 (Seq (Star space)
 (Seq (Lit true ":"%char)
 (Seq (Star space)
 (Seq (Opt quote)
 (Seq (Plus digitOrDot)
      (Opt quote)))))))))).

Definition hasOpenApiExtension (u : Uri) : bool :=
  let path := toLowerCase (fsPath u) in
  existsb (fun ext => endsWith path ext) OPENAPI_EXTENSIONS.

Definition hasOpenApiMarker (content : string) : bool :=
  Regex.test OPENAPI_MARKER_REGEX content.

(** The marker test as the specification words it: the text matches the
    version-marker pattern somewhere, not only at its start. *)
Definition containsVersionMarker (content : string) : Prop :=
  exists before marker rest,
    content = before ++ (marker ++ rest)
    /\ Regex.matches OPENAPI_MARKER_REGEX marker.

(** The extension test as the specification words it: the path ends,
    case-insensitively, in one of the recognized suffixes. *)
Definition endsInRecognizedSuffix (p : string) : Prop :=
  exists ext pre suf,
    In ext OPENAPI_EXTENSIONS /\ p = pre ++ suf /\ toLowerCase suf = ext.

(** The workspace service behind [openTextDocument]: what opening each
    locator gives, and the locators opened so far. *)
Record Workspace : Type := {
  openTextDocument : Uri -> Completion TextDocument;
  opened : list Uri
}.

Definition recordOpen (u : Uri) (ws : Workspace) : Workspace :=
  {| openTextDocument := openTextDocument ws; opened := opened ws ++ [u] |}.

Definition isOpenApiDocument (u : Uri) (ws : Workspace) : bool * Workspace :=
  if negb (hasOpenApiExtension u) then (false, ws)
  else
    let ws' := recordOpen u ws in
    match openTextDocument ws u with
    | Normal document =>
        match getText document with
        | Normal content => (hasOpenApiMarker content, ws')
        | Throw _ => (false, ws')
        end
    | Throw _ => (false, ws')
    end.

Definition isOpenApiTextDocument (document : TextDocument) : Completion bool :=
  if negb (hasOpenApiExtension (uri document)) then Normal false
  else
    match getText document with
    | Normal content => Normal (hasOpenApiMarker content)
    | Throw e => Throw e
    end.

(** The pattern read as a shape of the text: somewhere the word
    [openapi] or [swagger] in any mix of cases, then white space with
    at most one quote in it, a colon, white space, at most one quote,
    and a digit or a dot. *)
Definition isQuote (c : ascii) : bool :=
  Ascii.eqb c doubleQuote || Ascii.eqb c "'"%char.

Definition isDigitOrDot (c : ascii) : bool := isDigit c || Ascii.eqb c "."%char.

Definition isKeyword (word : string) : Prop :=
  toLowerCase word = "openapi" \/ toLowerCase word = "swagger".

Definition optionalQuote (q : string) : Prop :=
  q = "" \/ exists c, q = String c "" /\ isQuote c = true.

Definition markerShape (content : string) : Prop :=
  exists before word s1 q1 s2 s3 q2 d rest,
    content
    = before ++ (word ++ (s1 ++ (q1 ++ (s2 ++ (":" ++ (s3 ++ (q2 ++ String d rest)))))))
    /\ isKeyword word
    /\ allChars isSpace s1 = true /\ optionalQuote q1
    /\ allChars isSpace s2 = true /\ allChars isSpace s3 = true
    /\ optionalQuote q2 /\ isDigitOrDot d = true.

End Detection.

(** ** Content reader (fileReader.ts) *)

Module Reader.
Import Js Detection.

Inductive FileReadErrorType : Type :=
| NotFound
| PermissionDenied
| TooLarge
| Unknown.

Record FileReadError : Type := {
  type : FileReadErrorType;
  errorUri : Uri;
  message : string;
  originalError : option Thrown
}.

Definition getUserMessage (e : FileReadError) : string :=
  match type e with
  | NotFound => "File not found: " ++ fsPath (errorUri e)
  | PermissionDenied =>
      "Permission denied: Cannot read file " ++ fsPath (errorUri e)
  | TooLarge =>
      "File too large: " ++ fsPath (errorUri e)
      ++ " exceeds the maximum size limit"
  | Unknown =>
      "Failed to read file: " ++ fsPath (errorUri e) ++ ". "
      ++ orString (option_map errorMessage (originalError e)) "Unknown error"
  end.

Record FileReadResult : Type := {
  success : bool;
  content : option string;
  error : option FileReadError
}.

Definition succeed (text : string) : FileReadResult :=
  {| success := true; content := Some text; error := None |}.

Definition fail (e : FileReadError) : FileReadResult :=
  {| success := false; content := None; error := Some e |}.

(** Maximum file size in bytes (10 MB). *)
Definition MAX_FILE_SIZE : Z := 10 * 1024 * 1024.

(** [fileData.byteLength] of the [Uint8Array] read from disk. *)
Definition byteLength (fileData : list Byte.byte) : Z :=
  Z.of_nat (length fileData).

Definition codeOf (e : Thrown) : option string :=
  match e with
  | ThrownError c _ => c
  | ThrownObject c => c
  | ThrownValue _ => None
  end.

Definition codeIs (c : option string) (name : string) : bool :=
  match c with
  | Some x => String.eqb x name
  | None => false
  end.

Definition determineErrorType (e : Thrown) : FileReadErrorType :=
  let c := codeOf e in
  if codeIs c "FileNotFound" || codeIs c "ENOENT" then NotFound
  else if codeIs c "NoPermissions" || codeIs c "EACCES" || codeIs c "EPERM"
       then PermissionDenied
  else Unknown.

Definition getErrorMessage (t : FileReadErrorType) (u : Uri) : string :=
  match t with
  | NotFound => "File not found: " ++ fsPath u
  | PermissionDenied => "Permission denied: Cannot read file " ++ fsPath u
  | TooLarge => "File too large: " ++ fsPath u
  | Unknown => "Failed to read file: " ++ fsPath u
  end.

Section ReadFile.
(** [vscode.workspace.fs.readFile]: the raw bytes, or the error the
    file system raises. *)
Variable fsReadFile : Uri -> Completion (list Byte.byte).
(** [Buffer.from(fileData).toString('utf8')] *)
Variable utf8ToString : list Byte.byte -> Completion string.

Definition caught (u : Uri) (e : Thrown) : FileReadResult :=
  let errorType := determineErrorType e in
  fail {| type := errorType; errorUri := u;
          message := getErrorMessage errorType u;
          originalError := asError e |}.

Definition readFile (u : Uri) : FileReadResult :=
  match fsReadFile u with
  | Throw e => caught u e
  | Normal fileData =>
      if (MAX_FILE_SIZE <? byteLength fileData)%Z then
        fail {| type := TooLarge; errorUri := u;
                message :=
                  "File size (" ++ showZ (byteLength fileData)
                  ++ " bytes) exceeds maximum allowed size ("
                  ++ showZ MAX_FILE_SIZE ++ " bytes)";
                originalError := None |}
      else
        match utf8ToString fileData with
        | Normal content => succeed content
        | Throw e => caught u e
        end
  end.
End ReadFile.

Definition readFromDocument (document : TextDocument) : FileReadResult :=
  match getText document with
  | Normal content => succeed content
  | Throw e =>
      fail {| type := Unknown; errorUri := uri document;
              message := "Failed to read document content";
              originalError := asError e |}
  end.

(** The answers of [detectFileType]. *)
Inductive FileType : Type := yaml | json | unknown.

Definition detectFileType (u : Uri) : FileType :=
  let path := toLowerCase (fsPath u) in
  if endsWith path ".yaml" || endsWith path ".yml" then yaml
  else if endsWith path ".json" then json
  else unknown.

End Reader.

(** ** Local content server (httpServer.ts) *)

Module Server.
Import Js Regex.

(** [Buffer.from(s)]: the UTF-8 bytes of a string. *)
Definition utf8Char (c : ascii) : list N :=
  let n := code c in
  if (n <? 128)%N then [n]
  else [N.lor 192 (N.shiftr n 6); N.lor 128 (N.land n 63)].

Fixpoint utf8Encode (s : string) : list N :=
  match s with
  | EmptyString => []
  | String c r => utf8Char c ++ utf8Encode r
  end.

Definition base64Alphabet : string :=
  "ABCDEFGHIJKLMNOPQRSTUVWXYZabcdefghijklmnopqrstuvwxyz0123456789+/".

Definition base64Digit (n : N) : ascii :=
  match String.get (N.to_nat n) base64Alphabet with
  | Some c => c
  | None => "="%char
  end.

(** [buffer.toString('base64')] *)
Fixpoint base64 (bytes : list N) : string :=
  match bytes with
  | [] => ""
  | [a] =>
      String (base64Digit (N.shiftr a 2))
     (String (base64Digit (N.shiftl (N.land a 3) 4)) "==")
  | [a; b] =>
      String (base64Digit (N.shiftr a 2))
     (String (base64Digit (N.lor (N.shiftl (N.land a 3) 4) (N.shiftr b 4)))
     (String (base64Digit (N.shiftl (N.land b 15) 2)) "="))
  | a :: b :: c :: rest =>
      String (base64Digit (N.shiftr a 2))
     (String (base64Digit (N.lor (N.shiftl (N.land a 3) 4) (N.shiftr b 4)))
     (String (base64Digit (N.lor (N.shiftl (N.land b 15) 2) (N.shiftr c 6)))
     (String (base64Digit (N.land c 63)) (base64 rest))))
  end.

(** The identifier under which a document is stored:
    [Buffer.from(documentUri).toString('base64')
       .replace(/[^a-zA-Z0-9]/g, '').substring(0, 32)]. *)
Definition docId (documentUri : string) : string :=
  substring0 32 (filterString isAlnum (base64 (utf8Encode documentUri))).

Record HttpServer : Type := {
  server : bool;                      (* this.server is defined *)
  port : N;
  contentMap : gmap string string
}.

(** [new HttpServer()] *)
Definition create : HttpServer :=
  {| server := false; port := 0; contentMap := ∅ |}.

Definition setContentMap (m : gmap string string) (s : HttpServer) : HttpServer :=
  {| server := server s; port := port s; contentMap := m |}.

Definition getServerUrl (s : HttpServer) : string :=
  "http://localhost:" ++ showN (port s).

(** [start()]; [bound] is what listening on an ephemeral port gives. *)
Definition start (bound : Completion N) (s : HttpServer)
  : Completion string * HttpServer :=
  if server s then (Normal (getServerUrl s), s)
  else
    match bound with
    | Normal p =>
        let s' := {| server := true; port := p; contentMap := contentMap s |} in
        (Normal (getServerUrl s'), s')
    | Throw e =>
        (Throw e, {| server := true; port := port s; contentMap := contentMap s |})
    end.

Definition registerContent (documentUri content : string) (s : HttpServer)
  : string * HttpServer :=
  let docId := docId documentUri in
  let s' := setContentMap (<[docId := content]> (contentMap s)) s in
  (getServerUrl s' ++ "/doc/" ++ docId, s').

Definition updateContent (documentUri content : string) (s : HttpServer)
  : HttpServer :=
  let docId := docId documentUri in
  setContentMap (<[docId := content]> (contentMap s)) s.

Definition removeContent (documentUri : string) (s : HttpServer) : HttpServer :=
  let docId := docId documentUri in
  setContentMap (delete docId (contentMap s)) s.

Definition dispose (s : HttpServer) : HttpServer :=
  if server s then {| server := false; port := port s; contentMap := ∅ |}
  else s.

Record Request : Type := {
  method : string;
  url : option string          (* req.url: path and query *)
}.

Record Response : Type := {
  status : N;
  headers : list (string * string);
  body : string
}.

Definition corsHeaders : list (string * string) :=
  [ ("Access-Control-Allow-Origin", "*");
    ("Access-Control-Allow-Methods", "GET, OPTIONS");
    ("Access-Control-Allow-Headers", "Content-Type") ].

Definition notSlash (c : ascii) : bool := negb (Ascii.eqb c "/"%char).

(** [req.url?.match(/^\/doc\/([^/]+)/)]: the first capture group. *)
Definition matchDoc (u : option string) : option string :=
  match u with
  | None => None
  | Some target =>
      if startsWith target "/doc/" then
        match takeWhile notSlash (dropString 5 target) with
        | EmptyString => None
        | id => Some id
        end
      else None
  end.

(** The request listener given to [http.createServer]. *)
Definition handle (s : HttpServer) (req : Request) : Response :=
  if String.eqb (method req) "OPTIONS" then
    {| status := 200; headers := corsHeaders; body := "" |}
  else if negb (String.eqb (method req) "GET") then
    {| status := 405; headers := corsHeaders; body := "Method Not Allowed" |}
  else
    match matchDoc (url req) with
    | None => {| status := 404; headers := corsHeaders; body := "Not Found" |}
    | Some docId =>
        let content := contentMap s !! docId in
        if negb (truthyString content) then
          {| status := 404; headers := corsHeaders;
             body := "Document Not Found" |}
        else
          let content := default "" content in
          let contentType :=
            if startsWith (trim content) "{" then "application/json"
            else "text/yaml" in
          {| status := 200;
             headers := corsHeaders ++
               [ ("Content-Type", contentType);
                 ("Cache-Control", "no-cache, no-store, must-revalidate") ];
             body := content |}
    end.

(** A client fetching an absolute URL with GET: the request reaches the
    listener when the server listens and the URL is under its base
    URL; the request target is the rest of the URL. *)
Definition fetch (s : HttpServer) (absoluteUrl : string) : option Response :=
  let base := getServerUrl s in
  if server s && startsWith absoluteUrl base then
    let target := dropString (String.length base) absoluteUrl in
    Some (handle s {| method := "GET";
                      url := Some (if String.eqb target "" then "/" else target) |})
  else None.


End Server.

(** ** Change watcher (fileWatcher.ts)

    The watcher lives on the event loop of the host: subscriptions to
    document-change and file-deletion events, and timers.  [Host] holds
    that loop, the live text documents and the [FileWatcher] objects;
    the callbacks handed to [watch] act on a state [Client] of their
    own. *)

Module Watcher.
Import Js Detection.

(** A subscription handed out by the host. *)
Inductive Subscription : Type :=
| ChangeSubscription (id : nat)       (* of onDidChangeTextDocument *)
| DeleteSubscription (id : nat)       (* of fileWatcher.onDidDelete *)
| FileSystemWatcher (id : nat).       (* of createFileSystemWatcher *)

Record FileWatcher : Type := {
  disposables : list Subscription;
  debounceTimer : option nat;
  debounceDelay : Z
}.

Record FileWatcherOptions : Type := {
  optDebounceDelay : option Z
}.

(** The disposable that [watch] returns: [() => this.dispose()]. *)
Record WatchHandle : Type := { handleThis : nat }.

(** What the watcher was seen to call. *)
Inductive Observation : Type :=
| CallChanged (content : string)
| CallDeleted
| CallError (e : Thrown).

Section WithClient.
Context {Client : Type}.

Definition FileChangeCallback : Type :=
  string -> Client -> Completion unit * Client.
Definition FileDeletionCallback : Type :=
  Client -> Completion unit * Client.
Definition FileErrorCallback : Type :=
  Thrown -> Client -> Completion unit * Client.

(** The listener given to [onDidChangeTextDocument]. *)
Record ChangeListener : Type := {
  clThis : nat;
  clUri : string;
  clOnChanged : FileChangeCallback;
  clOnError : option FileErrorCallback
}.

(** The function given to [debounceChange]; [event.document] is the
    live document, read when the function runs. *)
Record DebouncedCall : Type := {
  dcDocument : string;
  dcOnChanged : FileChangeCallback;
  dcOnError : option FileErrorCallback
}.

(** A pending [setTimeout] of [debounceChange]. *)
Record Timer : Type := {
  deadline : Z;
  timerThis : nat;
  timerFn : DebouncedCall
}.

(** The listener given to [fileWatcher.onDidDelete]. *)
Record DeleteListener : Type := {
  dlWatcher : nat;
  dlUri : string;
  dlOnDeleted : option FileDeletionCallback;
  dlOnError : option FileErrorCallback
}.

Record Host : Type := {
  now : Z;                                        (* milliseconds *)
  nextId : nat;
  documents : gmap string string;                 (* text by uri *)
  changeListeners : list (nat * ChangeListener);  (* oldest first *)
  deleteListeners : list (nat * DeleteListener);
  fileSystemWatchers : list (nat * (Uri * string));
  createFileSystemWatcherThrows : option Thrown;
  timers : list (nat * Timer);                    (* oldest first *)
  watchers : gmap nat FileWatcher;
  calls : list Observation
}.

Definition boot (clock : Z) (docs : gmap string string)
           (fsThrows : option Thrown) : Host :=
  {| now := clock; nextId := 0; documents := docs;
     changeListeners := []; deleteListeners := [];
     fileSystemWatchers := [];
     createFileSystemWatcherThrows := fsThrows;
     timers := []; watchers := ∅; calls := [] |}.

Definition setNow (t : Z) (h : Host) : Host :=
  {| now := t; nextId := nextId h; documents := documents h;
     changeListeners := changeListeners h;
     deleteListeners := deleteListeners h;
     fileSystemWatchers := fileSystemWatchers h;
     createFileSystemWatcherThrows := createFileSystemWatcherThrows h;
     timers := timers h; watchers := watchers h; calls := calls h |}.

Definition fresh (h : Host) : nat * Host :=
  (nextId h,
   {| now := now h; nextId := S (nextId h); documents := documents h;
      changeListeners := changeListeners h;
      deleteListeners := deleteListeners h;
      fileSystemWatchers := fileSystemWatchers h;
      createFileSystemWatcherThrows := createFileSystemWatcherThrows h;
      timers := timers h; watchers := watchers h; calls := calls h |}).

Definition setDocuments (d : gmap string string) (h : Host) : Host :=
  {| now := now h; nextId := nextId h; documents := d;
     changeListeners := changeListeners h;
     deleteListeners := deleteListeners h;
     fileSystemWatchers := fileSystemWatchers h;
     createFileSystemWatcherThrows := createFileSystemWatcherThrows h;
     timers := timers h; watchers := watchers h; calls := calls h |}.

Definition setChangeListeners (l : list (nat * ChangeListener)) (h : Host)
  : Host :=
  {| now := now h; nextId := nextId h; documents := documents h;
     changeListeners := l;
     deleteListeners := deleteListeners h;
     fileSystemWatchers := fileSystemWatchers h;
     createFileSystemWatcherThrows := createFileSystemWatcherThrows h;
     timers := timers h; watchers := watchers h; calls := calls h |}.

Definition setDeleteListeners (l : list (nat * DeleteListener)) (h : Host)
  : Host :=
  {| now := now h; nextId := nextId h; documents := documents h;
     changeListeners := changeListeners h;
     deleteListeners := l;
     fileSystemWatchers := fileSystemWatchers h;
     createFileSystemWatcherThrows := createFileSystemWatcherThrows h;
     timers := timers h; watchers := watchers h; calls := calls h |}.

Definition setFileSystemWatchers (l : list (nat * (Uri * string)))
           (h : Host) : Host :=
  {| now := now h; nextId := nextId h; documents := documents h;
     changeListeners := changeListeners h;
     deleteListeners := deleteListeners h;
     fileSystemWatchers := l;
     createFileSystemWatcherThrows := createFileSystemWatcherThrows h;
     timers := timers h; watchers := watchers h; calls := calls h |}.

Definition setTimers (l : list (nat * Timer)) (h : Host) : Host :=
  {| now := now h; nextId := nextId h; documents := documents h;
     changeListeners := changeListeners h;
     deleteListeners := deleteListeners h;
     fileSystemWatchers := fileSystemWatchers h;
     createFileSystemWatcherThrows := createFileSystemWatcherThrows h;
     timers := l; watchers := watchers h; calls := calls h |}.

Definition setWatchers (m : gmap nat FileWatcher) (h : Host) : Host :=
  {| now := now h; nextId := nextId h; documents := documents h;
     changeListeners := changeListeners h;
     deleteListeners := deleteListeners h;
     fileSystemWatchers := fileSystemWatchers h;
     createFileSystemWatcherThrows := createFileSystemWatcherThrows h;
     timers := timers h; watchers := m; calls := calls h |}.

Definition observe (o : Observation) (h : Host) : Host :=
  {| now := now h; nextId := nextId h; documents := documents h;
     changeListeners := changeListeners h;
     deleteListeners := deleteListeners h;
     fileSystemWatchers := fileSystemWatchers h;
     createFileSystemWatcherThrows := createFileSystemWatcherThrows h;
     timers := timers h; watchers := watchers h;
     calls := calls h ++ [o] |}.

Definition withoutId {A} (id : nat) (l : list (nat * A)) : list (nat * A) :=
  filter (fun e => fst e ≠ id) l.

(** [clearTimeout] *)
Definition clearTimeout (id : nat) (h : Host) : Host :=
  setTimers (withoutId id (timers h)) h.

(** [subscription.dispose()] *)
Definition release (d : Subscription) (h : Host) : Host :=
  match d with
  | ChangeSubscription id =>
      setChangeListeners (withoutId id (changeListeners h)) h
  | DeleteSubscription id =>
      setDeleteListeners (withoutId id (deleteListeners h)) h
  | FileSystemWatcher id =>
      setFileSystemWatchers (withoutId id (fileSystemWatchers h)) h
  end.

(** Field updates of the [FileWatcher] object [this]. *)
Definition setDebounceTimer (this : nat) (t : option nat) (h : Host) : Host :=
  match watchers h !! this with
  | Some fw =>
      setWatchers
        (<[this := {| disposables := disposables fw; debounceTimer := t;
                      debounceDelay := debounceDelay fw |}]> (watchers h)) h
  | None => h
  end.

Definition pushDisposable (this : nat) (d : Subscription) (h : Host) : Host :=
  match watchers h !! this with
  | Some fw =>
      setWatchers
        (<[this := {| disposables := disposables fw ++ [d];
                      debounceTimer := debounceTimer fw;
                      debounceDelay := debounceDelay fw |}]> (watchers h)) h
  | None => h
  end.

(** [new FileWatcher(options)] *)
Definition newFileWatcher (options : FileWatcherOptions) (h : Host)
  : nat * Host :=
  let (this, h1) := fresh h in
  (this,
   setWatchers
     (<[this := {| disposables := []; debounceTimer := None;
                   debounceDelay := default 500%Z (optDebounceDelay options) |}]>
        (watchers h1)) h1).

(** [debounceChange(fn)] *)
Definition debounceChange (this : nat) (fn : DebouncedCall) (h : Host)
  : Host :=
  match watchers h !! this with
  | None => h
  | Some fw =>
      let h1 :=
        match debounceTimer fw with
        | Some old => clearTimeout old h
        | None => h
        end in
      let (id, h2) := fresh h1 in
      let h3 :=
        setTimers (timers h2 ++
                     [(id, {| deadline :=
                                (now h2 + setTimeoutDelay (debounceDelay fw))%Z;
                              timerThis := this; timerFn := fn |})]) h2 in
      setDebounceTimer this (Some id) h3
  end.

(** The body of a debounced call:
    [try { onChanged(event.document.getText()) }
     catch (error) { if (onError) onError(...) }]. *)
Definition runDebounced (fn : DebouncedCall) (hc : Host * Client)
  : Completion unit * (Host * Client) :=
  let (h, c) := hc in
  let text := default "" (documents h !! dcDocument fn) in
  let h1 := observe (CallChanged text) h in
  match dcOnChanged fn text c with
  | (Normal _, c1) => (Normal tt, (h1, c1))
  | (Throw e, c1) =>
      match dcOnError fn with
      | Some onError =>
          let (r, c2) := onError (toError e) c1 in
          (r, (observe (CallError (toError e)) h1, c2))
      | None => (Normal tt, (h1, c1))
      end
  end.

(** The function given to [setTimeout]:
    [() => { fn(); this.debounceTimer = undefined; }]. *)
Definition runTimer (t : Timer) (hc : Host * Client)
  : Completion unit * (Host * Client) :=
  match runDebounced (timerFn t) hc with
  | (Normal _, (h1, c1)) =>
      (Normal tt, (setDebounceTimer (timerThis t) None h1, c1))
  | (Throw e, hc1) => (Throw e, hc1)
  end.

(** The pending timer that is due first; among equal deadlines the
    oldest. *)
Fixpoint earliest (l : list (nat * Timer)) : option (nat * Timer) :=
  match l with
  | [] => None
  | t :: r =>
      match earliest r with
      | Some t' =>
          if (deadline (snd t') <? deadline (snd t))%Z then Some t'
          else Some t
      | None => Some t
      end
  end.

(** The loop runs the timers due by [t], in order; an exception that
    escapes a timer function is reported by the runtime and the loop
    goes on.  The callbacks cannot reach the loop, so no timer is
    added meanwhile and [fuel] bounds the number of runs. *)
Fixpoint runTimers (fuel : nat) (t : Z) (hc : Host * Client)
  : Host * Client :=
  match fuel with
  | O => hc
  | S fuel' =>
      match earliest (timers (fst hc)) with
      | Some (id, tm) =>
          if (deadline tm <=? t)%Z then
            let h1 :=
              setNow (Z.max (now (fst hc)) (deadline tm))
                     (clearTimeout id (fst hc)) in
            runTimers fuel' t (snd (runTimer tm (h1, snd hc)))
          else hc
      | None => hc
      end
  end.

(** Time passes until [t]. *)
Definition advanceTo (t : Z) (hc : Host * Client) : Host * Client :=
  let (h, c) := runTimers (length (timers (fst hc))) t hc in
  (setNow (Z.max (now h) t) h, c).

(** The listener of [onDidChangeTextDocument] set up by [watch]. *)
Definition onDidChangeTextDocument (l : ChangeListener) (document : string)
           (h : Host) : Host :=
  if String.eqb document (clUri l) then
    debounceChange (clThis l)
      {| dcDocument := document; dcOnChanged := clOnChanged l;
         dcOnError := clOnError l |} h
  else h.

(** The host fires the change event of [document]. *)
Definition fireDidChangeTextDocument (document : string) (h : Host) : Host :=
  foldl (fun h l => onDidChangeTextDocument (snd l) document h)
        h (changeListeners h).

(** An edit at time [t] that leaves [document] with [text]. *)
Definition editDocument (document text : string) (t : Z)
           (hc : Host * Client) : Host * Client :=
  let (h, c) := advanceTo t hc in
  (fireDidChangeTextDocument document
     (setDocuments (<[document := text]> (documents h)) h), c).

(** The listener of [onDidDelete] set up by [watch]. *)
Definition onDidDelete (l : DeleteListener) (deletedUri : string)
           (hc : Host * Client) : Completion unit * (Host * Client) :=
  let (h, c) := hc in
  if String.eqb deletedUri (dlUri l) then
    match dlOnDeleted l with
    | None => (Normal tt, (h, c))
    | Some onDeleted =>
        let h1 := observe CallDeleted h in
        match onDeleted c with
        | (Normal _, c1) => (Normal tt, (h1, c1))
        | (Throw e, c1) =>
            match dlOnError l with
            | Some onError =>
                let (r, c2) := onError (toError e) c1 in
                (r, (observe (CallError (toError e)) h1, c2))
            | None => (Normal tt, (h1, c1))
            end
        end
    end
  else (Normal tt, (h, c)).

Definition alive (id : nat) (h : Host) : bool :=
  existsb (fun e => Nat.eqb (fst e) id) (fileSystemWatchers h).

(** The host reports the deletion of [deletedUri] to the listeners of
    the file-system watchers still in place. *)
Definition fireDidDelete (deletedUri : string) (hc : Host * Client)
  : Host * Client :=
  foldl (fun hc l =>
           if alive (dlWatcher (snd l)) (fst hc)
           then snd (onDidDelete (snd l) deletedUri hc) else hc)
        hc (deleteListeners (fst hc)).

(** [watch(uri, onChanged, onDeleted, onError)] *)
Definition watch (this : nat) (u : Uri)
           (onChanged : FileChangeCallback)
           (onDeleted : option FileDeletionCallback)
           (onError : option FileErrorCallback)
           (hc : Host * Client)
  : Completion WatchHandle * (Host * Client) :=
  let (h, c) := hc in
  let (changeId, h1) := fresh h in
  let h2 :=
    setChangeListeners
      (changeListeners h1 ++
         [(changeId, {| clThis := this; clUri := uriString u;
                        clOnChanged := onChanged; clOnError := onError |})])
      h1 in
  let h3 := pushDisposable this (ChangeSubscription changeId) h2 in
  match createFileSystemWatcherThrows h3 with
  | None =>
      let (fsId, h4) := fresh h3 in
      let h5 :=
        setFileSystemWatchers
          (fileSystemWatchers h4 ++
             [(fsId, (u, orString (Some (lastSegment "/" (path u))) "*"))])
          h4 in
      let (deleteId, h6) := fresh h5 in
      let h7 :=
        setDeleteListeners
          (deleteListeners h6 ++
             [(deleteId, {| dlWatcher := fsId; dlUri := uriString u;
                            dlOnDeleted := onDeleted; dlOnError := onError |})])
          h6 in
      let h8 := pushDisposable this (DeleteSubscription deleteId) h7 in
      let h9 := pushDisposable this (FileSystemWatcher fsId) h8 in
      (Normal {| handleThis := this |}, (h9, c))
  | Some e =>
      match onError with
      | Some f =>
          match f (toError e) c with
          | (Normal _, c1) =>
              (Normal {| handleThis := this |},
               (observe (CallError (toError e)) h3, c1))
          | (Throw e', c1) =>
              (Throw e', (observe (CallError (toError e)) h3, c1))
          end
      | None => (Normal {| handleThis := this |}, (h3, c))
      end
  end.

(** [dispose()] *)
Definition dispose (this : nat) (h : Host) : Host :=
  match watchers h !! this with
  | None => h
  | Some fw =>
      let h1 :=
        match debounceTimer fw with
        | Some id => setDebounceTimer this None (clearTimeout id h)
        | None => h
        end in
      let h2 := foldl (fun h d => release d h) h1 (disposables fw) in
      match watchers h2 !! this with
      | Some fw2 =>
          setWatchers
            (<[this := {| disposables := [];
                          debounceTimer := debounceTimer fw2;
                          debounceDelay := debounceDelay fw2 |}]>
               (watchers h2)) h2
      | None => h2
      end
  end.

(** Disposing the handle that [watch] returned. *)
Definition disposeHandle (d : WatchHandle) (h : Host) : Host :=
  dispose (handleThis d) h.

Definition active (d : Subscription) (h : Host) : bool :=
  match d with
  | ChangeSubscription id =>
      existsb (fun e => Nat.eqb (fst e) id) (changeListeners h)
  | DeleteSubscription id =>
      existsb (fun e => Nat.eqb (fst e) id) (deleteListeners h)
  | FileSystemWatcher id =>
      existsb (fun e => Nat.eqb (fst e) id) (fileSystemWatchers h)
  end.

Definition pending (id : nat) (h : Host) : bool :=
  existsb (fun e => Nat.eqb (fst e) id) (timers h).

(** The contents delivered to [onChanged], oldest first. *)
Fixpoint delivered (l : list Observation) : list string :=
  match l with
  | [] => []
  | CallChanged x :: r => x :: delivered r
  | _ :: r => delivered r
  end.

(** The change listener that [watch] subscribes for [document], and the
    call that [debounceChange] schedules for it. *)
Definition listenerOf (this : nat) (document : string)
           (onChanged : FileChangeCallback)
           (onError : option FileErrorCallback) : ChangeListener :=
  {| clThis := this; clUri := document;
     clOnChanged := onChanged; clOnError := onError |}.

Definition callOf (document : string) (onChanged : FileChangeCallback)
           (onError : option FileErrorCallback) : DebouncedCall :=
  {| dcDocument := document; dcOnChanged := onChanged;
     dcOnError := onError |}.

(** A new watcher with one registration, on a host without other
    listeners or timers. *)
Definition watchOne (options : FileWatcherOptions) (u : Uri)
           (onChanged : FileChangeCallback)
           (onDeleted : option FileDeletionCallback)
           (onError : option FileErrorCallback)
           (clock : Z) (docs : gmap string string)
           (fsThrows : option Thrown) (c : Client)
  : nat * (Host * Client) :=
  let (this, h1) := newFileWatcher options (boot clock docs fsThrows) in
  (this, snd (watch this u onChanged onDeleted onError (h1, c))).

(** A sequence of edits of one document, each with its time and the
    text it leaves. *)
Definition editAll (document : string) (edits : list (Z * string))
           (hc : Host * Client) : Host * Client :=
  foldl (fun hc e => editDocument document (snd e) (fst e) hc) hc edits.

(** What a debounced call with the text [x] leaves of the client, and
    what the watcher is seen to call in its course. *)
Definition afterChange (onChanged : FileChangeCallback)
           (onError : option FileErrorCallback) (x : string) (c : Client)
  : Client :=
  match onChanged x c with
  | (Normal _, c1) => c1
  | (Throw e, c1) =>
      match onError with
      | Some f => snd (f (toError e) c1)
      | None => c1
      end
  end.

Definition observed (onChanged : FileChangeCallback)
           (onError : option FileErrorCallback) (x : string) (c : Client)
  : list Observation :=
  CallChanged x ::
  match fst (onChanged x c), onError with
  | Throw e, Some _ => [CallError (toError e)]
  | _, _ => []
  end.

(** The states of a watcher [this] with one registration for
    [document], whatever the time is and whatever was called so far
    ([seen]): no call is pending ([quiet]); or one call is pending, due
    at [due], and the document has the text [x] ([waiting]).  The
    subscription of the change listener is among the disposables of
    the watcher. *)
Definition quiet (this : nat) (document : string) (delay : Z)
           (onChanged : FileChangeCallback)
           (onError : option FileErrorCallback)
           (seen : list Observation) (h : Host) : Prop :=
  timers h = []
  /\ (exists id ds dt,
         changeListeners h = [(id, listenerOf this document onChanged onError)]
         /\ watchers h !! this
            = Some {| disposables := ds; debounceTimer := dt;
                      debounceDelay := delay |}
         /\ ChangeSubscription id ∈ ds)
  /\ calls h = seen.

Definition waiting (this : nat) (document : string) (delay : Z)
           (onChanged : FileChangeCallback)
           (onError : option FileErrorCallback)
           (due : Z) (x : string) (seen : list Observation) (h : Host)
  : Prop :=
  (exists id tid ds,
      changeListeners h = [(id, listenerOf this document onChanged onError)]
      /\ timers h
         = [(tid, {| deadline := due; timerThis := this;
                     timerFn := callOf document onChanged onError |})]
      /\ watchers h !! this
         = Some {| disposables := ds; debounceTimer := Some tid;
                   debounceDelay := delay |}
      /\ ChangeSubscription id ∈ ds)
  /\ documents h !! document = Some x
  /\ calls h = seen.

(** Edits of several documents, each with its document, its time and
    the text it leaves. *)
Definition editMany (edits : list (string * (Z * string)))
           (hc : Host * Client) : Host * Client :=
  foldl (fun hc e => editDocument (fst e) (snd (snd e)) (fst (snd e)) hc)
        hc edits.

(** The callbacks of a registration leave alone what [view] shows of
    the client: a debounced call with them, whatever its text, does not
    change it. *)
Definition keeps {V : Type} (view : Client -> V)
           (onChanged : FileChangeCallback)
           (onError : option FileErrorCallback) : Prop :=
  forall x c, view (afterChange onChanged onError x c) = view c.

(** Identifiers are handed out in increasing order: those of the
    pending timers and those kept in the [debounceTimer] fields are
    below the next one. *)
Definition wellFormed (h : Host) : bool :=
  forallb (fun e => (fst e <? nextId h)%nat) (timers h)
  && forallb (fun e => match debounceTimer (snd e) with
                       | Some id => (id <? nextId h)%nat
                       | None => true
                       end)
             (map_to_list (watchers h)).

(** The watcher [this], made with the delay [delay], has one
    registration: for [document], with the callbacks [onChanged] and
    [onError]; and it has no call pending. *)
Definition registered (this : nat) (document : string) (delay : Z)
           (onChanged : FileChangeCallback)
           (onError : option FileErrorCallback) (h : Host) : Prop :=
  (exists fw, watchers h !! this = Some fw /\ debounceDelay fw = delay)
  /\ (exists id,
         (id, listenerOf this document onChanged onError) ∈ changeListeners h)
  /\ Forall (fun e => clThis (snd e) = this ->
                      snd e = listenerOf this document onChanged onError)
            (changeListeners h)
  /\ Forall (fun e => timerThis (snd e) <> this) (timers h).

(** The other watchers on the loop, in their listeners and in their
    pending calls, leave alone what [view] shows of the client. *)
Definition othersKeep {V : Type} (view : Client -> V) (this : nat) (h : Host)
  : Prop :=
  Forall (fun e => clThis (snd e) <> this ->
                   keeps view (clOnChanged (snd e)) (clOnError (snd e)))
         (changeListeners h)
  /\ Forall (fun e => timerThis (snd e) <> this ->
                      keeps view (dcOnChanged (timerFn (snd e)))
                            (dcOnError (timerFn (snd e))))
            (timers h).

(** The listeners on the loop as the watcher [this] sees them: those of
    [this] are its one registration, the others leave the view alone. *)
Definition listeners {V : Type} (view : Client -> V) (this : nat)
           (document : string) (onChanged : FileChangeCallback)
           (onError : option FileErrorCallback)
           (l : list (nat * ChangeListener)) : Prop :=
  Forall (fun e => clThis (snd e) = this ->
                   snd e = listenerOf this document onChanged onError) l
  /\ Forall (fun e => clThis (snd e) <> this ->
                      keeps view (clOnChanged (snd e)) (clOnError (snd e))) l.

(** The timers and watchers of the loop as the watcher [this] sees
    them.  Identifiers are below the next one, [n]; the pending calls
    of the others leave the view alone; and of [this] no call is
    pending ([None]), or one is, due at [due]: the timer that its
    [debounceTimer] names, a name that no other timer has and no other
    watcher holds. *)
Definition shared {V : Type} (view : Client -> V) (this : nat)
           (document : string) (delay : Z)
           (onChanged : FileChangeCallback)
           (onError : option FileErrorCallback)
           (p : option Z) (n : nat) (tms : list (nat * Timer))
           (ws : gmap nat FileWatcher) : Prop :=
  Forall (fun e => fst e < n) tms
  /\ (forall w fw id, ws !! w = Some fw -> debounceTimer fw = Some id -> id < n)
  /\ Forall (fun e => timerThis (snd e) <> this ->
                      keeps view (dcOnChanged (timerFn (snd e)))
                            (dcOnError (timerFn (snd e)))) tms
  /\ exists fw,
       ws !! this = Some fw /\ debounceDelay fw = delay
       /\ match p with
          | None => Forall (fun e => timerThis (snd e) <> this) tms
          | Some due =>
              let timer :=
                {| deadline := due; timerThis := this;
                   timerFn := callOf document onChanged onError |} in
              exists tid,
                debounceTimer fw = Some tid
                /\ (tid, timer) ∈ tms
                /\ Forall (fun e => timerThis (snd e) = this \/ fst e = tid ->
                                    e = (tid, timer)) tms
                /\ forall w fw', w <> this -> ws !! w = Some fw' ->
                                 debounceTimer fw' <> Some tid
          end.

Definition sharedLoop {V : Type} (view : Client -> V) (this : nat)
           (document : string) (delay : Z)
           (onChanged : FileChangeCallback)
           (onError : option FileErrorCallback)
           (p : option Z) (h : Host) : Prop :=
  shared view this document delay onChanged onError p
         (nextId h) (timers h) (watchers h).

End WithClient.

(** Edits of any documents, in the order of their times and none before
    [t]; once [document] has been edited, every further edit comes
    before the pending call is due, at [due], and an edit of
    [document] moves that time to [D] after itself. *)
Fixpoint inWindow (D : Z) (document : string) (t : Z) (due : option Z)
         (edits : list (string * (Z * string))) : Prop :=
  match edits with
  | [] => True
  | e :: r =>
      (t <= fst (snd e))%Z
      /\ match due with
         | Some d => (fst (snd e) < d)%Z
         | None => True
         end
      /\ inWindow D document (fst (snd e))
           (if String.eqb (fst e) document
            then Some (fst (snd e) + D)%Z else due) r
  end.

(** The last edit of [document] among [edits]: its time and the text it
    leaves; [cur] when there is none. *)
Fixpoint lastOwn (document : string) (cur : option (Z * string))
         (edits : list (string * (Z * string))) : option (Z * string) :=
  match edits with
  | [] => cur
  | e :: r =>
      lastOwn document
        (if String.eqb (fst e) document then Some (snd e) else cur) r
  end.

(** When the call for the edit [cur] is due, in a window of [D]. *)
Definition dueOf (D : Z) (cur : option (Z * string)) : option Z :=
  option_map (fun tx => (fst tx + D)%Z) cur.

(** Each edit comes no earlier than the one before and less than
    [delay] after it: all fall into one debounce window, which every
    edit restarts. *)
Fixpoint spaced (delay : Z) (t : Z) (edits : list (Z * string)) : Prop :=
  match edits with
  | [] => True
  | e :: r => (t <= fst e < t + delay)%Z /\ spaced delay (fst e) r
  end.

(** Each edit comes more than [delay] after the one before: every
    debounce window has closed when the next edit arrives. *)
Fixpoint apart (delay : Z) (t : Z) (edits : list (Z * string)) : Prop :=
  match edits with
  | [] => True
  | e :: r => (t + delay < fst e)%Z /\ apart delay (fst e) r
  end.

(** The delays that [setTimeout] takes as given: from 1 ms to
    2^31 - 1 ms. *)
Definition timerDelay (delay : Z) : Prop := (1 <= delay <= 2147483647)%Z.

Definition lastEdit (first : Z * string) (rest : list (Z * string))
  : Z * string :=
  List.last rest first.

Arguments Host Client : clear implicits.
Arguments ChangeListener Client : clear implicits.
Arguments DebouncedCall Client : clear implicits.
Arguments Timer Client : clear implicits.
Arguments DeleteListener Client : clear implicits.
Arguments FileChangeCallback Client : clear implicits.
Arguments FileDeletionCallback Client : clear implicits.
Arguments FileErrorCallback Client : clear implicits.

End Watcher.

(** ** Content view (webviewContent.ts)

    The markup is a fixed template; the embedding keeps the three places
    where [getHtmlContent] interpolates its arguments (the nonce and the
    resource URIs are left out). *)

Module Webview.
Import Js.

Record Html : Type := {
  apiDescriptionUrl : string;   (* attribute of the elements-api tag *)
  errorShown : bool;            (* error container displayed, component hidden *)
  errorText : string
}.

Definition getHtmlContent (contentUrl : string) (errorMessage : option string)
  : Html :=
  {| apiDescriptionUrl := contentUrl;
     errorShown := truthyString errorMessage;
     errorText := orString errorMessage "" |}.

Definition lineFeed : ascii := ascii_of_nat 10.
Definition carriageReturn : ascii := ascii_of_nat 13.
Definition tabulation : ascii := ascii_of_nat 9.

(** [escapeForJson]: eight replacements, one after the other, the
    ampersand first. *)
Definition escapeForJson (str : string) : string :=
  replaceAll tabulation "&#9;"
 (replaceAll carriageReturn "&#13;"
 (replaceAll lineFeed "&#10;"
 (replaceAll ">"%char "&gt;"
 (replaceAll "<"%char "&lt;"
 (replaceAll "'"%char "&#39;"
 (replaceAll doubleQuote "&quot;"
 (replaceAll "&"%char "&amp;" str))))))).

(** The characters that [escapeForJson] replaces. *)
Definition isEscaped (c : ascii) : bool :=
  Ascii.eqb c "&" || Ascii.eqb c doubleQuote || Ascii.eqb c "'"
  || Ascii.eqb c "<" || Ascii.eqb c ">"
  || Ascii.eqb c lineFeed || Ascii.eqb c carriageReturn
  || Ascii.eqb c tabulation.

End Webview.

(** ** Preview coordinator (previewManager.ts) *)

Module Manager.
Import Js Detection Reader Webview.

(** [vscode.ViewColumn] *)
Inductive ViewColumn : Type :=
| Active | Beside
| One | Two | Three | Four | Five | Six | Seven | Eight | Nine.

Definition columnNumber (c : ViewColumn) : Z :=
  match c with
  | Active => -1 | Beside => -2
  | One => 1 | Two => 2 | Three => 3 | Four => 4 | Five => 5
  | Six => 6 | Seven => 7 | Eight => 8 | Nine => 9
  end.

Definition truthyColumn (c : option ViewColumn) : bool :=
  match c with
  | Some c => negb (columnNumber c =? 0)%Z
  | None => false
  end.

(** [a || b] where both may be [undefined]. *)
Definition orElse (a b : option ViewColumn) : option ViewColumn :=
  if truthyColumn a then a else b.

(** [a || b] where [b] is a column. *)
Definition orColumn (a : option ViewColumn) (b : ViewColumn) : ViewColumn :=
  match a with
  | Some c => if truthyColumn a then c else b
  | None => b
  end.

(** Messages posted to the webview. *)
Inductive Message : Type :=
| UpdateMessage (content : string) (timestamp : Z)
| ErrorMessage (message : string).

(** A webview panel of the host.  [viewColumn] and [revealThrows] are
    what the host answers when the panel is asked for its column or
    asked to reveal itself. *)
Record WebviewPanel : Type := {
  title : string;
  shownIn : ViewColumn;
  viewColumn : Completion (option ViewColumn);
  revealThrows : option Thrown;
  html : option Html;
  posted : list Message
}.

Inductive Notification : Type :=
| ErrorNotification (text : string)
| WarningNotification (text : string).

(** The window of the host and the workspace configuration. *)
Record Window : Type := {
  panels : gmap nat WebviewPanel;
  nextPanel : nat;
  (* what the next createWebviewPanel does: throws, or gives a panel
     that answers its queries this way *)
  createWebviewPanelThrows : option Thrown;
  newPanelViewColumn : Completion (option ViewColumn);
  newPanelRevealThrows : option Thrown;
  (* window.activeTextEditor and its viewColumn *)
  activeTextEditor : option (option ViewColumn);
  (* the setting openapi-preview.previewColumn, when set *)
  previewColumn : option string;
  notifications : list Notification;
  (* the calls of createWebviewPanel so far: title and column *)
  panelRequests : list (string * ViewColumn)
}.

(** What the callbacks given to the watcher act on. *)
Record Client : Type := {
  window : Window;
  httpServer : Server.HttpServer
}.

Definition setPanels (m : gmap nat WebviewPanel) (w : Window) : Window :=
  {| panels := m; nextPanel := nextPanel w;
     createWebviewPanelThrows := createWebviewPanelThrows w;
     newPanelViewColumn := newPanelViewColumn w;
     newPanelRevealThrows := newPanelRevealThrows w;
     activeTextEditor := activeTextEditor w;
     previewColumn := previewColumn w;
     notifications := notifications w;
     panelRequests := panelRequests w |}.

Definition notify (n : Notification) (w : Window) : Window :=
  {| panels := panels w; nextPanel := nextPanel w;
     createWebviewPanelThrows := createWebviewPanelThrows w;
     newPanelViewColumn := newPanelViewColumn w;
     newPanelRevealThrows := newPanelRevealThrows w;
     activeTextEditor := activeTextEditor w;
     previewColumn := previewColumn w;
     notifications := notifications w ++ [n];
     panelRequests := panelRequests w |}.

(** [vscode.window.createWebviewPanel(viewType, title, column, options)] *)
Definition createWebviewPanel (panelTitle : string) (column : ViewColumn)
           (w : Window) : Completion nat * Window :=
  let requested := (panelRequests w ++ [(panelTitle, column)])%list in
  match createWebviewPanelThrows w with
  | Some e =>
      (Throw e,
       {| panels := panels w; nextPanel := nextPanel w;
          createWebviewPanelThrows := createWebviewPanelThrows w;
          newPanelViewColumn := newPanelViewColumn w;
          newPanelRevealThrows := newPanelRevealThrows w;
          activeTextEditor := activeTextEditor w;
          previewColumn := previewColumn w;
          notifications := notifications w;
          panelRequests := requested |})
  | None =>
      (Normal (nextPanel w),
       {| panels :=
            <[nextPanel w :=
                {| title := panelTitle; shownIn := column;
                   viewColumn := newPanelViewColumn w;
                   revealThrows := newPanelRevealThrows w;
                   html := None; posted := [] |}]> (panels w);
          nextPanel := S (nextPanel w);
          createWebviewPanelThrows := createWebviewPanelThrows w;
          newPanelViewColumn := newPanelViewColumn w;
          newPanelRevealThrows := newPanelRevealThrows w;
          activeTextEditor := activeTextEditor w;
          previewColumn := previewColumn w;
          notifications := notifications w;
          panelRequests := requested |})
  end.

(** [panel.viewColumn] *)
Definition panelViewColumn (p : nat) (w : Window)
  : Completion (option ViewColumn) :=
  match panels w !! p with
  | Some wp => viewColumn wp
  | None => Throw (ThrownError None "Webview is disposed")
  end.

(** [panel.reveal(column)] *)
Definition reveal (p : nat) (column : ViewColumn) (w : Window)
  : Completion unit * Window :=
  match panels w !! p with
  | Some wp =>
      match revealThrows wp with
      | Some e => (Throw e, w)
      | None =>
          (Normal tt,
           setPanels
             (<[p := {| title := title wp; shownIn := column;
                        viewColumn := viewColumn wp;
                        revealThrows := revealThrows wp;
                        html := html wp; posted := posted wp |}]> (panels w)) w)
      end
  | None => (Throw (ThrownError None "Webview is disposed"), w)
  end.

(** [panel.webview.html = h] *)
Definition setHtml (p : nat) (h : Html) (w : Window) : Window :=
  match panels w !! p with
  | Some wp =>
      setPanels
        (<[p := {| title := title wp; shownIn := shownIn wp;
                   viewColumn := viewColumn wp;
                   revealThrows := revealThrows wp;
                   html := Some h; posted := posted wp |}]> (panels w)) w
  | None => w
  end.

(** [panel.webview.postMessage(m)] *)
Definition postMessage (p : nat) (m : Message) (w : Window) : Window :=
  match panels w !! p with
  | Some wp =>
      setPanels
        (<[p := {| title := title wp; shownIn := shownIn wp;
                   viewColumn := viewColumn wp;
                   revealThrows := revealThrows wp;
                   html := html wp; posted := posted wp ++ [m] |}]>
           (panels w)) w
  | None => w
  end.

Definition setWindow (w : Window) (c : Client) : Client :=
  {| window := w; httpServer := httpServer c |}.

Definition setHttpServer (s : Server.HttpServer) (c : Client) : Client :=
  {| window := window c; httpServer := s |}.

(** A disposable kept in a preview's [disposables] array. *)
Inductive Disposable : Type :=
| PanelSubscription (id : nat)
| WatcherDisposable (h : Watcher.WatchHandle).

(** The listeners that [createPreview] attaches to a panel. *)
Inductive PanelListener : Type :=
| OnDidDispose (documentUri : string)
| OnDidChangeViewState (documentUri : string)
| OnDidReceiveMessage.

Record PreviewPanel : Type := {
  panel : nat;
  document : TextDocument;
  disposables : nat;               (* the array, shared with createPreview *)
  fileWatcher : nat;
  lastViewColumn : ViewColumn
}.

(** The coordinator with everything it reaches. *)
Record World : Type := {
  loop : Watcher.Host Client;
  client : Client;
  arrays : gmap nat (list Disposable);
  nextRef : nat;
  panelListeners : list (nat * (nat * PanelListener));
  previews : gmap string PreviewPanel;
  lastColumnPositions : gmap string ViewColumn
}.

Definition setLoopClient (hc : Watcher.Host Client * Client) (w : World)
  : World :=
  {| loop := fst hc; client := snd hc; arrays := arrays w;
     nextRef := nextRef w; panelListeners := panelListeners w;
     previews := previews w; lastColumnPositions := lastColumnPositions w |}.

Definition setClient (c : Client) (w : World) : World :=
  setLoopClient (loop w, c) w.

Definition setLoop (h : Watcher.Host Client) (w : World) : World :=
  setLoopClient (h, client w) w.

Definition setArrays (a : gmap nat (list Disposable)) (w : World) : World :=
  {| loop := loop w; client := client w; arrays := a;
     nextRef := nextRef w; panelListeners := panelListeners w;
     previews := previews w; lastColumnPositions := lastColumnPositions w |}.

Definition setPanelListeners (l : list (nat * (nat * PanelListener)))
           (w : World) : World :=
  {| loop := loop w; client := client w; arrays := arrays w;
     nextRef := nextRef w; panelListeners := l;
     previews := previews w; lastColumnPositions := lastColumnPositions w |}.

Definition setPreviews (m : gmap string PreviewPanel) (w : World) : World :=
  {| loop := loop w; client := client w; arrays := arrays w;
     nextRef := nextRef w; panelListeners := panelListeners w;
     previews := m; lastColumnPositions := lastColumnPositions w |}.

Definition setLastColumnPositions (m : gmap string ViewColumn) (w : World)
  : World :=
  {| loop := loop w; client := client w; arrays := arrays w;
     nextRef := nextRef w; panelListeners := panelListeners w;
     previews := previews w; lastColumnPositions := m |}.

Definition freshRef (w : World) : nat * World :=
  (nextRef w,
   {| loop := loop w; client := client w; arrays := arrays w;
      nextRef := S (nextRef w); panelListeners := panelListeners w;
      previews := previews w; lastColumnPositions := lastColumnPositions w |}).

(** [new PreviewManager(context)]; [bound] is what starting the server
    gives. *)
Definition create (h : Watcher.Host Client) (win : Window)
           (bound : Completion N) : World :=
  let (started, srv) := Server.start bound Server.create in
  let win1 :=
    match started with
    | Normal _ => win
    | Throw _ =>
        notify (ErrorNotification "Failed to start OpenAPI preview server") win
    end in
  {| loop := h; client := {| window := win1; httpServer := srv |};
     arrays := ∅; nextRef := 0; panelListeners := [];
     previews := ∅; lastColumnPositions := ∅ |}.

(** [disposables.push(d)] *)
Definition push (array : nat) (d : Disposable) (w : World) : World :=
  setArrays
    (<[array := (default [] (arrays w !! array) ++ [d])%list]> (arrays w)) w.

(** [panel.onDidDispose(listener, null, disposables)] and its
    siblings: the subscription is pushed onto [disposables]. *)
Definition subscribe (p : nat) (l : PanelListener) (array : nat) (w : World)
  : World :=
  let (id, w1) := freshRef w in
  push array (PanelSubscription id)
       (setPanelListeners (panelListeners w1 ++ [(id, (p, l))]) w1).

(** [d.dispose()] *)
Definition disposeOne (d : Disposable) (w : World) : World :=
  match d with
  | PanelSubscription id =>
      setPanelListeners (Watcher.withoutId id (panelListeners w)) w
  | WatcherDisposable h => setLoop (Watcher.disposeHandle h (loop w)) w
  end.

Definition getDocumentTitle (document : TextDocument) : string :=
  orString (Some (lastSegment "/" (path (uri document)))) "OpenAPI".

(** The title given to the panel: [`Preview: ${getDocumentTitle(document)}`]. *)
Definition panelTitle (document : TextDocument) : string :=
  "Preview: " ++ getDocumentTitle document.

(** [error instanceof Error ? error.message : String(error)] *)
Definition describe (e : Thrown) : string := errorMessage (toError e).

Definition getPreviewColumn (w : World) : ViewColumn :=
  match activeTextEditor (window (client w)) with
  | None => Two
  | Some editorColumn =>
      if String.eqb
           (default "beside" (previewColumn (window (client w)))) "active"
      then orColumn editorColumn One
      else Beside
  end.

Definition disposePreview (documentUri : string) (w : World) : World :=
  match previews w !! documentUri with
  | None => w
  | Some preview =>
      match panelViewColumn (panel preview) (window (client w)) with
      | Throw _ =>
          (* the outer catch *)
          setPreviews (delete documentUri (previews w)) w
      | Normal column =>
          let w1 :=
            match column with
            | Some c =>
                setLastColumnPositions
                  (<[documentUri := c]> (lastColumnPositions w)) w
            | None => w
            end in
          let w2 :=
            setClient
              (setHttpServer
                 (Server.removeContent documentUri (httpServer (client w1)))
                 (client w1)) w1 in
          let w3 := setLoop (Watcher.dispose (fileWatcher preview) (loop w2)) w2 in
          let w4 :=
            foldl (fun w d => disposeOne d w) w3
                  (default [] (arrays w3 !! disposables preview)) in
          setPreviews (delete documentUri (previews w4)) w4
      end
  end.

(** The callbacks that [createPreview] gives to the watcher. *)
Definition onFileChanged (documentUri : string) (p : nat)
  : Watcher.FileChangeCallback Client :=
  fun content c =>
    let s1 := Server.updateContent documentUri content (httpServer c) in
    let (contentUrl, s2) := Server.registerContent documentUri content s1 in
    (Normal tt,
     {| window := setHtml p (getHtmlContent contentUrl None) (window c);
        httpServer := s2 |}).

Definition onFileDeleted (document : TextDocument) (p : nat)
  : Watcher.FileDeletionCallback Client :=
  fun c =>
    let w1 :=
      postMessage p
        (ErrorMessage
           "The OpenAPI file has been deleted. The preview will no longer update.")
        (window c) in
    (Normal tt,
     setWindow
       (notify (WarningNotification
                  ("The OpenAPI file " ++ String doubleQuote (getDocumentTitle document)
                   ++ String doubleQuote " has been deleted.")) w1) c).

Definition onWatchError (p : nat) : Watcher.FileErrorCallback Client :=
  fun e c =>
    (Normal tt,
     setWindow
       (postMessage p
          (ErrorMessage ("Error monitoring file changes: " ++ errorMessage e))
          (window c)) c).

(** The [catch] of [createPreview]. *)
Definition createPreviewFailed (documentUri : string) (e : Thrown) (w : World)
  : Completion unit * World :=
  let w1 :=
    setClient
      (setWindow
         (notify (ErrorNotification ("Failed to create preview: " ++ describe e))
                 (window (client w))) (client w)) w in
  (Throw e, disposePreview documentUri w1).

Definition createPreview (document : TextDocument) (column : ViewColumn)
           (w : World) : Completion unit * World :=
  let documentUri := uriString (uri document) in
  match createWebviewPanel (panelTitle document) column
                           (window (client w)) with
  | (Throw e, win) =>
      createPreviewFailed documentUri e (setClient (setWindow win (client w)) w)
  | (Normal p, win) =>
      let w1 := setClient (setWindow win (client w)) w in
      let (disposables, w2) := freshRef w1 in
      let w3 := setArrays (<[disposables := []]> (arrays w2)) w2 in
      let w4 := subscribe p (OnDidDispose documentUri) disposables w3 in
      let w5 := subscribe p (OnDidChangeViewState documentUri) disposables w4 in
      let (fileWatcher, h) :=
        Watcher.newFileWatcher
          {| Watcher.optDebounceDelay := Some 500%Z |} (loop w5) in
      let w6 := setLoop h w5 in
      let previewPanel :=
        {| panel := p; document := document; disposables := disposables;
           fileWatcher := fileWatcher; lastViewColumn := column |} in
      let w7 := setPreviews (<[documentUri := previewPanel]> (previews w6)) w6 in
      let w8 :=
        setLastColumnPositions
          (<[documentUri := column]> (lastColumnPositions w7)) w7 in
      match Watcher.watch fileWatcher (uri document)
              (onFileChanged documentUri p)
              (Some (onFileDeleted document p))
              (Some (onWatchError p))
              (loop w8, client w8) with
      | (Throw e, hc) => createPreviewFailed documentUri e (setLoopClient hc w8)
      | (Normal watcherDisposable, hc) =>
          let w9 := setLoopClient hc w8 in
          let w10 := push disposables (WatcherDisposable watcherDisposable) w9 in
          let w11 := subscribe p OnDidReceiveMessage disposables w10 in
          let readResult := readFromDocument document in
          if negb (success readResult) || negb (truthyString (content readResult))
          then
            let errorMessage :=
              orString (option_map getUserMessage (error readResult))
                       "Failed to read file content" in
            let win1 :=
              setHtml p (getHtmlContent "about:blank" (Some errorMessage))
                      (window (client w11)) in
            (Normal tt,
             setClient
               (setWindow (notify (ErrorNotification errorMessage) win1)
                          (client w11)) w11)
          else
            let (contentUrl, srv) :=
              Server.registerContent documentUri
                (default "" (content readResult)) (httpServer (client w11)) in
            (Normal tt,
             setClient
               {| window :=
                    setHtml p (getHtmlContent contentUrl None)
                            (window (client w11));
                  httpServer := srv |} w11)
      end
  end.

Definition createOrShowPreview (document : TextDocument)
           (column : option ViewColumn) (w : World) : Completion unit * World :=
  let documentUri := uriString (uri document) in
  match previews w !! documentUri with
  | Some existingPreview =>
      let columnToUse := orColumn column (lastViewColumn existingPreview) in
      match reveal (panel existingPreview) columnToUse (window (client w)) with
      | (Normal _, win) => (Normal tt, setClient (setWindow win (client w)) w)
      | (Throw _, win) =>
          let w1 :=
            disposePreview documentUri
              (setClient (setWindow win (client w)) w) in
          let columnToUse :=
            orColumn (orElse column (lastColumnPositions w1 !! documentUri))
                     (getPreviewColumn w1) in
          createPreview document columnToUse w1
      end
  | None =>
      let columnToUse :=
        orColumn (orElse column (lastColumnPositions w !! documentUri))
                 (getPreviewColumn w) in
      createPreview document columnToUse w
  end.

Definition updatePreview (document : TextDocument) (w : World) : World :=
  let documentUri := uriString (uri document) in
  match previews w !! documentUri with
  | None => w
  | Some preview =>
      let readResult := readFromDocument document in
      if negb (success readResult) || negb (truthyString (content readResult))
      then
        let errorMessage :=
          orString (option_map getUserMessage (error readResult))
                   "Failed to read file content" in
        setClient
          (setWindow
             (postMessage (panel preview) (ErrorMessage errorMessage)
                          (window (client w))) (client w)) w
      else
        setClient
          (setWindow
             (postMessage (panel preview)
                (UpdateMessage (default "" (content readResult))
                               (Watcher.now (loop w)))
                (window (client w))) (client w)) w
  end.

(** The listener that [createPreview] gives to
    [panel.onDidChangeViewState]; [p] is [e.webviewPanel]. *)
Definition onDidChangeViewState (documentUri : string) (p : nat) (w : World)
  : Completion unit * World :=
  match panelViewColumn p (window (client w)) with
  | Throw e => (Throw e, w)
  | Normal None => (Normal tt, w)
  | Normal (Some c) =>
      match previews w !! documentUri with
      | Some preview =>
          let preview' :=
            {| panel := panel preview; document := document preview;
               disposables := disposables preview;
               fileWatcher := fileWatcher preview; lastViewColumn := c |} in
          (Normal tt,
           setLastColumnPositions
             (<[documentUri := c]> (lastColumnPositions w))
             (setPreviews (<[documentUri := preview']> (previews w)) w))
      | None => (Normal tt, w)
      end
  end.

(** The host runs the listeners attached to panel [p]. *)
Definition runPanelListener (p : nat) (l : PanelListener) (w : World) : World :=
  match l with
  | OnDidDispose documentUri => disposePreview documentUri w
  | OnDidChangeViewState documentUri =>
      snd (onDidChangeViewState documentUri p w)
  | OnDidReceiveMessage => w
  end.

Definition isDisposeListener (l : PanelListener) : bool :=
  match l with OnDidDispose _ => true | _ => false end.

Definition isViewStateListener (l : PanelListener) : bool :=
  match l with OnDidChangeViewState _ => true | _ => false end.

Definition firePanelEvent (kind : PanelListener -> bool) (p : nat) (w : World)
  : World :=
  foldl (fun w e =>
           if Nat.eqb (fst (snd e)) p && kind (snd (snd e))
           then runPanelListener p (snd (snd e)) w else w)
        w (panelListeners w).

(** The user closes the panel: [onDidDispose] fires. *)
Definition panelDisposed (p : nat) (w : World) : World :=
  firePanelEvent isDisposeListener p w.

(** The panel moved or changed visibility. *)
Definition panelViewStateChanged (p : nat) (w : World) : World :=
  firePanelEvent isViewStateListener p w.

(** What posting a message, setting the markup or showing a
    notification leaves unchanged: the answers of the host and, of
    every panel, its title, column and answers. *)
Definition core (wp : WebviewPanel)
  : string * ViewColumn * Completion (option ViewColumn) * option Thrown :=
  (title wp, shownIn wp, viewColumn wp, revealThrows wp).

Definition steady (a b : Window) : Prop :=
  nextPanel b = nextPanel a
  /\ createWebviewPanelThrows b = createWebviewPanelThrows a
  /\ newPanelViewColumn b = newPanelViewColumn a
  /\ newPanelRevealThrows b = newPanelRevealThrows a
  /\ activeTextEditor b = activeTextEditor a
  /\ previewColumn b = previewColumn a
  /\ panelRequests b = panelRequests a
  /\ forall q, core <$> (panels b !! q) = core <$> (panels a !! q).

(** Column Memory follows the sessions: for a document with a session,
    the remembered column is the session's last column. *)
Definition tracked (w : World) : Prop :=
  forall documentUri session,
    previews w !! documentUri = Some session ->
    lastColumnPositions w !! documentUri = Some (lastViewColumn session).

(** The column a session reported last: the column of its panel when the
    host gives one, else the column the session recorded last (at its
    creation or at the last change of view state). *)
Definition lastReported (session : PreviewPanel) (w : World) : ViewColumn :=
  match panelViewColumn (panel session) (window (client w)) with
  | Normal (Some c) => c
  | _ => lastViewColumn session
  end.

(** The worlds the coordinator can be in: it starts without sessions;
    previews are requested and refreshed, panels are closed, moved or
    hidden; anything else (edits, timers, the host changing its
    answers) leaves the coordinator's two maps alone. *)
Inductive reachable : World -> Prop :=
| reach_create h win bound : reachable (create h win bound)
| reach_show doc column w :
    reachable w -> reachable (snd (createOrShowPreview doc column w))
| reach_update doc w : reachable w -> reachable (updatePreview doc w)
| reach_disposed p w : reachable w -> reachable (panelDisposed p w)
| reach_viewState p w : reachable w -> reachable (panelViewStateChanged p w)
| reach_other w w' :
    reachable w ->
    previews w' = previews w ->
    lastColumnPositions w' = lastColumnPositions w ->
    reachable w'.

(** The events of the host that reach the watchers of the previews: a
    document is edited, time passes, a file is deleted. *)
Definition documentEdited (documentUri text : string) (t : Z) (w : World)
  : World :=
  setLoopClient (Watcher.editDocument documentUri text t (loop w, client w)) w.

Definition timePasses (t : Z) (w : World) : World :=
  setLoopClient (Watcher.advanceTo t (loop w, client w)) w.

Definition fileDeleted (deletedUri : string) (w : World) : World :=
  setLoopClient (Watcher.fireDidDelete deletedUri (loop w, client w)) w.

(** One thing happens to the coordinator. *)
Inductive step : World -> World -> Prop :=
| step_show doc column w : step w (snd (createOrShowPreview doc column w))
| step_update doc w : step w (updatePreview doc w)
| step_disposed p w : step w (panelDisposed p w)
| step_viewState p w : step w (panelViewStateChanged p w)
| step_edited documentUri text t w : step w (documentEdited documentUri text t w)
| step_time t w : step w (timePasses t w)
| step_deleted deletedUri w : step w (fileDeleted deletedUri w).

End Manager.

(** ** The script of the view (webviewContent.ts, the markup)

    The page holds the [elements-api] element and the error container;
    the script shows one or the other on the messages it receives. *)

Module Page.
Import Js Webview Manager.

Record View : Type := {
  elementUrl : string;       (* apiDescriptionUrl of the elements-api element *)
  elementDisplayed : bool;   (* its display is block, not none *)
  errorDisplayed : bool;     (* the display of #error-container is block *)
  shownError : string        (* the text of #error-text *)
}.


Definition showError (message : string) (v : View) : View :=
  {| elementUrl := elementUrl v; elementDisplayed := false;
     errorDisplayed := true; shownError := message |}.

(** [currentUrl.split('?')[0]] *)
Definition withoutQuery (currentUrl : string) : string :=
  takeWhile (fun c => negb (Ascii.eqb c "?")) currentUrl.

(** The listener of the [message] event; [now] is what [Date.now()]
    gives.  On [update] the element is replaced by a new one whose URL
    carries the time; the content of the message is not read. *)
Definition onMessage (m : Message) (now : Z) (v : View) : View :=
  match m with
  | UpdateMessage _ _ =>
      {| elementUrl := withoutQuery (elementUrl v) ++ "?t=" ++ showZ now;
         elementDisplayed := true; errorDisplayed := false;
         shownError := shownError v |}
  | ErrorMessage message => showError message v
  end.

(** Messages received one after the other, each with its time. *)
Definition receive (ms : list (Message * Z)) (v : View) : View :=
  foldl (fun v m => onMessage (fst m) (snd m) v) v ms.

End Page.

(** ** Commands (extension.ts) *)

Module Extension.
Import Js Detection Manager.

(** What the commands act on: the workspace service, the coordinator
    made by [activate], the document of the active editor when there is
    one, and the context key [openapi-preview.isOpenApiFile] when it was
    set. *)
Record State : Type := {
  workspace : Workspace;
  previewManager : World;
  activeDocument : option TextDocument;
  isOpenApiFile : option bool
}.

Definition setWorkspace (ws : Workspace) (st : State) : State :=
  {| workspace := ws; previewManager := previewManager st;
     activeDocument := activeDocument st; isOpenApiFile := isOpenApiFile st |}.

Definition setPreviewManager (w : World) (st : State) : State :=
  {| workspace := workspace st; previewManager := w;
     activeDocument := activeDocument st; isOpenApiFile := isOpenApiFile st |}.

(** [executeCommand('setContext', OPENAPI_CONTEXT_KEY, value)] *)
Definition setContext (value : bool) (st : State) : State :=
  {| workspace := workspace st; previewManager := previewManager st;
     activeDocument := activeDocument st; isOpenApiFile := Some value |}.

(** [vscode.window.showErrorMessage] and [showWarningMessage]. *)
Definition showMessage (n : Notification) (st : State) : State :=
  let w := previewManager st in
  setPreviewManager
    (setClient (setWindow (notify n (window (client w))) (client w)) w) st.

Definition updateOpenApiContext (st : State) : Completion unit * State :=
  match activeDocument st with
  | None => (Normal tt, setContext false st)
  | Some document =>
      match isOpenApiTextDocument document with
      | Normal isOpenApi => (Normal tt, setContext isOpenApi st)
      | Throw e => (Throw e, st)
      end
  end.

Definition notOpenApi : string :=
  "The selected file does not appear to be a valid OpenAPI specification file. "
  ++ "OpenAPI files must have .yaml, .yml, or .json extension and contain "
  ++ String doubleQuote ("openapi:" ++ String doubleQuote (" or "
  ++ String doubleQuote ("swagger:" ++ String doubleQuote " version declaration."))).

(** The handler of both commands; they differ in the column they ask
    for and in the words of the failure message. *)
Definition openCommand (failure : string) (column : option ViewColumn)
           (uri : option Uri) (st : State) : State :=
  let targetUri :=
    match uri with
    | Some u => Some u
    | None => option_map Detection.uri (activeDocument st)
    end in
  match targetUri with
  | None =>
      showMessage (ErrorNotification "No OpenAPI file is currently active") st
  | Some targetUri =>
      let (isOpenApi, ws1) := isOpenApiDocument targetUri (workspace st) in
      let st1 := setWorkspace ws1 st in
      if negb isOpenApi then showMessage (WarningNotification notOpenApi) st1
      else
        let st2 := setWorkspace (recordOpen targetUri ws1) st1 in
        match openTextDocument ws1 targetUri with
        | Throw e =>
            showMessage (ErrorNotification (failure ++ describe e)) st2
        | Normal document =>
            match createOrShowPreview document column (previewManager st2) with
            | (Normal _, w) => setPreviewManager w st2
            | (Throw e, w) =>
                showMessage (ErrorNotification (failure ++ describe e))
                            (setPreviewManager w st2)
            end
        end
  end.

(** [openapi-preview.openPreview] *)
Definition openPreview : option Uri -> State -> State :=
  openCommand "Failed to open OpenAPI preview: " None.

(** [openapi-preview.openPreviewToSide] *)
Definition openPreviewToSide : option Uri -> State -> State :=
  openCommand "Failed to open OpenAPI preview to side: " (Some Beside).

End Extension.

(** ** Sample data for the examples *)

Module Sample.
Import Js Detection Manager.

Definition file (name : string) : Uri :=
  {| fsPath := name; path := name; uriString := "file://" ++ name |}.

(** A window with one editor in column one, where panels can be
    created and revealed and report the column [reported]. *)
Definition window (reported : option ViewColumn) : Window :=
  {| panels := ∅; nextPanel := 0;
     createWebviewPanelThrows := None;
     newPanelViewColumn := Normal reported;
     newPanelRevealThrows := None;
     activeTextEditor := Some (Some One);
     previewColumn := None;
     notifications := []; panelRequests := [] |}.

Definition world (reported : option ViewColumn) : World :=
  Manager.create (Watcher.boot 0 ∅ None) (window reported) (Normal 4000%N).

(** A workspace in which every file opens and has the text [text]. *)
Definition workspace (text : string) : Workspace :=
  {| openTextDocument := fun u => Normal {| uri := u; getText := Normal text |};
     opened := [] |}.

Definition newline : string := String (ascii_of_nat 10) "".
Definition tab : string := String (ascii_of_nat 9) "".
Definition quoted (s : string) : string :=
  String doubleQuote s ++ String doubleQuote "".

(** The texts of the marker tests of the repository (fileDetection.test.ts). *)
Definition withMarker : list string :=
  [ "openapi: " ++ quoted "3.0.0" ++ newline ++ "info:" ++ newline
    ++ "  title: Test API";
    "openapi: '3.1.0'" ++ newline ++ "info:";
    "openapi: 3.0.0" ++ newline ++ "info:";
    "swagger: " ++ quoted "2.0" ++ newline ++ "info:";
    "swagger: '2.0'" ++ newline ++ "info:";
    "swagger: 2.0" ++ newline ++ "info:";
    "  openapi: 3.0.0" ++ newline ++ "info:";
    tab ++ "openapi: 3.0.0" ++ newline ++ "info:";
    "OpenAPI: 3.0.0" ++ newline ++ "info:";
    "# Comment" ++ newline ++ newline ++ "openapi: 3.0.0" ++ newline ++ "info:";
    "{" ++ newline ++ "  " ++ quoted "openapi" ++ ": " ++ quoted "3.0.0" ++ ","
    ++ newline ++ "  " ++ quoted "info" ++ ": {" ].

Definition withoutMarker : list string :=
  [ "title: Some Document" ++ newline ++ "description: Not an OpenAPI spec";
    "" ].

Definition petstore : TextDocument :=
  {| uri := file "/t/petstore.yaml"; getText := Normal "openapi: 3.0.0" |}.

Definition blank : TextDocument :=
  {| uri := file "/t/blank.yaml"; getText := Normal "" |}.

(** A callback that does nothing. *)
Definition quiet : Watcher.FileChangeCallback unit :=
  fun _ c => (Normal tt, c).

(** One watcher with two registrations and a pending call for the
    second document. *)
Definition twoRegistrations : Watcher.Host unit * unit :=
  let (this, h0) :=
    Watcher.newFileWatcher {| Watcher.optDebounceDelay := None |}
                           (Watcher.boot 0 ∅ None) in
  let hc1 := snd (Watcher.watch this (file "/a.yaml") quiet None None (h0, tt)) in
  let hc2 := snd (Watcher.watch this (file "/b.yaml") quiet None None hc1) in
  Watcher.editDocument "file:///b.yaml" "swagger: 2.0" 10 hc2.

(** A window whose host refuses to create panels. *)
Definition refusing : Window :=
  {| panels := ∅; nextPanel := 0;
     createWebviewPanelThrows := Some (ThrownError None "panel limit reached");
     newPanelViewColumn := Normal None;
     newPanelRevealThrows := None;
     activeTextEditor := Some (Some One);
     previewColumn := None;
     notifications := []; panelRequests := [] |}.

(** Two callbacks that record the texts they receive, each in its own
    half of the client. *)
Definition recordFirst
  : Watcher.FileChangeCallback (list string * list string) :=
  fun x c => (Normal tt, (fst c ++ [x], snd c)%list).

Definition recordSecond
  : Watcher.FileChangeCallback (list string * list string) :=
  fun x c => (Normal tt, (fst c, snd c ++ [x])%list).

(** A loop with two watchers, one per document, as the coordinator
    makes them: the first for [/a.yaml], the second for [/b.yaml]. *)
Definition twoWatchers
  : Watcher.Host (list string * list string) * (list string * list string) :=
  let (a, h1) :=
    Watcher.newFileWatcher {| Watcher.optDebounceDelay := None |}
                           (Watcher.boot 0 ∅ None) in
  let hc1 :=
    snd (Watcher.watch a (file "/a.yaml") recordFirst None None
           (h1, ([], []))) in
  let (b, h2) :=
    Watcher.newFileWatcher {| Watcher.optDebounceDelay := Some 500%Z |}
                           (fst hc1) in
  snd (Watcher.watch b (file "/b.yaml") recordSecond None None (h2, snd hc1)).

(** A callback that counts its calls, one that always throws, and an
    error callback that adds a hundred. *)
Definition counting : Watcher.FileChangeCallback nat :=
  fun _ n => (Normal tt, S n).

Definition failing : Watcher.FileChangeCallback nat :=
  fun _ n => (Throw (ThrownValue "boom"), n).

Definition noting : Watcher.FileErrorCallback nat :=
  fun _ n => (Normal tt, n + 100).

(** The commands' state right after activation, with the pet store in
    the active editor. *)
Definition state : Extension.State :=
  {| Extension.workspace := workspace "openapi: 3.0.0";
     Extension.previewManager := world None;
     Extension.activeDocument := Some petstore;
     Extension.isOpenApiFile := None |}.

End Sample.

(** * Properties *)

(** ** Strings *)

Section StringFacts.
Import Js.

Lemma app_cons c (s t : string) : String c s ++ t = String c (s ++ t).
Proof. reflexivity. Qed.

Lemma app_nil_l (t : string) : "" ++ t = t.
Proof. reflexivity. Qed.

Lemma string_app_nil (s : string) : s ++ "" = s.
Proof.
  induction s as [|c s IH]; [reflexivity|]. now rewrite app_cons, IH.
Qed.

Lemma string_app_assoc (a b c : string) : (a ++ b) ++ c = a ++ (b ++ c).
Proof.
  induction a as [|x a IH]; [reflexivity|]. now rewrite !app_cons, IH.
Qed.

Lemma string_app_length (a b : string) :
  String.length (a ++ b) = String.length a + String.length b.
Proof.
  induction a as [|x a IH]; [reflexivity|]. rewrite app_cons. simpl.
  now rewrite IH.
Qed.

Lemma substring_whole (s : string) : String.substring 0 (String.length s) s = s.
Proof. induction s as [|c s IH]; simpl; [reflexivity | now rewrite IH]. Qed.

Lemma substring_cut (s : string) :
  ∀ k : nat, (k ≤ String.length s)%nat →
       s = String.substring 0 k s
           ++ String.substring k (String.length s - k) s.
Proof.
  induction s as [|c s IH]; intros k Hk; simpl in Hk.
  - assert (k = 0) by lia. subst. reflexivity.
  - destruct k as [|k].
    + simpl. now rewrite substring_whole.
    + simpl. rewrite app_cons. f_equal. apply IH. lia.
Qed.

Lemma substring_after (pre p : string) :
  String.substring (String.length pre) (String.length p) (pre ++ p) = p.
Proof.
  induction pre as [|c pre IH].
  - apply substring_whole.
  - rewrite app_cons. simpl. exact IH.
Qed.

(** [endsWith] is "has this suffix". *)
Lemma endsWith_spec (s p : string) :
  endsWith s p = true ↔ ∃ pre, s = pre ++ p.
Proof.
  unfold endsWith. rewrite andb_true_iff, Nat.leb_le, String.eqb_eq. split.
  - intros [Hle Hsub].
    exists (String.substring 0 (String.length s - String.length p) s).
    pose proof (substring_cut s (String.length s - String.length p)) as H.
    replace (String.length s - (String.length s - String.length p))
      with (String.length p) in H by lia.
    rewrite Hsub in H. apply H. lia.
  - intros [pre ->]. rewrite string_app_length. split; [lia|].
    replace (String.length pre + String.length p - String.length p)
      with (String.length pre) by lia.
    apply substring_after.
Qed.

Lemma toLowerCase_app (a b : string) :
  toLowerCase (a ++ b) = toLowerCase a ++ toLowerCase b.
Proof.
  induction a as [|c a IH]; [reflexivity|].
  rewrite app_cons. simpl. now rewrite IH, app_cons.
Qed.

Lemma toLowerCase_split (a b : string) :
  ∀ s, toLowerCase s = a ++ b →
       ∃ x y, s = x ++ y ∧ toLowerCase x = a ∧ toLowerCase y = b.
Proof.
  induction a as [|c a IH]; intros s H.
  - exists "", s. auto.
  - destruct s as [|d s]; [discriminate|].
    rewrite app_cons in H. simpl in H. injection H as Hc Hs.
    destruct (IH _ Hs) as (x & y & -> & Hx & Hy).
    exists (String d x), y. simpl. rewrite Hc, Hx. auto.
Qed.

Lemma startsWith_app (base rest : string) : startsWith (base ++ rest) base = true.
Proof.
  induction base as [|c base IH]; [reflexivity|].
  rewrite app_cons. simpl. now rewrite Ascii.eqb_refl, IH.
Qed.

Lemma dropString_app (base rest : string) :
  dropString (String.length base) (base ++ rest) = rest.
Proof.
  induction base as [|c base IH]; [reflexivity|]. rewrite app_cons. exact IH.
Qed.

Lemma allChars_filterString p s : allChars p (filterString p s) = true.
Proof.
  induction s as [|c s IH]; simpl; [reflexivity|].
  destruct (p c) eqn:E; simpl; [now rewrite E | exact IH].
Qed.

Lemma allChars_substring p s : ∀ n,
  allChars p s = true → allChars p (substring0 n s) = true.
Proof.
  unfold substring0.
  induction s as [|c s IH]; intros [|n] H; simpl in *; try reflexivity.
  apply andb_true_iff in H as [-> H]. simpl. now apply IH.
Qed.

Lemma takeWhile_all p s : allChars p s = true → takeWhile p s = s.
Proof.
  induction s as [|c s IH]; simpl; [reflexivity|].
  intros H. apply andb_true_iff in H as [-> H]. now rewrite IH.
Qed.

End StringFacts.

(** ** Regular expressions *)

Section RegexFacts.
Import Regex.

Lemma matches_Never s : matches Never s → False.
Proof. inversion 1. Qed.

Lemma matches_Eps s : matches Eps s ↔ s = "".
Proof. split; [now inversion 1 | intros ->; constructor]. Qed.

Lemma matches_Class p s :
  matches (Class p) s ↔ ∃ c, s = String c "" ∧ p c = true.
Proof.
  split.
  - inversion 1; subst. eauto.
  - intros (c & -> & H). now constructor.
Qed.

Lemma matches_Seq a b s :
  matches (Seq a b) s ↔ ∃ s1 s2, s = s1 ++ s2 ∧ matches a s1 ∧ matches b s2.
Proof.
  split.
  - inversion 1; subst. eauto.
  - intros (s1 & s2 & -> & H1 & H2). now constructor.
Qed.

Lemma matches_Alt a b s : matches (Alt a b) s ↔ matches a s ∨ matches b s.
Proof.
  split.
  - inversion 1; subst; auto.
  - intros [H|H]; [now apply m_alt_l | now apply m_alt_r].
Qed.

Lemma matches_Star a s :
  matches (Star a) s ↔
  s = "" ∨ ∃ c s1 s2, s = String c (s1 ++ s2)
                      ∧ matches a (String c s1) ∧ matches (Star a) s2.
Proof.
  split.
  - inversion 1; subst; [now left|]. right. eauto 6.
  - intros [->|(c & s1 & s2 & -> & H1 & H2)]; [constructor|].
    change (String c (s1 ++ s2)) with (String c s1 ++ s2). now constructor.
Qed.

Lemma nullable_spec r : nullable r = true ↔ matches r "".
Proof.
  induction r as [| |p|a IHa b IHb|a IHa b IHb|a IHa]; cbn.
  - split; [discriminate | intros H; destruct (matches_Never _ H)].
  - split; [constructor | reflexivity].
  - split; [discriminate|]. intros H. apply matches_Class in H as (c & H & _).
    discriminate.
  - rewrite andb_true_iff, IHa, IHb, matches_Seq. split.
    + intros [Ha Hb]. exists "", "". auto.
    + intros (s1 & s2 & H & Ha & Hb).
      destruct s1; [|discriminate]. destruct s2; [|discriminate]. auto.
  - now rewrite orb_true_iff, IHa, IHb, matches_Alt.
  - split; [constructor | reflexivity].
Qed.

Lemma mkSeq_spec a b s : matches (mkSeq a b) s ↔ matches (Seq a b) s.
Proof.
  rewrite matches_Seq. destruct a; cbn; try (now rewrite matches_Seq).
  - split; [intros H; destruct (matches_Never _ H)|].
    intros (s1 & s2 & _ & H & _). destruct (matches_Never _ H).
  - split.
    + intros H. exists "", s. repeat split; [constructor | exact H].
    + intros (s1 & s2 & -> & H1 & H2). apply matches_Eps in H1 as ->. exact H2.
Qed.

Lemma mkAlt_spec a b s : matches (mkAlt a b) s ↔ matches (Alt a b) s.
Proof.
  rewrite matches_Alt.
  assert (Hn : ∀ x, matches Never x ↔ False)
    by (intros x; split; [apply matches_Never | contradiction]).
  destruct a, b; cbn; rewrite ?matches_Alt, ?Hn; tauto.
Qed.

Lemma deriv_spec c r : ∀ s, matches (deriv c r) s ↔ matches r (String c s).
Proof.
  induction r as [| |p|a IHa b IHb|a IHa b IHb|a IHa]; intros s; cbn [deriv].
  - split; intros H; destruct (matches_Never _ H).
  - split; intros H; [destruct (matches_Never _ H)|].
    apply matches_Eps in H. discriminate.
  - rewrite matches_Class. destruct (p c) eqn:Hp.
    + rewrite matches_Eps. split.
      * intros ->. eauto.
      * now intros (c' & [= _ ->] & _).
    + split; [intros H; destruct (matches_Never _ H)|].
      intros (c' & [= <- _] & H). congruence.
  - assert (Hseq : matches (Seq a b) (String c s) ↔
                   (nullable a = true ∧ matches b (String c s))
                   ∨ matches (Seq (deriv c a) b) s).
    { rewrite !matches_Seq. split.
      - intros (s1 & s2 & H & Ha & Hb). destruct s1 as [|c1 s1].
        + left. change (String c s = s2) in H. subst s2.
          split; [now apply nullable_spec | exact Hb].
        + right. injection H as <- ->. exists s1, s2. rewrite IHa. auto.
      - intros [[Hn Hb]|(s1 & s2 & -> & Ha & Hb)].
        + exists "", (String c s). repeat split; [now apply nullable_spec | exact Hb].
        + exists (String c s1), s2. rewrite <- IHa. auto. }
    rewrite Hseq. destruct (nullable a).
    + rewrite mkAlt_spec, matches_Alt, mkSeq_spec, IHb. tauto.
    + rewrite mkSeq_spec. split; [auto|]. intros [[? _]|H]; [discriminate | exact H].
  - now rewrite mkAlt_spec, !matches_Alt, IHa, IHb.
  - rewrite mkSeq_spec, matches_Seq, matches_Star. split.
    + intros (s1 & s2 & -> & Ha & Hs). right. exists c, s1, s2.
      rewrite <- IHa. auto.
    + intros [H|(c' & s1 & s2 & [= <- ->] & Ha & Hs)]; [discriminate|].
      exists s1, s2. rewrite IHa. auto.
Qed.

(** [matchesPrefix] decides whether a prefix of the text belongs to the
    language. *)
Lemma matchesPrefix_spec : ∀ s r,
  matchesPrefix r s = true ↔ ∃ p t, s = p ++ t ∧ matches r p.
Proof.
  induction s as [|c s IH]; intros r; cbn [matchesPrefix].
  - rewrite orb_false_r, nullable_spec. split.
    + intros H. exists "", "". auto.
    + intros (p & t & H & Hm). destruct p; [exact Hm | discriminate].
  - rewrite orb_true_iff, nullable_spec, IH. split.
    + intros [H|(p & t & -> & Hm)].
      * exists "", (String c s). auto.
      * exists (String c p), t. split; [reflexivity|]. now apply deriv_spec.
    + intros (p & t & H & Hm). destruct p as [|c' p].
      * now left.
      * right. injection H as <- ->. exists p, t. split; [reflexivity|].
        now apply deriv_spec.
Qed.

(** [test] decides whether some substring of the text belongs to the
    language. *)
Lemma test_spec : ∀ s r,
  test r s = true ↔ ∃ a p b, s = a ++ (p ++ b) ∧ matches r p.
Proof.
  induction s as [|c s IH]; intros r; cbn [test].
  - rewrite orb_false_r, matchesPrefix_spec. split.
    + intros (p & t & H & Hm). exists "", p, t. auto.
    + intros (a & p & b & H & Hm). destruct a; [|discriminate].
      exists p, b. split; [exact H | exact Hm].
  - rewrite orb_true_iff, matchesPrefix_spec, IH. split.
    + intros [(p & t & H & Hm)|(a & p & b & -> & Hm)].
      * exists "", p, t. auto.
      * exists (String c a), p, b. auto.
    + intros (a & p & b & H & Hm). destruct a as [|c' a].
      * left. exists p, b. split; [exact H | exact Hm].
      * right. injection H as <- ->. exists a, p, b. auto.
Qed.

End RegexFacts.

(** ** File classifier *)

Section DetectionFacts.
Import Js Detection.

Lemma hasOpenApiExtension_spec (u : Uri) :
  hasOpenApiExtension u = true ↔ endsInRecognizedSuffix (fsPath u).
Proof.
  unfold hasOpenApiExtension, endsInRecognizedSuffix.
  rewrite existsb_exists. split.
  - intros (ext & Hin & Hends).
    apply endsWith_spec in Hends as [pre Hpre].
    destruct (toLowerCase_split _ _ _ Hpre) as (x & y & Hs & _ & Hy).
    exists ext, x, y. auto.
  - intros (ext & pre & suf & Hin & Hp & Hlow).
    exists ext. split; [exact Hin|].
    apply endsWith_spec. exists (toLowerCase pre).
    now rewrite Hp, toLowerCase_app, Hlow.
Qed.

Lemma hasOpenApiMarker_spec (content : string) :
  hasOpenApiMarker content = true ↔ containsVersionMarker content.
Proof. apply test_spec. Qed.

(** The marker tests of the repository. *)
Example marker_tests :
  forallb hasOpenApiMarker Sample.withMarker = true
  ∧ existsb hasOpenApiMarker Sample.withoutMarker = false.
Proof. split; vm_compute; reflexivity. Qed.

(** The extension tests of the repository. *)
Example extension_tests :
  forallb (fun name => hasOpenApiExtension (Sample.file name))
          ["/path/to/api.yaml"; "/path/to/api.yml"; "/path/to/api.json";
           "/path/to/API.YAML"] = true
  ∧ existsb (fun name => hasOpenApiExtension (Sample.file name))
            ["/path/to/file.txt"; "/path/to/README.md"] = false.
Proof. split; vm_compute; reflexivity. Qed.

(** Concrete scenario 1 of the specification: [a.yaml] with a marker is
    an API document, the same content as [a.txt] is not, and is not even
    opened. *)
Example scenario_yaml_then_txt :
  let ws := Sample.workspace "openapi: 3.0.0" in
  fst (isOpenApiDocument (Sample.file "/a.yaml") ws) = true
  ∧ isOpenApiDocument (Sample.file "/a.txt") ws = (false, ws).
Proof. split; vm_compute; reflexivity. Qed.

(** Concrete scenario 2: the extension matches, the marker does not. *)
Example scenario_json_without_marker :
  fst (isOpenApiDocument (Sample.file "/b.json")
         (Sample.workspace "title: not an api spec")) = false.
Proof. vm_compute. reflexivity. Qed.

End DetectionFacts.

(** C4. [isOpenApiDocument] answers true exactly when the path ends,
    case-insensitively, in [.yaml], [.yml] or [.json] and the content of
    the file matches the version-marker pattern.  A file that fails the
    extension test is rejected with the workspace untouched (nothing is
    opened), and a file that cannot be opened or read gives false; the
    function has no way to raise. *)
Theorem isOpenApiDocument_conjunction
        (u : Detection.Uri) (ws : Detection.Workspace) :
  (fst (Detection.isOpenApiDocument u ws) = true ↔
     Detection.endsInRecognizedSuffix (Detection.fsPath u)
     ∧ ∃ d content,
         Detection.openTextDocument ws u = Js.Normal d
         ∧ Detection.getText d = Js.Normal content
         ∧ Detection.containsVersionMarker content)
  ∧ (¬ Detection.endsInRecognizedSuffix (Detection.fsPath u) →
     Detection.isOpenApiDocument u ws = (false, ws))
  ∧ (∀ e, Detection.openTextDocument ws u = Js.Throw e →
          fst (Detection.isOpenApiDocument u ws) = false)
  ∧ (∀ d e, Detection.openTextDocument ws u = Js.Normal d →
            Detection.getText d = Js.Throw e →
            fst (Detection.isOpenApiDocument u ws) = false).
Proof.
  unfold Detection.isOpenApiDocument.
  pose proof (hasOpenApiExtension_spec u) as Hext.
  destruct (Detection.hasOpenApiExtension u) eqn:E; simpl.
  - assert (Hsuf : Detection.endsInRecognizedSuffix (Detection.fsPath u))
      by (now apply Hext).
    repeat split.
    + exact Hsuf.
    + destruct (Detection.openTextDocument ws u) as [d|e]; [|discriminate].
      destruct (Detection.getText d) as [content|e] eqn:G; [|discriminate].
      exists d, content. split; [reflexivity|]. split; [exact G|].
      now apply hasOpenApiMarker_spec.
    + intros (_ & d & content & -> & Hg & Hm). rewrite Hg.
      now apply hasOpenApiMarker_spec.
    + intros Hn. contradiction.
    + intros e ->. reflexivity.
    + intros d e -> ->. reflexivity.
  - assert (Hsuf : ¬ Detection.endsInRecognizedSuffix (Detection.fsPath u)).
    { intros H. apply Hext in H. discriminate. }
    repeat split; try discriminate; try reflexivity.
    intros [H _]. contradiction.
Qed.

(** ** Content reader *)

(** C6. A file whose raw byte length exceeds 10 MiB is answered with an
    unsuccessful result of kind [TooLarge].  The statement holds for
    every decoder, also one that would fail: the bytes are measured and
    the decoder is not consulted. *)
Theorem readFile_TooLarge
        (fsReadFile : Detection.Uri → Js.Completion (list Byte.byte))
        (utf8ToString : list Byte.byte → Js.Completion string)
        (u : Detection.Uri) (fileData : list Byte.byte) :
  fsReadFile u = Js.Normal fileData →
  (10 * 1024 * 1024 < Reader.byteLength fileData)%Z →
  let r := Reader.readFile fsReadFile utf8ToString u in
  Reader.success r = false
  ∧ Reader.content r = None
  ∧ ∃ e, Reader.error r = Some e
         ∧ Reader.type e = Reader.TooLarge ∧ Reader.errorUri e = u.
Proof.
  intros Hread Hsize. unfold Reader.readFile. rewrite Hread.
  assert (H : (Reader.MAX_FILE_SIZE <? Reader.byteLength fileData)%Z = true).
  { apply Z.ltb_lt. unfold Reader.MAX_FILE_SIZE. lia. }
  rewrite H. simpl. repeat split. eexists. repeat split.
Qed.

(** Concrete scenario 4: a file of 11 MiB. *)
Lemma readFile_TooLarge_11MiB :
  let u := {| Detection.fsPath := "/big.yaml"; Detection.path := "/big.yaml";
              Detection.uriString := "file:///big.yaml" |} in
  let fileData := replicate (Z.to_nat (11 * 1024 * 1024)) Byte.x00 in
  let r := Reader.readFile (fun _ => Js.Normal fileData)
                           (fun _ => Js.Throw (Js.ThrownValue "unused")) u in
  Reader.success r = false
  ∧ Reader.content r = None
  ∧ ∃ e, Reader.error r = Some e
         ∧ Reader.type e = Reader.TooLarge ∧ Reader.errorUri e = u.
Proof.
  intros u fileData.
  apply (readFile_TooLarge (fun _ => Js.Normal fileData)
                           (fun _ => Js.Throw (Js.ThrownValue "unused"))
                           u fileData).
  - reflexivity.
  - unfold Reader.byteLength, fileData. rewrite length_replicate. lia.
Defined.

(** Concrete scenario 3: a missing file gives [NotFound] and a message
    with the path. *)
Example readFile_missing :
  let u := {| Detection.fsPath := "/gone.yaml"; Detection.path := "/gone.yaml";
              Detection.uriString := "file:///gone.yaml" |} in
  let r := Reader.readFile
             (fun _ => Js.Throw (Js.ThrownError (Some "FileNotFound") "no such file"))
             (fun _ => Js.Normal "") u in
  option_map Reader.type (Reader.error r) = Some Reader.NotFound
  ∧ option_map Reader.getUserMessage (Reader.error r)
    = Some "File not found: /gone.yaml".
Proof. split; reflexivity. Qed.

(** ** Local content server *)

Section ServerFacts.
Import Js Server.

Lemma docId_alnum (documentUri : string) :
  allChars isAlnum (docId documentUri) = true.
Proof.
  unfold docId. apply allChars_substring, allChars_filterString.
Qed.

Lemma allChars_weaken (p q : ascii → bool) (s : string) :
  (∀ c, p c = true → q c = true) → allChars p s = true → allChars q s = true.
Proof.
  intros Hpq. induction s as [|c s IH]; simpl; [reflexivity|].
  intros H. apply andb_true_iff in H as [Hc Hs].
  now rewrite (Hpq _ Hc), IH.
Qed.

Lemma alnum_notSlash (c : ascii) : isAlnum c = true → notSlash c = true.
Proof.
  unfold notSlash. destruct (Ascii.eqb_spec c "/"%char) as [->|]; [|reflexivity].
  vm_compute. discriminate.
Qed.

(** The request for [/doc/<id>] is resolved to the identifier. *)
Lemma matchDoc_docId (documentUri : string) :
  docId documentUri ≠ "" →
  matchDoc (Some ("/doc/" ++ docId documentUri)) = Some (docId documentUri).
Proof.
  intros Hne. unfold matchDoc.
  rewrite (startsWith_app "/doc/" (docId documentUri)).
  change 5 with (String.length "/doc/"). rewrite dropString_app.
  rewrite takeWhile_all
    by (eapply allChars_weaken; [apply alnum_notSlash | apply docId_alnum]).
  destruct (docId documentUri); [contradiction | reflexivity].
Qed.

(** What a GET of a document's URL returns: the stored text when it is
    not empty. *)
Lemma fetch_document (s : HttpServer) (documentUri text : string) :
  server s = true →
  docId documentUri ≠ "" →
  contentMap s !! docId documentUri = Some text →
  text ≠ "" →
  ∃ r, fetch s (getServerUrl s ++ "/doc/" ++ docId documentUri) = Some r
       ∧ status r = 200%N ∧ body r = text.
Proof.
  intros Hs Hid Hget Htext. unfold fetch.
  rewrite Hs, startsWith_app, dropString_app. simpl.
  unfold handle. cbn [method url].
  change (String.eqb "GET" "OPTIONS") with false.
  change (negb (String.eqb "GET" "GET")) with false. cbv iota.
  rewrite matchDoc_docId by assumption. rewrite Hget.
  destruct text as [|c text]; [contradiction|]. cbn [truthyString negb].
  eexists. split; [reflexivity|]. split; reflexivity.
Qed.



(** Text that is empty is never served: whatever the document, a GET of
    the URL that [registerContent] returned for it is answered 404. *)
Lemma empty_text_not_served (s : HttpServer) (documentUri : string) :
  server s = true →
  let (url, s') := registerContent documentUri "" s in
  option_map status (fetch s' url) = Some 404%N.
Proof.
  intros Hs. unfold registerContent, fetch.
  cbn [server setContentMap]. rewrite Hs.
  change (getServerUrl (setContentMap _ s)) with (getServerUrl s).
  rewrite startsWith_app, dropString_app. cbn [andb].
  unfold handle. cbn [method url].
  change (String.eqb "GET" "OPTIONS") with false.
  change (negb (String.eqb "GET" "GET")) with false. cbv iota.
  destruct (docId documentUri) as [|c d] eqn:Hid.
  - reflexivity.
  - change (String.eqb ("/doc/" ++ String c d) "") with false. cbv iota.
    rewrite <- Hid, matchDoc_docId by (rewrite Hid; discriminate).
    cbn [contentMap setContentMap]. now rewrite lookup_insert_eq.
Qed.

Lemma utf8Encode_app (a b : string) :
  utf8Encode (a ++ b) = (utf8Encode a ++ utf8Encode b)%list.
Proof.
  induction a as [|c a IH]; [reflexivity|].
  rewrite app_cons. cbn [utf8Encode]. now rewrite IH, app_assoc.
Qed.

Lemma filterString_app p (a b : string) :
  filterString p (a ++ b) = filterString p a ++ filterString p b.
Proof.
  induction a as [|c a IH]; [reflexivity|].
  rewrite app_cons. cbn [filterString]. rewrite IH. now destruct (p c).
Qed.

Lemma substring0_app (a b : string) : substring0 (String.length a) (a ++ b) = a.
Proof.
  unfold substring0. induction a as [|c a IH].
  - cbn [String.length]. now destruct ("" ++ b).
  - rewrite app_cons. cbn [String.length String.substring]. now rewrite IH.
Qed.

(** Every document whose identity starts with these 24 characters gets
    the same identifier. *)
Lemma docId_of_prefix (rest : string) :
  docId ("file:///home/user/projec" ++ rest) = "ZmlsZTovLy9ob21lL3VzZXIvcHJvamVj".
Proof.
  unfold docId. rewrite utf8Encode_app.
  change (base64 (utf8Encode "file:///home/user/projec" ++ utf8Encode rest))
    with ("ZmlsZTovLy9ob21lL3VzZXIvcHJvamVj" ++ base64 (utf8Encode rest)).
  rewrite filterString_app.
  change (filterString isAlnum "ZmlsZTovLy9ob21lL3VzZXIvcHJvamVj")
    with "ZmlsZTovLy9ob21lL3VzZXIvcHJvamVj".
  apply (substring0_app "ZmlsZTovLy9ob21lL3VzZXIvcHJvamVj").
Qed.

(** Concrete scenario 5 of the specification. *)
Example scenario_doc1 :
  let s0 := snd (start (Normal 4000%N) create) in
  let (url, s1) := registerContent "doc1" "old" s0 in
  option_map body (fetch (updateContent "doc1" "new" s1) url) = Some "new".
Proof. vm_compute. reflexivity. Qed.

End ServerFacts.

(** C3. The round trip breaks in two places.  Text that is empty is
    stored but served as 404 "Document Not Found", after
    [registerContent] and after [updateContent] alike, for every
    document; and the URL with a cache-busting query appended is
    answered 404 as well, because the query is taken as part of the
    identifier. *)
Theorem fetch_roundtrip_fails :
  let s0 := snd (Server.start (Js.Normal 4000%N) Server.create) in
  let id := "file:///t/a.yaml" in
  (let (url, s1) := Server.registerContent id "" s0 in
   Server.contentMap s1 !! Server.docId id = Some ""
   ∧ option_map Server.status (Server.fetch s1 url) = Some 404%N
   ∧ option_map Server.body (Server.fetch s1 url) = Some "Document Not Found")
  ∧ (let (url, s1) := Server.registerContent id "openapi: 3.0.0" s0 in
     let s2 := Server.updateContent id "" s1 in
     option_map Server.status (Server.fetch s1 url) = Some 200%N
     ∧ option_map Server.status (Server.fetch s2 url) = Some 404%N)
  ∧ (let (url, s1) := Server.registerContent id "openapi: 3.0.0" s0 in
     option_map Server.status (Server.fetch s1 (url ++ "?t=1700000000000"))
     = Some 404%N)
  ∧ (∀ s documentUri,
       Server.server s = true →
       let (url, s1) := Server.registerContent documentUri "" s in
       option_map Server.status (Server.fetch s1 url) = Some 404%N).
Proof.
  split; [vm_compute; repeat split|].
  split; [vm_compute; repeat split|].
  split; [vm_compute; reflexivity|].
  intros s documentUri Hs. now apply empty_text_not_served.
Qed.

(** C7 fails as stated: on a server without any registration,
    [updateContent] creates the entry. *)
Lemma updateContent_unregistered_creates :
  Server.contentMap Server.create !! Server.docId "doc1" = None
  ∧ Server.contentMap (Server.updateContent "doc1" "new" Server.create)
      !! Server.docId "doc1" = Some "new"
  ∧ Server.updateContent "doc1" "new" Server.create ≠ Server.create.
Proof.
  split; [reflexivity|]. split; [vm_compute; reflexivity|].
  intros H.
  assert (E : Server.contentMap (Server.updateContent "doc1" "new" Server.create)
                !! Server.docId "doc1" = None) by (rewrite H; reflexivity).
  vm_compute in E. discriminate.
Qed.

(** C7, amended. [updateContent] stores the text under the identifier
    derived from the document in every case: an existing entry is
    overwritten, a missing one is created, exactly as [registerContent]
    does; other entries, the port and the listening state are kept. *)
Theorem updateContent_upsert (s : Server.HttpServer) (documentUri text : string) :
  let s' := Server.updateContent documentUri text s in
  (∀ k, Server.contentMap s' !! k
        = if decide (k = Server.docId documentUri) then Some text
          else Server.contentMap s !! k)
  ∧ s' = snd (Server.registerContent documentUri text s)
  ∧ Server.port s' = Server.port s ∧ Server.server s' = Server.server s.
Proof.
  simpl. repeat split. intros k.
  destruct (decide (k = Server.docId documentUri)) as [->|Hne].
  - apply lookup_insert_eq.
  - now apply lookup_insert_ne.
Qed.

(** C9. The identifier is a function of the document identity, so it is
    the same on every call; but it keeps only the first 32 characters of
    the base64 text, that is the first 24 bytes of the identity.  Two
    files of one folder get one identifier, and registering the second
    replaces what is served for the first. *)
Theorem docId_collision :
  let a := "file:///home/user/project/api/a.yaml" in
  let b := "file:///home/user/project/api/b.yaml" in
  a ≠ b
  ∧ Server.docId a = Server.docId b
  ∧ (let s0 := snd (Server.start (Js.Normal 4000%N) Server.create) in
     let (urlA, s1) := Server.registerContent a "openapi: 3.0.0" s0 in
     let (urlB, s2) := Server.registerContent b "swagger: 2.0" s1 in
     urlA = urlB
     ∧ option_map Server.body (Server.fetch s2 urlA) = Some "swagger: 2.0")
  ∧ (∀ rest rest',
       Server.docId ("file:///home/user/projec" ++ rest)
       = Server.docId ("file:///home/user/projec" ++ rest')).
Proof.
  split; [discriminate|]. split; [vm_compute; reflexivity|].
  split; [vm_compute; split; reflexivity|].
  intros rest rest'. now rewrite !docId_of_prefix.
Qed.

(** ** Change watcher *)

Section DebounceFacts.
Import Js Detection Watcher.

Lemma delivered_app (l r : list Observation) :
  delivered (l ++ r) = (delivered l ++ delivered r)%list.
Proof.
  induction l as [|o l IH]; [reflexivity|].
  destruct o; cbn; now rewrite IH.
Qed.

Lemma last_cons_default {A} (l : list A) :
  ∀ a d : A, List.last (a :: l) d = List.last l a.
Proof.
  induction l as [|b l IH]; intros a d; [reflexivity|].
  change (List.last (a :: b :: l) d) with (List.last (b :: l) d).
  now rewrite (IH b d), (IH b a).
Qed.

End DebounceFacts.

Section LoopFacts.
Import Js Detection Watcher.
Context {Client : Type}.

Lemma setTimeoutDelay_honoured (d : Z) : timerDelay d → setTimeoutDelay d = d.
Proof.
  unfold timerDelay, setTimeoutDelay, TIMEOUT_MAX. intros [H1 H2].
  destruct (Z.leb_spec 1 d); [|lia].
  destruct (Z.leb_spec d 2147483647); [reflexivity | lia].
Qed.

Lemma setTimeoutDelay_positive (d : Z) : (1 <= setTimeoutDelay d)%Z.
Proof.
  unfold setTimeoutDelay.
  destruct (Z.leb_spec 1 d); cbn; [|lia].
  destruct (Z.leb_spec d TIMEOUT_MAX); lia.
Qed.

(** The timer that is due first is one of the pending timers, and none
    is due before it. *)
Lemma earliest_elem (l : list (nat * Timer Client)) e :
  earliest l = Some e → e ∈ l.
Proof.
  revert e. induction l as [|t r IH]; intros e; cbn; [discriminate|].
  destruct (earliest r) as [t'|].
  - destruct (deadline (snd t') <? deadline (snd t))%Z; intros [= <-].
    + right. now apply IH.
    + left.
  - intros [= <-]. left.
Qed.

Lemma earliest_least (l : list (nat * Timer Client)) e :
  earliest l = Some e → ∀ e', e' ∈ l → (deadline (snd e) <= deadline (snd e'))%Z.
Proof.
  revert e. induction l as [|t r IH]; intros e; cbn; [discriminate|].
  destruct (earliest r) as [t'|] eqn:E.
  - destruct (Z.ltb_spec (deadline (snd t')) (deadline (snd t))); intros [= <-] e' He'.
    + apply elem_of_cons in He' as [->|He']; [lia | now apply (IH t')].
    + apply elem_of_cons in He' as [->|He']; [lia|].
      pose proof (IH t' eq_refl e' He'). lia.
  - intros [= <-] e' He'.
    apply elem_of_cons in He' as [->|He']; [lia|].
    destruct r; [inversion He' | cbn in E; destruct (earliest r); [destruct (_ <? _)%Z|]; discriminate].
Qed.

Lemma earliest_none (l : list (nat * Timer Client)) : earliest l = None → l = [].
Proof.
  destruct l as [|t r]; [reflexivity|]. cbn.
  destruct (earliest r); [destruct (_ <? _)%Z|]; discriminate.
Qed.

Lemma elem_of_withoutId {A} (id : nat) (l : list (nat * A)) e :
  e ∈ withoutId id l ↔ e ∈ l ∧ fst e ≠ id.
Proof. unfold withoutId. rewrite list_elem_of_filter. tauto. Qed.

Lemma withoutId_shorter {A} (id : nat) (l : list (nat * A)) e :
  e ∈ l → fst e = id → length (withoutId id l) < length l.
Proof.
  intros He Hid. unfold withoutId. induction l as [|a l IH]; [inversion He|].
  rewrite filter_cons. apply elem_of_cons in He as [<-|He].
  - destruct (decide (fst e ≠ id)) as [?|_]; [contradiction|].
    cbn. pose proof (length_filter (fun e => fst e ≠ id) l). lia.
  - destruct (decide (fst a ≠ id)); cbn; specialize (IH He); lia.
Qed.

(** What a debounced call does to the client. *)
Lemma runDebounced_client (fn : DebouncedCall Client) (h : Host Client) (c : Client) :
  snd (snd (runDebounced fn (h, c)))
  = afterChange (dcOnChanged fn) (dcOnError fn)
                (default "" (documents h !! dcDocument fn)) c.
Proof.
  unfold runDebounced, afterChange.
  destruct (dcOnChanged fn _ c) as [[[]|e] c1]; [reflexivity|].
  destruct (dcOnError fn) as [f|]; [|reflexivity].
  now destruct (f (toError e) c1).
Qed.

End LoopFacts.

Section SharedLoop.
Import Js Detection Watcher.
Context {Client V : Type}.
Variable view : Client → V.
Variable this : nat.
Variable document : string.
Variable delay : Z.
Variable onChanged : FileChangeCallback Client.
Variable onError : option (FileErrorCallback Client).

Local Abbreviation ours := (listenerOf this document onChanged onError).
Local Abbreviation ourTimer due :=
  ({| deadline := due; timerThis := this;
      timerFn := callOf document onChanged onError |}).

Local Abbreviation shared :=
  (shared view this document delay onChanged onError).
Local Abbreviation sharedLoop :=
  (sharedLoop view this document delay onChanged onError).

(** The fields of the loop after [debounceChange]. *)
Lemma debounceChange_fields (w : nat) (fn : DebouncedCall Client)
      (h : Host Client) (fw : FileWatcher) :
  watchers h !! w = Some fw →
  let h' := debounceChange w fn h in
  now h' = now h ∧ documents h' = documents h
  ∧ changeListeners h' = changeListeners h
  ∧ nextId h' = S (nextId h)
  ∧ timers h'
    = (match debounceTimer fw with
       | Some old => withoutId old (timers h)
       | None => timers h
       end ++ [(nextId h,
                {| deadline := (now h + setTimeoutDelay (debounceDelay fw))%Z;
                   timerThis := w; timerFn := fn |})])%list
  ∧ watchers h'
    = <[w := {| disposables := disposables fw;
                debounceTimer := Some (nextId h);
                debounceDelay := debounceDelay fw |}]> (watchers h).
Proof.
  intros Hw. destruct h as [now0 next docs cls dls fsw thr tms ws cs].
  cbn in Hw. unfold debounceChange. cbn. rewrite Hw.
  destruct (debounceTimer fw) as [old|]; cbn;
    unfold setDebounceTimer; cbn; rewrite Hw; cbn; repeat split.
Qed.

Lemma debounceChange_missing (w : nat) (fn : DebouncedCall Client)
      (h : Host Client) :
  watchers h !! w = None → debounceChange w fn h = h.
Proof. intros Hw. unfold debounceChange. now rewrite Hw. Qed.

Lemma Forall_withoutId {A} (P : nat * A → Prop) id (l : list (nat * A)) :
  Forall P l → Forall P (withoutId id l).
Proof.
  intros H. apply Forall_forall. intros e He.
  apply elem_of_withoutId in He as [He _].
  rewrite Forall_forall in H. now apply H.
Qed.

(** Another watcher arms its timer. *)
Lemma debounceChange_other p (w : nat) (fn : DebouncedCall Client)
      (h : Host Client) :
  w ≠ this →
  keeps view (dcOnChanged fn) (dcOnError fn) →
  sharedLoop p h → sharedLoop p (debounceChange w fn h).
Proof.
  intros Hne Hk Hs.
  destruct (watchers h !! w) as [fw'|] eqn:Hw;
    [|now rewrite debounceChange_missing].
  destruct (debounceChange_fields w fn h fw' Hw) as (_ & _ & _ & Hn & Ht & Hws).
  unfold Watcher.sharedLoop in *. rewrite Hn, Ht, Hws. clear Hn Ht Hws.
  destruct Hs as (Hids & Hdt & Hkeep & fw & Hfw & Hd & Hp).
  set (old := match debounceTimer fw' with
              | Some old => withoutId old (timers h) | None => timers h end).
  assert (Hsub : ∀ e, e ∈ old → e ∈ timers h).
  { intros e. subst old. destruct (debounceTimer fw'); [|auto].
    rewrite elem_of_withoutId. tauto. }
  assert (Hall : ∀ P : nat * Timer Client → Prop,
             Forall P (timers h) → Forall P old).
  { intros P HP. apply Forall_forall. intros e He.
    rewrite Forall_forall in HP. auto. }
  split; [|split; [|split]].
  - apply Forall_app. split.
    + apply Hall. eapply Forall_impl; [exact Hids|]. cbn. intros; lia.
    + constructor; [cbn; lia | constructor].
  - intros w' fw0 id Hl Hid.
    destruct (decide (w' = w)) as [->|Hw'].
    + rewrite lookup_insert_eq in Hl. injection Hl as <-. cbn in Hid.
      injection Hid as <-. lia.
    + rewrite lookup_insert_ne in Hl by congruence.
      specialize (Hdt _ _ _ Hl Hid). lia.
  - apply Forall_app. split; [now apply Hall|].
    constructor; [cbn; intros _; exact Hk | constructor].
  - exists fw. rewrite lookup_insert_ne by congruence.
    split; [exact Hfw|]. split; [exact Hd|].
    destruct p as [due|].
    + destruct Hp as (tid & Htid & Hin & Honly & Hoth).
      exists tid. split; [exact Htid|].
      assert (Hlt : tid < nextId h).
      { rewrite Forall_forall in Hids. exact (Hids _ Hin). }
      split; [|split].
      * apply elem_of_app. left. subst old.
        destruct (debounceTimer fw') as [o|] eqn:Eo; [|exact Hin].
        apply elem_of_withoutId. split; [exact Hin|]. cbn.
        intros ->. exact (Hoth w fw' Hne Hw Eo).
      * apply Forall_app. split; [now apply Hall|].
        constructor; [cbn; intros [?|?]; [congruence | lia] | constructor].
      * intros w' fw0 Hw' Hl.
        destruct (decide (w' = w)) as [->|Hww].
        -- rewrite lookup_insert_eq in Hl. injection Hl as <-. cbn.
           intros [= ?]. lia.
        -- rewrite lookup_insert_ne in Hl by congruence. now apply (Hoth w').
    + apply Forall_app. split; [now apply Hall|].
      constructor; [cbn; congruence | constructor].
Qed.

(** The watcher arms its own timer: a pending call of it is replaced. *)
Lemma debounceChange_ours p (h : Host Client) :
  sharedLoop p h →
  sharedLoop (Some (now h + setTimeoutDelay delay)%Z)
             (debounceChange this (callOf document onChanged onError) h).
Proof.
  intros Hs. destruct Hs as (Hids & Hdt & Hkeep & fw & Hfw & Hd & Hp).
  destruct (debounceChange_fields this (callOf document onChanged onError)
              h fw Hfw) as (_ & _ & _ & Hn & Ht & Hws).
  unfold Watcher.sharedLoop. rewrite Hn, Ht, Hws, Hd. clear Hn Ht Hws.
  set (old := match debounceTimer fw with
              | Some old => withoutId old (timers h) | None => timers h end).
  assert (Hsub : ∀ e, e ∈ old → e ∈ timers h).
  { intros e. subst old. destruct (debounceTimer fw); [|auto].
    rewrite elem_of_withoutId. tauto. }
  assert (Hall : ∀ P : nat * Timer Client → Prop,
             Forall P (timers h) → Forall P old).
  { intros P HP. apply Forall_forall. intros e He.
    rewrite Forall_forall in HP. auto. }
  assert (Hnone : Forall (fun e => timerThis (snd e) ≠ this) old).
  { destruct p as [due|]; [|now apply Hall].
    destruct Hp as (tid & Htid & Hin & Honly & Hoth).
    subst old. rewrite Htid. apply Forall_forall. intros e He.
    apply elem_of_withoutId in He as [He Hid].
    rewrite Forall_forall in Honly. intros Hthis.
    specialize (Honly e He (or_introl Hthis)). subst e. now apply Hid. }
  split; [|split; [|split]].
  - apply Forall_app. split.
    + apply Hall. eapply Forall_impl; [exact Hids|]. cbn. intros; lia.
    + constructor; [cbn; lia | constructor].
  - intros w' fw0 id Hl Hid.
    destruct (decide (w' = this)) as [->|Hw'].
    + rewrite lookup_insert_eq in Hl. injection Hl as <-. cbn in Hid.
      injection Hid as <-. lia.
    + rewrite lookup_insert_ne in Hl by congruence.
      specialize (Hdt _ _ _ Hl Hid). lia.
  - apply Forall_app. split; [now apply Hall|].
    constructor; [cbn; congruence | constructor].
  - eexists. rewrite lookup_insert_eq. split; [reflexivity|].
    split; [reflexivity|]. cbn. exists (nextId h).
    split; [reflexivity|]. split; [|split].
    + apply elem_of_app. right. left.
    + apply Forall_app. split.
      * apply Forall_forall. intros e He [Hthis|Hid].
        -- rewrite Forall_forall in Hnone. now destruct (Hnone e He).
        -- apply Hsub in He. rewrite Forall_forall in Hids.
           specialize (Hids e He). lia.
      * constructor; [reflexivity | constructor].
    + intros w' fw0 Hw' Hl. rewrite lookup_insert_ne in Hl by congruence.
      intros Heq. specialize (Hdt _ _ _ Hl Heq). lia.
Qed.

End SharedLoop.

Section SharedLoopRuns.
Import Js Detection Watcher.
Context {Client V : Type}.
Variable view : Client → V.
Variable this : nat.
Variable document : string.
Variable delay : Z.
Variable onChanged : FileChangeCallback Client.
Variable onError : option (FileErrorCallback Client).

Local Abbreviation ours := (listenerOf this document onChanged onError).
Local Abbreviation ourTimer due :=
  ({| deadline := due; timerThis := this;
      timerFn := callOf document onChanged onError |}).
Local Abbreviation sharedLoop :=
  (sharedLoop view this document delay onChanged onError).
Local Abbreviation listeners :=
  (listeners view this document onChanged onError).
Local Abbreviation D := (setTimeoutDelay delay).

Lemma listeners_cons e l : listeners (e :: l) →
  (clThis (snd e) = this → snd e = ours)
  ∧ (clThis (snd e) ≠ this →
     keeps view (clOnChanged (snd e)) (clOnError (snd e)))
  ∧ listeners l.
Proof.
  intros [H1 H2]. apply Forall_cons in H1 as [? ?], H2 as [? ?].
  repeat split; assumption.
Qed.

(** The change event of another document. *)
Lemma fire_other (doc : string) (l : list (nat * ChangeListener Client)) :
  String.eqb doc document = false → listeners l →
  ∀ p h, sharedLoop p h →
    let h' := foldl (fun h e => onDidChangeTextDocument (snd e) doc h) h l in
    sharedLoop p h' ∧ now h' = now h ∧ documents h' = documents h
    ∧ changeListeners h' = changeListeners h.
Proof.
  intros Hdoc. induction l as [|e l IH]; intros Hl p h Hs; [cbn [foldl existsb]; split; [exact Hs | repeat split]|].
  apply listeners_cons in Hl as (H1 & H2 & Hl). cbn [foldl].
  assert (Hstep : sharedLoop p (onDidChangeTextDocument (snd e) doc h)
                  ∧ now (onDidChangeTextDocument (snd e) doc h) = now h
                  ∧ documents (onDidChangeTextDocument (snd e) doc h) = documents h
                  ∧ changeListeners (onDidChangeTextDocument (snd e) doc h)
                    = changeListeners h).
  { unfold onDidChangeTextDocument.
    destruct (String.eqb doc (clUri (snd e))) eqn:E; [|split; [exact Hs | repeat split]].
    destruct (decide (clThis (snd e) = this)) as [Ht|Ht].
    - rewrite (H1 Ht) in E. cbn in E. congruence.
    - split.
      + apply debounceChange_other; [exact Ht | apply (H2 Ht) | exact Hs].
      + destruct (watchers h !! clThis (snd e)) as [fw|] eqn:Hw.
        * destruct (debounceChange_fields (clThis (snd e))
                      {| dcDocument := doc; dcOnChanged := clOnChanged (snd e);
                         dcOnError := clOnError (snd e) |} h fw Hw)
            as (? & ? & ? & _). repeat split; assumption.
        * rewrite debounceChange_missing by exact Hw. repeat split. }
  destruct Hstep as (Hs1 & Hn1 & Hd1 & Hc1).
  destruct (IH Hl p _ Hs1) as (? & ? & ? & ?).
  split; [assumption|]. repeat split; congruence.
Qed.

(** The change event of the watched document: the watcher arms its
    timer when its listener is reached. *)
Lemma fire_own (l : list (nat * ChangeListener Client)) :
  listeners l →
  ∀ p h, sharedLoop p h →
    let h' := foldl (fun h e => onDidChangeTextDocument (snd e) document h) h l in
    sharedLoop (if existsb (fun e => Nat.eqb (clThis (snd e)) this) l
                then Some (now h + D)%Z else p) h'
    ∧ now h' = now h ∧ documents h' = documents h
    ∧ changeListeners h' = changeListeners h.
Proof.
  induction l as [|e l IH]; intros Hl p h Hs; [cbn [foldl existsb]; split; [exact Hs | repeat split]|].
  apply listeners_cons in Hl as (H1 & H2 & Hl). cbn [foldl existsb].
  destruct (Nat.eqb_spec (clThis (snd e)) this) as [Ht|Ht].
  - assert (E : onDidChangeTextDocument (snd e) document h
                = debounceChange this (callOf document onChanged onError) h).
    { rewrite (H1 Ht). unfold onDidChangeTextDocument. cbn.
      now rewrite String.eqb_refl. }
    rewrite E.
    pose proof (debounceChange_ours view this document delay onChanged onError
                  p h Hs) as Hs1.
    destruct Hs as (_ & _ & _ & fw & Hfw & _).
    destruct (debounceChange_fields this (callOf document onChanged onError)
                h fw Hfw) as (Hn1 & Hd1 & Hc1 & _).
    destruct (IH Hl _ _ Hs1) as (Hs2 & Hn2 & Hd2 & Hc2).
    rewrite Hn1 in Hs2. cbn [orb].
    split; [now destruct (existsb _ l)|].
    rewrite Hn2, Hd2, Hc2. repeat split; assumption.
  - cbn [orb].
    assert (Hstep : sharedLoop p (onDidChangeTextDocument (snd e) document h)
                    ∧ now (onDidChangeTextDocument (snd e) document h) = now h
                    ∧ documents (onDidChangeTextDocument (snd e) document h)
                      = documents h
                    ∧ changeListeners (onDidChangeTextDocument (snd e) document h)
                      = changeListeners h).
    { unfold onDidChangeTextDocument.
      destruct (String.eqb document (clUri (snd e))); [|split; [exact Hs | repeat split]].
      split.
      - apply debounceChange_other; [exact Ht | apply (H2 Ht) | exact Hs].
      - destruct (watchers h !! clThis (snd e)) as [fw|] eqn:Hw.
        + destruct (debounceChange_fields (clThis (snd e))
                      {| dcDocument := document;
                         dcOnChanged := clOnChanged (snd e);
                         dcOnError := clOnError (snd e) |} h fw Hw)
            as (? & ? & ? & _). repeat split; assumption.
        + rewrite debounceChange_missing by exact Hw. repeat split. }
    destruct Hstep as (Hs1 & Hn1 & Hd1 & Hc1).
    destruct (IH Hl p _ Hs1) as (Hs2 & Hn2 & Hd2 & Hc2).
    rewrite Hn1 in Hs2. split; [assumption|]. repeat split; congruence.
Qed.

Lemma existsb_ours (l : list (nat * ChangeListener Client)) id :
  (id, ours) ∈ l → existsb (fun e => Nat.eqb (clThis (snd e)) this) l = true.
Proof.
  intros H. apply existsb_exists. exists (id, ours).
  split; [now apply list_elem_of_In|]. cbn. apply Nat.eqb_refl.
Qed.

End SharedLoopRuns.

Section SharedLoopTimers.
Import Js Detection Watcher.
Context {Client V : Type}.
Variable view : Client → V.
Variable this : nat.
Variable document : string.
Variable delay : Z.
Variable onChanged : FileChangeCallback Client.
Variable onError : option (FileErrorCallback Client).

Local Abbreviation ourTimer due :=
  ({| deadline := due; timerThis := this;
      timerFn := callOf document onChanged onError |}).
Local Abbreviation shared := (shared view this document delay onChanged onError).
Local Abbreviation sharedLoop := (sharedLoop view this document delay onChanged onError).
Local Abbreviation D := (setTimeoutDelay delay).

(** The fields of the loop after a timer function has run. *)
Lemma runTimer_fields (tm : Timer Client) (h : Host Client) (c : Client) :
  let r := snd (runTimer tm (h, c)) in
  snd r = afterChange (dcOnChanged (timerFn tm)) (dcOnError (timerFn tm))
            (default "" (documents h !! dcDocument (timerFn tm))) c
  ∧ now (fst r) = now h ∧ documents (fst r) = documents h
  ∧ changeListeners (fst r) = changeListeners h
  ∧ nextId (fst r) = nextId h ∧ timers (fst r) = timers h
  ∧ (watchers (fst r) = watchers h
     ∨ ∃ fw, watchers h !! timerThis tm = Some fw
             ∧ watchers (fst r)
               = <[timerThis tm := {| disposables := disposables fw;
                                      debounceTimer := None;
                                      debounceDelay := debounceDelay fw |}]>
                   (watchers h)).
Proof.
  destruct h as [now0 next docs cls dls fsw thr tms ws cs].
  unfold runTimer, runDebounced, afterChange. cbn.
  destruct (dcOnChanged (timerFn tm) _ c) as [[[]|e] c1]; cbn.
  - unfold setDebounceTimer. cbn.
    destruct (ws !! timerThis tm) as [fw|] eqn:E; cbn;
      repeat split; eauto.
  - destruct (dcOnError (timerFn tm)) as [f|]; cbn.
    + destruct (f (toError e) c1) as [[[]|e'] c2]; cbn.
      * unfold setDebounceTimer. cbn.
        destruct (ws !! timerThis tm) as [fw|] eqn:E; cbn;
          repeat split; eauto.
      * repeat split; eauto.
    + unfold setDebounceTimer. cbn.
      destruct (ws !! timerThis tm) as [fw|] eqn:E; cbn;
        repeat split; eauto.
Qed.

(** Forgetting the timer of a watcher that has no call of [this]
    pending under that name. *)
Lemma shared_reset p n tms ws w fw :
  shared p n tms ws → ws !! w = Some fw → (w ≠ this ∨ p = None) →
  shared p n tms (<[w := {| disposables := disposables fw;
                            debounceTimer := None;
                            debounceDelay := debounceDelay fw |}]> ws).
Proof.
  intros (Hids & Hdt & Hkeep & fw0 & Hfw & Hd & Hp) Hw Hcase.
  split; [exact Hids|]. split; [|split; [exact Hkeep|]].
  - intros w' fw' id Hl Hid. destruct (decide (w' = w)) as [->|Hne].
    + rewrite lookup_insert_eq in Hl. injection Hl as <-. discriminate.
    + rewrite lookup_insert_ne in Hl by congruence. eauto.
  - destruct (decide (w = this)) as [->|Hne].
    + destruct Hcase as [? | ->]; [congruence|].
      eexists. rewrite lookup_insert_eq. split; [reflexivity|].
      split; [|exact Hp]. cbn. congruence.
    + exists fw0. rewrite lookup_insert_ne by congruence.
      split; [exact Hfw|]. split; [exact Hd|].
      destruct p as [due|]; [|exact Hp].
      destruct Hp as (tid & Htid & Hin & Honly & Hoth).
      exists tid. repeat split; try assumption.
      intros w' fw' Hw' Hl. destruct (decide (w' = w)) as [->|Hww].
      * rewrite lookup_insert_eq in Hl. injection Hl as <-. discriminate.
      * rewrite lookup_insert_ne in Hl by congruence. eauto.
Qed.

(** The timer of another watcher is taken off the loop. *)
Lemma shared_clear_other p n tms ws id tm :
  shared p n tms ws → (id, tm) ∈ tms → timerThis tm ≠ this →
  shared p n (withoutId id tms) ws.
Proof.
  intros (Hids & Hdt & Hkeep & fw0 & Hfw & Hd & Hp) Hin Hne.
  split; [now apply Forall_withoutId|]. split; [exact Hdt|].
  split; [now apply Forall_withoutId|].
  exists fw0. split; [exact Hfw|]. split; [exact Hd|].
  destruct p as [due|]; [|now apply Forall_withoutId].
  destruct Hp as (tid & Htid & Hours & Honly & Hoth).
  exists tid. split; [exact Htid|]. split; [|split; [|exact Hoth]].
  - apply elem_of_withoutId. split; [exact Hours|]. cbn. intros ->.
    rewrite Forall_forall in Honly.
    specialize (Honly _ Hin (or_intror eq_refl)).
    injection Honly as ->. now apply Hne.
  - now apply Forall_withoutId.
Qed.

(** The timer of [this] is taken off the loop. *)
Lemma shared_clear_ours due n tms ws id tm :
  shared (Some due) n tms ws → (id, tm) ∈ tms → timerThis tm = this →
  tm = ourTimer due ∧ shared None n (withoutId id tms) ws.
Proof.
  intros (Hids & Hdt & Hkeep & fw0 & Hfw & Hd & Hp) Hin Hthis.
  destruct Hp as (tid & Htid & Hours & Honly & Hoth).
  pose proof Honly as Honly'. rewrite Forall_forall in Honly'.
  pose proof (Honly' _ Hin (or_introl Hthis)) as E. injection E as -> ->.
  split; [reflexivity|].
  split; [now apply Forall_withoutId|]. split; [exact Hdt|].
  split; [now apply Forall_withoutId|].
  exists fw0. split; [exact Hfw|]. split; [exact Hd|].
  apply Forall_forall. intros e He. apply elem_of_withoutId in He as [He Hid].
  intros Ht. specialize (Honly' e He (or_introl Ht)). subst e. now apply Hid.
Qed.

(** A timer of another watcher runs. *)
Lemma run_other p (h : Host Client) (c : Client) id tm (t : Z) :
  sharedLoop p h → (id, tm) ∈ timers h → timerThis tm ≠ this →
  let r := snd (runTimer tm (setNow t (clearTimeout id h), c)) in
  sharedLoop p (fst r) ∧ view (snd r) = view c
  ∧ now (fst r) = t ∧ documents (fst r) = documents h
  ∧ changeListeners (fst r) = changeListeners h
  ∧ timers (fst r) = withoutId id (timers h).
Proof.
  intros Hs Hin Hne r.
  destruct (runTimer_fields tm (setNow t (clearTimeout id h)) c)
    as (Hc & Hn & Hd & Hl & Hi & Ht & Hw).
  fold r in Hc, Hn, Hd, Hl, Hi, Ht, Hw.
  assert (Hkeep : keeps view (dcOnChanged (timerFn tm)) (dcOnError (timerFn tm))).
  { destruct Hs as (_ & _ & Hk & _). rewrite Forall_forall in Hk.
    exact (Hk _ Hin Hne). }
  split; [|split; [rewrite Hc; apply Hkeep|]].
  - pose proof (shared_clear_other p _ _ _ id tm Hs Hin Hne) as Hs1.
    unfold Watcher.sharedLoop. rewrite Hi, Ht.
    destruct Hw as [->|(fw & Hfw & ->)]; [exact Hs1|].
    apply shared_reset; [exact Hs1 | exact Hfw | now left].
  - repeat split; assumption.
Qed.

(** The timer of [this] runs: the callback gets the text the document
    has then. *)
Lemma run_ours due (h : Host Client) (c : Client) id tm (t : Z) :
  sharedLoop (Some due) h → (id, tm) ∈ timers h → timerThis tm = this →
  let r := snd (runTimer tm (setNow t (clearTimeout id h), c)) in
  deadline tm = due
  ∧ sharedLoop None (fst r)
  ∧ snd r = afterChange onChanged onError
              (default "" (documents h !! document)) c
  ∧ now (fst r) = t ∧ documents (fst r) = documents h
  ∧ changeListeners (fst r) = changeListeners h
  ∧ timers (fst r) = withoutId id (timers h).
Proof.
  intros Hs Hin Hthis r.
  destruct (shared_clear_ours due _ _ _ id tm Hs Hin Hthis) as [-> Hs1].
  destruct (runTimer_fields (ourTimer due) (setNow t (clearTimeout id h)) c)
    as (Hc & Hn & Hd & Hl & Hi & Ht & Hw).
  fold r in Hc, Hn, Hd, Hl, Hi, Ht, Hw.
  split; [reflexivity|]. split; [|split; [exact Hc|repeat split; assumption]].
  unfold Watcher.sharedLoop. rewrite Hi, Ht.
  destruct Hw as [->|(fw & Hfw & ->)]; [exact Hs1|].
  apply shared_reset; [exact Hs1 | exact Hfw | now right].
Qed.

(** While the call of [this] is not due, only other timers run. *)
Lemma runTimers_before (fuel : nat) (t : Z) :
  ∀ p (h : Host Client) (c : Client),
    sharedLoop p h →
    match p with Some due => (t < due)%Z | None => True end →
    let r := runTimers fuel t (h, c) in
    sharedLoop p (fst r) ∧ view (snd r) = view c
    ∧ documents (fst r) = documents h
    ∧ changeListeners (fst r) = changeListeners h
    ∧ ((now h <= t)%Z → (now (fst r) <= t)%Z).
Proof.
  induction fuel as [|fuel IH]; intros p h c Hs Hp; cbv zeta;
    [cbn [runTimers fst snd]; split; [exact Hs | repeat split; auto]|].
  cbn [runTimers fst snd].
  destruct (earliest (timers h)) as [[id tm]|] eqn:E;
    [|cbn [fst snd]; split; [exact Hs | repeat split; auto]].
  destruct (Z.leb_spec (deadline tm) t) as [Hdue|Hlate];
    [|cbn [fst snd]; split; [exact Hs | repeat split; auto]].
  pose proof (earliest_elem _ _ E) as Hin.
  assert (Hne : timerThis tm ≠ this).
  { intros Hthis. destruct p as [due|].
    - destruct (shared_clear_ours due _ _ _ id tm Hs Hin Hthis) as [-> _].
      cbn in Hdue. lia.
    - destruct Hs as (_ & _ & _ & fw & _ & _ & Hnone).
      rewrite Forall_forall in Hnone. exact (Hnone _ Hin Hthis). }
  destruct (run_other p h c id tm (Z.max (now h) (deadline tm)) Hs Hin Hne)
    as (Hs1 & Hv1 & Hn1 & Hd1 & Hl1 & _).
  destruct (snd (runTimer tm _)) as [h1 c1]. cbn [fst snd] in *.
  destruct (IH p h1 c1 Hs1 Hp) as (Hs2 & Hv2 & Hd2 & Hl2 & Hn2).
  split; [exact Hs2|]. repeat split; try congruence.
  intros Hnow. apply Hn2. lia.
Qed.

(** When the call of [this] is due, it runs, once. *)
Lemma runTimers_due (fuel : nat) (t due : Z) :
  ∀ (h : Host Client) (c : Client),
    sharedLoop (Some due) h → (due <= t)%Z → (length (timers h) <= fuel)%nat →
    let r := runTimers fuel t (h, c) in
    sharedLoop None (fst r)
    ∧ ∃ c', view c' = view c
            ∧ view (snd r)
              = view (afterChange onChanged onError
                        (default "" (documents h !! document)) c').
Proof.
  induction fuel as [|fuel IH]; intros h c Hs Hdue Hlen; cbv zeta.
  - exfalso. destruct Hs as (_ & _ & _ & fw & _ & _ & tid & _ & Hin & _).
    destruct (timers h); [inversion Hin | cbn in Hlen; lia].
  - cbn [runTimers fst snd].
    assert (Hours : ∃ tid, (tid, ourTimer due) ∈ timers h).
    { destruct Hs as (_ & _ & _ & fw & _ & _ & tid & _ & Hin & _). eauto. }
    destruct Hours as [tid Hours].
    destruct (earliest (timers h)) as [[id tm]|] eqn:E.
    2:{ apply earliest_none in E. rewrite E in Hours. inversion Hours. }
    pose proof (earliest_elem _ _ E) as Hin.
    pose proof (earliest_least _ _ E _ Hours) as Hleast. cbn in Hleast.
    destruct (Z.leb_spec (deadline tm) t) as [_|Hlate]; [|lia].
    destruct (decide (timerThis tm = this)) as [Hthis|Hne].
    + destruct (run_ours due h c id tm (Z.max (now h) (deadline tm))
                         Hs Hin Hthis) as (_ & Hs1 & Hc1 & _).
      destruct (snd (runTimer tm _)) as [h1 c1]. cbn [fst snd] in *.
      destruct (runTimers_before fuel t None h1 c1 Hs1 I) as (Hs2 & Hv2 & _).
      split; [exact Hs2|]. exists c. split; [reflexivity|].
      rewrite Hv2. now rewrite Hc1.
    + destruct (run_other (Some due) h c id tm (Z.max (now h) (deadline tm))
                          Hs Hin Hne) as (Hs1 & Hv1 & _ & Hd1 & _ & Ht1).
      pose proof (withoutId_shorter id (timers h) (id, tm) Hin eq_refl) as Hshort.
      destruct (snd (runTimer tm _)) as [h1 c1]. cbn [fst snd] in *.
      assert (Hlen1 : (length (timers h1) <= fuel)%nat) by (rewrite Ht1; lia).
      destruct (IH h1 c1 Hs1 Hdue Hlen1) as (Hs2 & c' & Hv & Hfin).
      split; [exact Hs2|]. exists c'. split; [congruence|].
      now rewrite <- Hd1.
Qed.

End SharedLoopTimers.

Section SharedLoopEdits.
Import Js Detection Watcher.
Context {Client V : Type}.
Variable view : Client → V.
Variable this : nat.
Variable document : string.
Variable delay : Z.
Variable onChanged : FileChangeCallback Client.
Variable onError : option (FileErrorCallback Client).

Local Abbreviation ours := (listenerOf this document onChanged onError).
Local Abbreviation sharedLoop := (sharedLoop view this document delay onChanged onError).
Local Abbreviation listeners := (listeners view this document onChanged onError).
Local Abbreviation D := (setTimeoutDelay delay).
Local Abbreviation dueOf := (dueOf (setTimeoutDelay delay)).

(** Time passes, not long enough for the call of [this]. *)
Lemma advanceTo_before p (h : Host Client) (c : Client) (t : Z) :
  sharedLoop p h →
  match p with Some due => (t < due)%Z | None => True end →
  (now h <= t)%Z →
  let r := advanceTo t (h, c) in
  sharedLoop p (fst r) ∧ view (snd r) = view c
  ∧ documents (fst r) = documents h
  ∧ changeListeners (fst r) = changeListeners h
  ∧ now (fst r) = t.
Proof.
  intros Hs Hp Hnow. unfold advanceTo. cbn [fst].
  destruct (runTimers_before view this document delay onChanged onError
              (length (timers h)) t p h c Hs Hp)
    as (Hs1 & Hv1 & Hd1 & Hl1 & Hn1).
  destruct (runTimers _ t (h, c)) as [h1 c1]. cbn [fst snd] in *.
  split; [exact Hs1|]. repeat split; try assumption.
  specialize (Hn1 Hnow). cbn. lia.
Qed.

(** Time passes until the call of [this] is due or later. *)
Lemma advanceTo_fires (due : Z) (h : Host Client) (c : Client) (t : Z) :
  sharedLoop (Some due) h → (due <= t)%Z →
  ∃ c', view c' = view c
        ∧ view (snd (advanceTo t (h, c)))
          = view (afterChange onChanged onError
                    (default "" (documents h !! document)) c').
Proof.
  intros Hs Hdue. unfold advanceTo. cbn [fst].
  destruct (runTimers_due view this document delay onChanged onError
              (length (timers h)) t due h c Hs Hdue (le_n _))
    as (_ & c' & Hv & Hfin).
  destruct (runTimers _ t (h, c)) as [h1 c1]. cbn [fst snd] in *. eauto.
Qed.

(** An edit of the watched document arms the timer of [this]. *)
Lemma edit_own p (h : Host Client) (c : Client) (t : Z) (x : string) id :
  listeners (changeListeners h) → (id, ours) ∈ changeListeners h →
  sharedLoop p h →
  match p with Some due => (t < due)%Z | None => True end →
  (now h <= t)%Z →
  let r := editDocument document x t (h, c) in
  sharedLoop (Some (t + D)%Z) (fst r) ∧ view (snd r) = view c
  ∧ documents (fst r) !! document = Some x
  ∧ changeListeners (fst r) = changeListeners h
  ∧ now (fst r) = t.
Proof.
  intros Hl Hin Hs Hp Hnow. unfold editDocument.
  destruct (advanceTo_before p h c t Hs Hp Hnow) as (Hs1 & Hv1 & Hd1 & Hl1 & Hn1).
  destruct (advanceTo t (h, c)) as [h1 c1]. cbn [fst snd] in *.
  unfold fireDidChangeTextDocument.
  change (changeListeners (setDocuments _ h1)) with (changeListeners h1).
  rewrite Hl1.
  destruct (fire_own view this document delay onChanged onError
              (changeListeners h) Hl p
              (setDocuments (<[document := x]> (documents h1)) h1) Hs1)
    as (Hs2 & Hn2 & Hd2 & Hl2).
  rewrite (existsb_ours this document onChanged onError _ id Hin) in Hs2.
  change (now (setDocuments _ h1)) with (now h1) in Hs2, Hn2.
  rewrite Hn1 in Hs2.
  split; [exact Hs2|]. split; [exact Hv1|]. split; [|split].
  - rewrite Hd2. cbn. apply lookup_insert_eq.
  - rewrite Hl2. exact Hl1.
  - rewrite Hn2. exact Hn1.
Qed.

(** An edit of another document leaves [this] as it is. *)
Lemma edit_other p (h : Host Client) (c : Client) (doc : string) (t : Z)
      (x : string) :
  String.eqb doc document = false →
  listeners (changeListeners h) →
  sharedLoop p h →
  match p with Some due => (t < due)%Z | None => True end →
  (now h <= t)%Z →
  let r := editDocument doc x t (h, c) in
  sharedLoop p (fst r) ∧ view (snd r) = view c
  ∧ documents (fst r) !! document = documents h !! document
  ∧ changeListeners (fst r) = changeListeners h
  ∧ now (fst r) = t.
Proof.
  intros Hdoc Hl Hs Hp Hnow. unfold editDocument.
  destruct (advanceTo_before p h c t Hs Hp Hnow) as (Hs1 & Hv1 & Hd1 & Hl1 & Hn1).
  destruct (advanceTo t (h, c)) as [h1 c1]. cbn [fst snd] in *.
  unfold fireDidChangeTextDocument.
  change (changeListeners (setDocuments _ h1)) with (changeListeners h1).
  rewrite Hl1.
  destruct (fire_other view this document delay onChanged onError doc
              (changeListeners h) Hdoc Hl p
              (setDocuments (<[doc := x]> (documents h1)) h1) Hs1)
    as (Hs2 & Hn2 & Hd2 & Hl2).
  split; [exact Hs2|]. split; [exact Hv1|]. split; [|split].
  - rewrite Hd2. cbn. rewrite lookup_insert_ne, Hd1; [reflexivity|].
    now apply String.eqb_neq.
  - rewrite Hl2. exact Hl1.
  - rewrite Hn2. exact Hn1.
Qed.

(** Edits that stay inside the window leave the call for the last
    edit of the document pending, and nothing of [this] was called. *)
Lemma editMany_window (edits : list (string * (Z * string))) :
  ∀ (h : Host Client) (c : Client) (t : Z) (cur : option (Z * string)) id,
    listeners (changeListeners h) → (id, ours) ∈ changeListeners h →
    sharedLoop (dueOf cur) h → (now h <= t)%Z →
    (∀ tx, cur = Some tx → documents h !! document = Some (snd tx)) →
    inWindow D document t (dueOf cur) edits →
    let r := editMany edits (h, c) in
    let cur' := lastOwn document cur edits in
    sharedLoop (dueOf cur') (fst r) ∧ view (snd r) = view c
    ∧ (∀ tx, cur' = Some tx → documents (fst r) !! document = Some (snd tx)).
Proof.
  induction edits as [|[doc [t' x]] edits IH];
    intros h c t cur id Hl Hin Hs Hnow Hdocs Hw; cbv zeta.
  - cbn. split; [exact Hs|]. split; [reflexivity | exact Hdocs].
  - cbn [inWindow fst snd] in Hw. destruct Hw as (Ht & Hdue & Hw).
    unfold editMany in *. cbn [foldl fst snd lastOwn].
    assert (Hp : match dueOf cur with Some due => (t' < due)%Z | None => True end).
    { destruct (dueOf cur); [exact Hdue | exact I]. }
    destruct (String.eqb doc document) eqn:E.
    + apply String.eqb_eq in E as ->.
      destruct (edit_own (dueOf cur) h c t' x id Hl Hin Hs Hp ltac:(lia))
        as (Hs1 & Hv1 & Hd1 & Hl1 & Hn1).
      destruct (editDocument document x t' (h, c)) as [h1 c1].
      cbn [fst snd] in *.
      rewrite <- Hl1 in Hl, Hin.
      destruct (IH h1 c1 t' (Some (t', x)) id Hl Hin Hs1 ltac:(lia)
                   ltac:(now intros tx [= <-]) Hw) as (Hs2 & Hv2 & Hd2).
      split; [exact Hs2|]. split; [now rewrite Hv2 | exact Hd2].
    + destruct (edit_other (dueOf cur) h c doc t' x E Hl Hs Hp ltac:(lia))
        as (Hs1 & Hv1 & Hd1 & Hl1 & Hn1).
      destruct (editDocument doc x t' (h, c)) as [h1 c1].
      cbn [fst snd] in *.
      rewrite <- Hl1 in Hl, Hin.
      destruct (IH h1 c1 t' cur id Hl Hin Hs1 ltac:(lia)
                   ltac:(intros tx Hc; rewrite Hd1; now apply Hdocs) Hw)
        as (Hs2 & Hv2 & Hd2).
      split; [exact Hs2|]. split; [now rewrite Hv2 | exact Hd2].
Qed.

Lemma wellFormed_spec (h : Host Client) :
  wellFormed h = true →
  Forall (fun e => fst e < nextId h) (timers h)
  ∧ ∀ w fw id, watchers h !! w = Some fw → debounceTimer fw = Some id →
               id < nextId h.
Proof.
  unfold wellFormed. rewrite andb_true_iff, !forallb_forall. intros [H1 H2].
  split.
  - apply Forall_forall. intros e He. apply list_elem_of_In in He.
    specialize (H1 e He). now apply Nat.ltb_lt.
  - intros w fw id Hw Hid.
    assert (Hin : In (w, fw) (map_to_list (watchers h))).
    { apply list_elem_of_In. now apply elem_of_map_to_list. }
    specialize (H2 _ Hin). cbn in H2. rewrite Hid in H2. now apply Nat.ltb_lt.
Qed.

(** Debounce on a shared loop. *)
Lemma debounce_shared (h : Host Client) (c : Client)
      (edits : list (string * (Z * string))) (tn : Z) (xn : string) (T : Z) :
  wellFormed h = true →
  registered this document delay onChanged onError h →
  othersKeep view this h →
  inWindow D document (now h) None edits →
  lastOwn document None edits = Some (tn, xn) →
  (tn + D <= T)%Z →
  ∃ c', view c' = view c
        ∧ view (snd (advanceTo T (editMany edits (h, c))))
          = view (afterChange onChanged onError xn c').
Proof.
  intros Hwf ((fw & Hfw & Hd) & (id & Hin) & Hmine & Hnone) (Hk1 & Hk2)
         Hw Hlast HT.
  destruct (wellFormed_spec h Hwf) as (Hids & Hdt).
  assert (Hs : sharedLoop None h).
  { split; [exact Hids|]. split; [exact Hdt|]. split; [exact Hk2|].
    exists fw. repeat split; assumption. }
  assert (Hl : listeners (changeListeners h)) by (split; assumption).
  destruct (editMany_window edits h c (now h) None id Hl Hin Hs ltac:(lia)
              ltac:(discriminate) Hw) as (Hs1 & Hv1 & Hd1).
  rewrite Hlast in Hs1, Hd1. cbn in Hs1.
  specialize (Hd1 _ eq_refl). cbn in Hd1.
  destruct (editMany edits (h, c)) as [h1 c1]. cbn [fst snd] in *.
  destruct (advanceTo_fires (tn + D) h1 c1 T Hs1 HT) as (c' & Hv & Hfin).
  rewrite Hd1 in Hfin. cbn in Hfin.
  exists c'. split; [congruence | exact Hfin].
Qed.

End SharedLoopEdits.

Section WatchFacts.
Import Js Detection Watcher.
Context {Client : Type}.

Lemma pushDisposable_throws this d (h : Host Client) :
  createFileSystemWatcherThrows (pushDisposable this d h)
  = createFileSystemWatcherThrows h.
Proof. unfold pushDisposable. destruct (watchers h !! this); reflexivity. Qed.

(** What [watch] returns and what it leaves of the client: the client
    is touched only when the file-system watch cannot be created and
    an error callback was given. *)
Lemma watch_outcome this u (onC : FileChangeCallback Client) onD onE h c :
  let r := watch this u onC onD onE (h, c) in
  match createFileSystemWatcherThrows h, onE with
  | Some e, Some f =>
      snd (snd r) = snd (f (toError e) c)
      ∧ fst r = match fst (f (toError e) c) with
                | Normal _ => Normal {| handleThis := this |}
                | Throw e' => Throw e'
                end
  | _, _ => snd (snd r) = c ∧ fst r = Normal {| handleThis := this |}
  end.
Proof.
  unfold watch. cbn [fresh fst snd]. rewrite pushDisposable_throws. cbn.
  destruct (createFileSystemWatcherThrows h) as [e|]; [|now split].
  destruct onE as [f|]; [|now split].
  destruct (f (toError e) c) as [[[]|e'] c1]; now split.
Qed.

Lemma existsb_withoutId_same {A} (id : nat) (l : list (nat * A)) :
  existsb (fun e => Nat.eqb (fst e) id) (withoutId id l) = false.
Proof.
  unfold withoutId. induction l as [|e l IH]; [reflexivity|].
  rewrite filter_cons. destruct (decide (fst e ≠ id)) as [Hne|Heq]; [|exact IH].
  cbn. rewrite IH. now apply Nat.eqb_neq in Hne as ->.
Qed.

Lemma existsb_withoutId {A} (id id' : nat) (l : list (nat * A)) :
  existsb (fun e => Nat.eqb (fst e) id) l = false →
  existsb (fun e => Nat.eqb (fst e) id) (withoutId id' l) = false.
Proof.
  unfold withoutId. induction l as [|e l IH]; [reflexivity|].
  cbn [existsb]. intros H. apply orb_false_iff in H as [He Hl].
  rewrite filter_cons. destruct (decide (fst e ≠ id')); [|now apply IH].
  cbn [existsb]. now rewrite He, IH.
Qed.

Lemma active_release_same (s : Subscription) (h : Host Client) :
  active s (release s h) = false.
Proof. destruct s; cbn; apply existsb_withoutId_same. Qed.

Lemma active_release_other (s d : Subscription) (h : Host Client) :
  active s h = false → active s (release d h) = false.
Proof. destruct s, d; cbn; auto using existsb_withoutId. Qed.

Lemma active_release_all (l : list Subscription) :
  ∀ (h : Host Client) (s : Subscription),
    s ∈ l ∨ active s h = false →
    active s (foldl (fun h d => release d h) h l) = false.
Proof.
  induction l as [|d l IH]; intros h s H; cbn [foldl].
  - destruct H as [H|H]; [inversion H | exact H].
  - apply IH. destruct H as [H|H].
    + apply elem_of_cons in H as [->|H];
        [right; apply active_release_same | now left].
    + right. now apply active_release_other.
Qed.

Lemma release_all_frame (l : list Subscription) :
  ∀ h : Host Client,
    timers (foldl (fun h d => release d h) h l) = timers h
    ∧ watchers (foldl (fun h d => release d h) h l) = watchers h.
Proof.
  induction l as [|d l IH]; intros h; cbn [foldl]; [auto|].
  destruct (IH (release d h)) as [-> ->]. destruct d; auto.
Qed.

Lemma active_setWatchers (s : Subscription) m (h : Host Client) :
  active s (setWatchers m h) = active s h.
Proof. destruct s; reflexivity. Qed.

End WatchFacts.

(** C2 fails as stated for a watcher with more than one registration:
    the timer belongs to the watcher, so an edit of [/b.yaml] inside the
    window of an edit of [/a.yaml] cancels the call pending for
    [/a.yaml]; its callback is never called, although its one edit had
    a window of its own. *)
Lemma shared_timer_drops_edit :
  let started :=
    Watcher.newFileWatcher {| Watcher.optDebounceDelay := None |}
                           (Watcher.boot 0 ∅ None) in
  let hc1 :=
    snd (Watcher.watch (fst started) (Sample.file "/a.yaml") Sample.recordFirst
           None None (snd started, ([], []))) in
  let hc2 :=
    snd (Watcher.watch (fst started) (Sample.file "/b.yaml") Sample.recordSecond
           None None hc1) in
  let final :=
    Watcher.advanceTo 1000
      (Watcher.editDocument "file:///b.yaml" "swagger: 2.0" 100
         (Watcher.editDocument "file:///a.yaml" "openapi: 3.0.0" 0 hc2)) in
  snd final = ([], ["swagger: 2.0"]).
Proof. vm_compute. reflexivity. Qed.

(** C2, amended. A watcher with one registration, on a loop that it may
    share with any other watchers, listeners and timers.  Edits come in
    the order of their times; from the first edit of the watched
    document on, every edit (of this or another document) comes before
    the pending call is due, so that all edits of the document fall
    into one debounce window, which each of them restarts.  Once the
    window has closed, the watcher has called [onChanged] exactly once,
    with the text left by the last edit of the document: through every
    view of the client that the other callbacks on the loop leave
    alone, the client is what one call with that text makes of it.  The
    window is the delay the timer runs with: the configured delay when
    it is from 1 to 2147483647 ms (500 ms unless configured), and 1 ms
    otherwise. *)
Theorem debounce_law {Client V : Type} (view : Client → V)
        (this : nat) (document : string) (delay : Z)
        (onChanged : Watcher.FileChangeCallback Client)
        (onError : option (Watcher.FileErrorCallback Client))
        (h : Watcher.Host Client) (c : Client)
        (edits : list (string * (Z * string))) (tn : Z) (xn : string) (T : Z) :
  let window := Js.setTimeoutDelay delay in
  Watcher.wellFormed h = true →
  Watcher.registered this document delay onChanged onError h →
  Watcher.othersKeep view this h →
  Watcher.inWindow window document (Watcher.now h) None edits →
  Watcher.lastOwn document None edits = Some (tn, xn) →
  (tn + window <= T)%Z →
  let final := Watcher.advanceTo T (Watcher.editMany edits (h, c)) in
  ∃ c', view c' = view c
        ∧ view (snd final)
          = view (Watcher.afterChange onChanged onError xn c').
Proof.
  intros window Hwf Hreg Hoth Hwin Hlast HT final.
  exact (debounce_shared view this document delay onChanged onError h c edits
           tn xn T Hwf Hreg Hoth Hwin Hlast HT).
Qed.

(** Two watchers on one loop; the first document is edited three times
    inside one window, the second twice meanwhile.  The first callback
    has recorded the last text, once. *)
Lemma debounce_law_two_watchers :
  let h := fst Sample.twoWatchers in
  let c := snd Sample.twoWatchers in
  let edits := [("file:///b.yaml", (0%Z, "swagger: 2.0"));
                ("file:///a.yaml", (10%Z, "openapi: 3.0.0"));
                ("file:///b.yaml", (100%Z, "swagger: 2.1"));
                ("file:///a.yaml", (200%Z, "openapi: 3.0.1"));
                ("file:///a.yaml", (300%Z, "openapi: 3.1.0"))] in
  let final := Watcher.advanceTo 800 (Watcher.editMany edits (h, c)) in
  (Watcher.wellFormed h = true
   ∧ Watcher.registered 0 "file:///a.yaml" 500 Sample.recordFirst None h
   ∧ Watcher.othersKeep fst 0 h
   ∧ Watcher.inWindow 500 "file:///a.yaml" (Watcher.now h) None edits
   ∧ Watcher.lastOwn "file:///a.yaml" None edits = Some (300%Z, "openapi: 3.1.0"))
  ∧ fst (snd final) = ["openapi: 3.1.0"].
Proof.
  intros h c edits final.
  assert (Hcl : Watcher.changeListeners h
                = [(1, Watcher.listenerOf 0 "file:///a.yaml" Sample.recordFirst None);
                   (5, Watcher.listenerOf 4 "file:///b.yaml" Sample.recordSecond None)]).
  { vm_compute. reflexivity. }
  assert (Htm : Watcher.timers h = []).
  { vm_compute. reflexivity. }
  assert (Hws : Watcher.watchers h !! 0
                = Some {| Watcher.disposables :=
                            [Watcher.ChangeSubscription 1;
                             Watcher.DeleteSubscription 3;
                             Watcher.FileSystemWatcher 2];
                          Watcher.debounceTimer := None;
                          Watcher.debounceDelay := 500 |}).
  { vm_compute. reflexivity. }
  assert (Hnow : Watcher.now h = 0%Z).
  { vm_compute. reflexivity. }
  assert (Hc : fst c = []).
  { vm_compute. reflexivity. }
  assert (H : Watcher.wellFormed h = true
   ∧ Watcher.registered 0 "file:///a.yaml" 500 Sample.recordFirst None h
   ∧ Watcher.othersKeep fst 0 h
   ∧ Watcher.inWindow 500 "file:///a.yaml" (Watcher.now h) None edits
   ∧ Watcher.lastOwn "file:///a.yaml" None edits = Some (300%Z, "openapi: 3.1.0")).
  { split; [vm_compute; reflexivity|]. split; [|split; [|split]].
    - unfold Watcher.registered. rewrite Hcl, Htm, Hws.
      split; [eexists; split; reflexivity|].
      split; [exists 1; left|]. split; [|constructor].
      constructor; [reflexivity|]. constructor; [|constructor].
      intros E. discriminate E.
    - unfold Watcher.othersKeep. rewrite Hcl, Htm. split; [|constructor].
      constructor; [intros E; now destruct E|].
      constructor; [|constructor]. intros _ x k. reflexivity.
    - rewrite Hnow. simpl. lia.
    - reflexivity. }
  split; [exact H|]. destruct H as (H1 & H2 & H3 & H4 & H5).
  destruct (debounce_law fst 0 "file:///a.yaml" 500 Sample.recordFirst None
              h c edits 300%Z "openapi: 3.1.0" 800%Z
              H1 H2 H3 H4 H5 ltac:(vm_compute; discriminate)) as (c' & Hv & Hfin).
  subst final. rewrite Hfin. unfold Watcher.afterChange, Sample.recordFirst.
  cbn [fst snd]. rewrite Hv, Hc. reflexivity.
Defined.

(** C8 fails as stated: with two registrations on one watcher, disposing
    the handle of the first also releases the subscriptions of the
    second, and an edit of the second document is not delivered any
    more. *)
Lemma dispose_one_handle_silences_other :
  let quiet : Watcher.FileChangeCallback unit := fun _ c => (Js.Normal tt, c) in
  let file name := {| Detection.fsPath := name; Detection.path := name;
                      Detection.uriString := "file://" ++ name |} in
  let (this, h0) := Watcher.newFileWatcher {| Watcher.optDebounceDelay := None |}
                      (Watcher.boot 0 ∅ None) in
  let '(r1, hc1) := Watcher.watch this (file "/a.yaml") quiet None None (h0, tt) in
  let '(r2, hc2) := Watcher.watch this (file "/b.yaml") quiet None None hc1 in
  let edit := Watcher.editDocument "file:///b.yaml" "swagger: 2.0" 10 in
  let untouched := Watcher.advanceTo 1000 (edit hc2) in
  let disposed :=
    (Watcher.disposeHandle {| Watcher.handleThis := this |} (fst hc2), snd hc2) in
  let after := Watcher.advanceTo 1000 (edit disposed) in
  r1 = Js.Normal {| Watcher.handleThis := this |}
  ∧ Watcher.active (Watcher.ChangeSubscription 4) (fst hc2) = true
  ∧ Watcher.delivered (Watcher.calls (fst untouched)) = ["swagger: 2.0"]
  ∧ Watcher.active (Watcher.ChangeSubscription 4) (fst disposed) = false
  ∧ Watcher.changeListeners (fst disposed) = []
  ∧ Watcher.deleteListeners (fst disposed) = []
  ∧ Watcher.delivered (Watcher.calls (fst after)) = [].
Proof. vm_compute. repeat split. Qed.

(** C8, amended. Disposing the handle returned by a [watch] call is
    disposing the watcher: every subscription the watcher holds, of all
    its registrations, is released, a pending debounced call is
    cancelled, and the watcher is left without subscriptions. *)
Theorem disposeHandle_releases_all {Client : Type}
        (h : Watcher.Host Client) (d : Watcher.WatchHandle)
        (fw : Watcher.FileWatcher) :
  Watcher.watchers h !! Watcher.handleThis d = Some fw →
  let h' := Watcher.disposeHandle d h in
  h' = Watcher.dispose (Watcher.handleThis d) h
  ∧ (∀ s, s ∈ Watcher.disposables fw → Watcher.active s h' = false)
  ∧ (∀ id, Watcher.debounceTimer fw = Some id → Watcher.pending id h' = false)
  ∧ Watcher.watchers h' !! Watcher.handleThis d
    = Some {| Watcher.disposables := []; Watcher.debounceTimer := None;
              Watcher.debounceDelay := Watcher.debounceDelay fw |}.
Proof.
  intros Hw h'. split; [reflexivity|].
  subst h'. unfold Watcher.disposeHandle, Watcher.dispose. rewrite Hw.
  destruct fw as [ds timer delay].
  cbn [Watcher.disposables Watcher.debounceTimer Watcher.debounceDelay].
  destruct timer as [tid|].
  - set (h1 := Watcher.setDebounceTimer _ None (Watcher.clearTimeout tid h)).
    assert (Hw1 : Watcher.watchers h1 !! Watcher.handleThis d
                  = Some {| Watcher.disposables := ds;
                            Watcher.debounceTimer := None;
                            Watcher.debounceDelay := delay |}).
    { subst h1. unfold Watcher.setDebounceTimer. cbn. rewrite Hw. cbn.
      apply lookup_insert_eq. }
    assert (Ht1 : Watcher.pending tid h1 = false).
    { subst h1. unfold Watcher.setDebounceTimer. cbn. rewrite Hw. cbn.
      apply existsb_withoutId_same. }
    destruct (release_all_frame ds h1) as [Ht Hws].
    rewrite Hws, Hw1. cbn. repeat split.
    + intros s Hs. rewrite active_setWatchers. apply active_release_all. now left.
    + intros id [= <-]. unfold Watcher.pending. cbn. rewrite Ht. exact Ht1.
    + apply lookup_insert_eq.
  - destruct (release_all_frame ds h) as [Ht Hws].
    rewrite Hws, Hw. cbn. repeat split.
    + intros s Hs. rewrite active_setWatchers. apply active_release_all. now left.
    + intros id [=].
    + apply lookup_insert_eq.
Qed.

(** ** Preview coordinator *)

Section SteadyFacts.
Import Js Detection Reader Webview Manager.

Lemma steady_refl a : steady a a.
Proof. unfold steady. repeat split. Qed.

Lemma steady_trans a b c : steady a b → steady b c → steady a c.
Proof.
  unfold steady. intros (?&?&?&?&?&?&?&Hb) (?&?&?&?&?&?&?&Hc).
  repeat split; try congruence.
Qed.

Lemma steady_notify n a : steady a (notify n a).
Proof. unfold steady. repeat split. Qed.

Lemma steady_setPanels_core (a : Window) p wp wp' :
  panels a !! p = Some wp → core wp' = core wp →
  steady a (setPanels (<[p := wp']> (panels a)) a).
Proof.
  intros Hp Hcore. unfold steady. cbn. repeat split. intros q.
  destruct (decide (p = q)) as [->|Hne].
  - rewrite lookup_insert_eq, Hp. cbn. now rewrite Hcore.
  - now rewrite lookup_insert_ne.
Qed.

Lemma steady_postMessage p m a : steady a (postMessage p m a).
Proof.
  unfold postMessage. destruct (panels a !! p) as [wp|] eqn:Hp;
    [|apply steady_refl].
  now apply (steady_setPanels_core a p wp).
Qed.

Lemma steady_setHtml p x a : steady a (setHtml p x a).
Proof.
  unfold setHtml. destruct (panels a !! p) as [wp|] eqn:Hp;
    [|apply steady_refl].
  now apply (steady_setPanels_core a p wp).
Qed.

End SteadyFacts.

Ltac steady :=
  repeat first
    [ apply steady_refl
    | eapply steady_trans; [|apply steady_notify]
    | eapply steady_trans; [|apply steady_setHtml]
    | eapply steady_trans; [|apply steady_postMessage] ].

(** Runs [createPreview] up to the reading of the document, for a host
    that creates the panel. *)
Ltac run_createPreview Hc :=
  unfold Manager.createPreview; cbn [Manager.client Manager.window];
  unfold Manager.createWebviewPanel; rewrite Hc;
  cbn -[Watcher.watch Manager.getDocumentTitle Manager.panelTitle
        Reader.readFromDocument Server.registerContent Manager.setHtml
        Manager.notify];
  match goal with
  | |- context [Watcher.watch ?t ?u ?a ?b ?c (?h, ?cl)] =>
      let Hw := fresh "Hw" in
      pose proof (watch_outcome t u a b c h cl) as Hw;
      destruct (Watcher.watch t u a b c (h, cl)) as [res [h' c']];
      cbn in Hw;
      destruct (Watcher.createFileSystemWatcherThrows _);
      destruct Hw as [-> ->]
  end.

Section CreateFacts.
Import Js Detection Reader Webview Manager.

Lemma steady_created title col (win : Window) :
  createWebviewPanelThrows win = None →
  let r := createWebviewPanel title col win in
  fst r = Normal (nextPanel win)
  ∧ panelRequests (snd r) = (panelRequests win ++ [(title, col)])%list
  ∧ core <$> (panels (snd r) !! nextPanel win)
    = Some (title, col, newPanelViewColumn win, newPanelRevealThrows win)
  ∧ createWebviewPanelThrows (snd r) = None
  ∧ newPanelViewColumn (snd r) = newPanelViewColumn win
  ∧ newPanelRevealThrows (snd r) = newPanelRevealThrows win
  ∧ activeTextEditor (snd r) = activeTextEditor win
  ∧ previewColumn (snd r) = previewColumn win
  ∧ nextPanel (snd r) = S (nextPanel win).
Proof.
  intros Hc. unfold createWebviewPanel. rewrite Hc. cbn.
  rewrite lookup_insert_eq. repeat split.
Qed.

Lemma createPreview_ok (doc : TextDocument) (col : ViewColumn) (w : World) :
  createWebviewPanelThrows (window (client w)) = None →
  let r := createPreview doc col w in
  let p := nextPanel (window (client w)) in
  fst r = Normal tt
  ∧ previews (snd r)
    = <[uriString (uri doc) :=
          {| panel := p; document := doc; disposables := nextRef w;
             fileWatcher := Watcher.nextId (loop w); lastViewColumn := col |}]>
        (previews w)
  ∧ lastColumnPositions (snd r)
    = <[uriString (uri doc) := col]> (lastColumnPositions w)
  ∧ steady (snd (createWebviewPanel (panelTitle doc) col
                                    (window (client w))))
           (window (client (snd r))).
Proof.
  intros Hc r p.
  assert (Hwin : ∀ x, snd (createWebviewPanel (panelTitle doc)
                             col (window (client w))) = x →
                      fst r = Normal tt
                      ∧ previews (snd r) = <[uriString (uri doc) :=
          {| panel := p; document := doc; disposables := nextRef w;
             fileWatcher := Watcher.nextId (loop w); lastViewColumn := col |}]>
        (previews w)
                      ∧ lastColumnPositions (snd r)
                        = <[uriString (uri doc) := col]> (lastColumnPositions w)
                      ∧ steady x (window (client (snd r)))); [|now apply Hwin].
  subst r p. destruct w as [h [win srv] arrs nref pls prevs lcp].
  cbn [client window] in Hc. cbn [client window loop nextRef previews lastColumnPositions].
  intros x. unfold createWebviewPanel at 1. rewrite Hc. cbn [snd]. intros <-.
  run_createPreview Hc.
  all: destruct (getText doc) as [[|ch text]|e'] eqn:G;
    unfold readFromDocument; rewrite G;
    cbn -[setHtml notify postMessage getDocumentTitle panelTitle Server.registerContent];
    (split; [reflexivity | split; [reflexivity | split; [reflexivity|]]]);
    steady.
Qed.

Lemma disposeAll_frame (l : list Disposable) :
  ∀ w : World,
    let w' := foldl (fun w d => disposeOne d w) w l in
    client w' = client w ∧ previews w' = previews w
    ∧ lastColumnPositions w' = lastColumnPositions w.
Proof.
  induction l as [|d l IH]; intros w; cbn [foldl]; [auto|].
  destruct (IH (disposeOne d w)) as (-> & -> & ->). destruct d; auto.
Qed.

(** What [disposePreview] does to the coordinator's maps and what it
    leaves of the window. *)
Lemma disposePreview_effect (documentUri : string) (w : World) :
  let w' := disposePreview documentUri w in
  previews w' = delete documentUri (previews w)
  ∧ window (client w') = window (client w)
  ∧ lastColumnPositions w'
    = match previews w !! documentUri with
      | Some preview =>
          match panelViewColumn (panel preview) (window (client w)) with
          | Normal (Some c) => <[documentUri := c]> (lastColumnPositions w)
          | _ => lastColumnPositions w
          end
      | None => lastColumnPositions w
      end.
Proof.
  unfold disposePreview.
  destruct (previews w !! documentUri) as [preview|] eqn:Hp.
  - destruct (panelViewColumn _ _) as [[c|]|e]; cbn [setPreviews previews client
      window lastColumnPositions]; try (repeat split; reflexivity).
    + match goal with
      | |- context [foldl _ ?w0 ?l] =>
          destruct (disposeAll_frame l w0) as (Hc & Hpv & Hl)
      end.
      cbn [foldl] in *. rewrite Hc, Hpv, Hl. repeat split.
    + match goal with
      | |- context [foldl _ ?w0 ?l] =>
          destruct (disposeAll_frame l w0) as (Hc & Hpv & Hl)
      end.
      cbn [foldl] in *. rewrite Hc, Hpv, Hl. repeat split.
  - repeat split. symmetry. now apply delete_id.
Qed.

Lemma createPreview_throws (doc : TextDocument) (col : ViewColumn) (w : World)
      (e : Thrown) :
  createWebviewPanelThrows (window (client w)) = Some e →
  let r := createPreview doc col w in
  fst r = Throw e
  ∧ previews (snd r) = delete (uriString (uri doc)) (previews w)
  ∧ panelRequests (window (client (snd r)))
    = (panelRequests (window (client w))
       ++ [(panelTitle doc, col)])%list.
Proof.
  intros Hc. unfold createPreview, createWebviewPanel. rewrite Hc.
  unfold createPreviewFailed. cbn [fst snd].
  match goal with
  | |- context [disposePreview ?u ?w0] =>
      destruct (disposePreview_effect u w0) as (-> & -> & _)
  end.
  repeat split.
Qed.

Lemma createPreview_requests (doc : TextDocument) (col : ViewColumn) (w : World) :
  panelRequests (window (client (snd (createPreview doc col w))))
  = (panelRequests (window (client w))
     ++ [(panelTitle doc, col)])%list.
Proof.
  destruct (createWebviewPanelThrows (window (client w))) as [e|] eqn:Hc.
  - now destruct (createPreview_throws doc col w e Hc) as (_ & _ & ->).
  - destruct (createPreview_ok doc col w Hc) as (_ & _ & _ & Hs).
    destruct Hs as (_ & _ & _ & _ & _ & _ & -> & _).
    now destruct (steady_created (panelTitle doc) col _ Hc)
      as (_ & -> & _).
Qed.

Lemma truthyColumn_Some (c : ViewColumn) : truthyColumn (Some c) = true.
Proof. destruct c; reflexivity. Qed.

Lemma reveal_outcome (p : nat) (col : ViewColumn) (win : Window) wp :
  panels win !! p = Some wp →
  let r := reveal p col win in
  match revealThrows wp with
  | Some e => r = (Throw e, win)
  | None =>
      fst r = Normal tt
      ∧ panelRequests (snd r) = panelRequests win
      ∧ nextPanel (snd r) = nextPanel win
      ∧ shownIn <$> (panels (snd r) !! p) = Some col
  end.
Proof.
  intros Hp. unfold reveal. rewrite Hp.
  destruct (revealThrows wp); [reflexivity|]. cbn.
  rewrite lookup_insert_eq. repeat split.
Qed.
End CreateFacts.

Section Coordinator.
Import Js Detection Reader Webview Manager.

Lemma core_shownIn (x : option WebviewPanel) t c v r :
  core <$> x = Some (t, c, v, r) → shownIn <$> x = Some c.
Proof. destruct x as [wp|]; cbn; [|discriminate]. now intros [= _ -> _ _]. Qed.

Lemma core_revealThrows (x : option WebviewPanel) t c v r :
  core <$> x = Some (t, c, v, r) → ∃ wp, x = Some wp ∧ revealThrows wp = r.
Proof. destruct x as [wp|]; cbn; [|discriminate]. intros [= _ _ _ <-]. eauto. Qed.

(** A preview created for a document without session. *)
Lemma createOrShowPreview_new (doc : TextDocument) (column : option ViewColumn)
      (w : World) :
  previews w !! uriString (uri doc) = None →
  createOrShowPreview doc column w
  = createPreview doc
      (orColumn (orElse column (lastColumnPositions w !! uriString (uri doc)))
                (getPreviewColumn w)) w.
Proof. intros H. unfold createOrShowPreview. now rewrite H. Qed.
End Coordinator.

Section RevealFacts.
Import Js Detection Reader Webview Manager.

Lemma setClient_same (w : World) :
  setClient (setWindow (window (client w)) (client w)) w = w.
Proof. destruct w as [h [win srv] arrs nref pls prevs lcp]. reflexivity. Qed.

(** A second request for a document with a session: the panel is
    revealed and the session kept; when the panel cannot be revealed,
    the session is disposed and a new one created. *)
Lemma createOrShowPreview_existing (doc : TextDocument)
      (column : option ViewColumn) (w : World)
      (existing : PreviewPanel) (wp : WebviewPanel) :
  previews w !! uriString (uri doc) = Some existing →
  panels (window (client w)) !! panel existing = Some wp →
  let r := createOrShowPreview doc column w in
  match revealThrows wp with
  | None =>
      fst r = Normal tt
      ∧ previews (snd r) = previews w
      ∧ panelRequests (window (client (snd r))) = panelRequests (window (client w))
  | Some _ =>
      let w1 := disposePreview (uriString (uri doc)) w in
      r = createPreview doc
            (orColumn (orElse column (lastColumnPositions w1 !! uriString (uri doc)))
                      (getPreviewColumn w1)) w1
  end.
Proof.
  intros Hs Hwp. unfold createOrShowPreview. rewrite Hs.
  pose proof (reveal_outcome (panel existing)
                (orColumn column (lastViewColumn existing)) _ wp Hwp) as Hr.
  cbv zeta in Hr. destruct (revealThrows wp) as [e|].
  - rewrite Hr. cbv zeta. now rewrite setClient_same.
  - destruct (reveal _ _ _) as [[[]|e] win]; cbn [fst snd] in *;
      destruct Hr as (Hn & Hreq & _); [|discriminate].
    repeat split. exact Hreq.
Qed.
End RevealFacts.

Section TwiceFacts.
Import Js Detection Reader Webview Manager.



End TwiceFacts.



(** C5. When the session of a document is disposed while its panel
    reports the column [c], that column is saved, and a later
    [createOrShowPreview] without column argument asks the host for a
    panel in column [c], whatever the active editor and the configured
    default are; the new session starts in [c]. *)
Theorem reopen_restores_column
        (doc : Detection.TextDocument) (w : Manager.World)
        (session : Manager.PreviewPanel) (c : Manager.ViewColumn) :
  let documentUri := Detection.uriString (Detection.uri doc) in
  Manager.previews w !! documentUri = Some session →
  Manager.panelViewColumn (Manager.panel session)
                          (Manager.window (Manager.client w))
  = Js.Normal (Some c) →
  let w1 := Manager.disposePreview documentUri w in
  let r := Manager.createOrShowPreview doc None w1 in
  Manager.previews w1 !! documentUri = None
  ∧ Manager.lastColumnPositions w1 !! documentUri = Some c
  ∧ Manager.panelRequests (Manager.window (Manager.client (snd r)))
    = (Manager.panelRequests (Manager.window (Manager.client w))
       ++ [(Manager.panelTitle doc, c)])%list
  ∧ (fst r = Js.Normal tt →
     ∃ session',
       Manager.previews (snd r) !! documentUri = Some session'
       ∧ Manager.lastViewColumn session' = c
       ∧ Manager.shownIn
           <$> (Manager.panels (Manager.window (Manager.client (snd r)))
                  !! Manager.panel session') = Some c
       ∧ Manager.lastColumnPositions (snd r) !! documentUri = Some c).
Proof.
  intros documentUri Hs Hcol w1 r.
  destruct (disposePreview_effect documentUri w) as (Hpv & Hwin & Hlc).
  fold w1 in Hpv, Hwin, Hlc. rewrite Hs, Hcol in Hlc.
  assert (Hnone : Manager.previews w1 !! documentUri = None)
    by (rewrite Hpv; apply lookup_delete_eq).
  assert (Hmem : Manager.lastColumnPositions w1 !! documentUri = Some c)
    by (rewrite Hlc; apply lookup_insert_eq).
  split; [exact Hnone|]. split; [exact Hmem|].
  subst r. clearbody w1. subst documentUri.
  rewrite (createOrShowPreview_new doc None w1 Hnone), Hmem.
  change (Manager.orElse None (Some c)) with (Some c).
  assert (Hc : Manager.orColumn (Some c) (Manager.getPreviewColumn w1) = c)
    by (unfold Manager.orColumn; now rewrite truthyColumn_Some).
  rewrite Hc. rewrite createPreview_requests, Hwin. split; [reflexivity|].
  intros Hn.
  destruct (Manager.createWebviewPanelThrows (Manager.window (Manager.client w1)))
    as [e|] eqn:Hthr.
  { destruct (createPreview_throws doc c w1 e Hthr) as (Hf & _).
    rewrite Hf in Hn. discriminate. }
  destruct (createPreview_ok doc c w1 Hthr) as (_ & Hpv2 & Hlc2 & Hst).
  destruct (steady_created (Manager.panelTitle doc) c _ Hthr)
    as (_ & _ & Hcore & _).
  destruct Hst as (_ & _ & _ & _ & _ & _ & _ & Hpanels).
  rewrite <- Hpanels in Hcore.
  eexists. rewrite Hpv2, Hlc2, !lookup_insert_eq.
  split; [reflexivity|]. split; [reflexivity|]. split; [|reflexivity].
  cbn [Manager.panel]. exact (core_shownIn _ _ _ _ _ Hcore).
Qed.

Section ColumnMemory.
Import Js Detection Reader Webview Manager.

Lemma tracked_frame (w w' : World) :
  previews w' = previews w → lastColumnPositions w' = lastColumnPositions w →
  tracked w → tracked w'.
Proof. unfold tracked. intros -> ->. auto. Qed.

Lemma tracked_create h win bound : tracked (Manager.create h win bound).
Proof.
  unfold Manager.create. destruct (Server.start bound Server.create).
  intros u s H. cbn in H. now rewrite lookup_empty in H.
Qed.

Lemma tracked_disposePreview (documentUri : string) (w : World) :
  tracked w → tracked (disposePreview documentUri w).
Proof.
  intros Ht u s Hs.
  destruct (disposePreview_effect documentUri w) as (Hpv & _ & Hlc).
  rewrite Hpv in Hs. rewrite Hlc.
  destruct (decide (u = documentUri)) as [->|Hne].
  - now rewrite lookup_delete_eq in Hs.
  - rewrite lookup_delete_ne in Hs by congruence.
    destruct (previews w !! documentUri) as [pv|]; [|now apply Ht].
    destruct (panelViewColumn _ _) as [[c|]|e]; try now apply Ht.
    rewrite lookup_insert_ne by congruence. now apply Ht.
Qed.

Lemma tracked_createPreview (doc : TextDocument) (col : ViewColumn) (w : World) :
  tracked w → tracked (snd (createPreview doc col w)).
Proof.
  intros Ht.
  destruct (createWebviewPanelThrows (window (client w))) as [e|] eqn:Hc.
  - unfold createPreview, createWebviewPanel. rewrite Hc.
    unfold createPreviewFailed. cbn [snd].
    apply tracked_disposePreview. revert Ht. now apply tracked_frame.
  - destruct (createPreview_ok doc col w Hc) as (_ & Hpv & Hlc & _).
    intros u s Hs. rewrite Hpv in Hs. rewrite Hlc.
    destruct (decide (u = uriString (uri doc))) as [->|Hne].
    + rewrite lookup_insert_eq in Hs. injection Hs as <-.
      now rewrite lookup_insert_eq.
    + rewrite lookup_insert_ne in Hs by congruence.
      rewrite lookup_insert_ne by congruence. now apply Ht.
Qed.

Lemma tracked_createOrShowPreview (doc : TextDocument) column (w : World) :
  tracked w → tracked (snd (createOrShowPreview doc column w)).
Proof.
  intros Ht. unfold createOrShowPreview.
  destruct (previews w !! uriString (uri doc)) as [existing|].
  - destruct (reveal _ _ _) as [[[]|e] win].
    + revert Ht. now apply tracked_frame.
    + cbv zeta. apply tracked_createPreview, tracked_disposePreview.
      revert Ht. now apply tracked_frame.
  - now apply tracked_createPreview.
Qed.

Lemma tracked_updatePreview (doc : TextDocument) (w : World) :
  tracked w → tracked (updatePreview doc w).
Proof.
  unfold updatePreview. destruct (previews w !! _); [|auto].
  destruct (_ || _); now apply tracked_frame.
Qed.

Lemma tracked_onDidChangeViewState (documentUri : string) (p : nat) (w : World) :
  tracked w → tracked (snd (onDidChangeViewState documentUri p w)).
Proof.
  intros Ht. unfold onDidChangeViewState.
  destruct (panelViewColumn _ _) as [[c|]|e]; try exact Ht.
  destruct (previews w !! documentUri) as [pv|] eqn:Hp; [|exact Ht].
  intros u s Hs. cbn in *.
  destruct (decide (u = documentUri)) as [->|Hne].
  - rewrite lookup_insert_eq in Hs. injection Hs as <-.
    now rewrite lookup_insert_eq.
  - rewrite lookup_insert_ne in Hs by congruence.
    rewrite lookup_insert_ne by congruence. now apply Ht.
Qed.

Lemma tracked_firePanelEvent kind (p : nat) (w : World) :
  tracked w → tracked (firePanelEvent kind p w).
Proof.
  unfold firePanelEvent. generalize (panelListeners w) as l.
  intros l. revert w. induction l as [|e l IH]; intros w Ht; [exact Ht|].
  cbn [foldl]. apply IH. destruct (_ && _); [|exact Ht].
  destruct (snd (snd e)) as [u|u|]; cbn [runPanelListener].
  - now apply tracked_disposePreview.
  - now apply tracked_onDidChangeViewState.
  - exact Ht.
Qed.

(** Column Memory follows the sessions in every world the coordinator
    can be in. *)
Lemma reachable_tracked (w : World) : reachable w → tracked w.
Proof.
  induction 1.
  - apply tracked_create.
  - now apply tracked_createOrShowPreview.
  - now apply tracked_updatePreview.
  - now apply tracked_firePanelEvent.
  - now apply tracked_firePanelEvent.
  - eapply tracked_frame; eauto.
Qed.

(** Closing and reopening restores the column the session reported
    last, also when the panel gives no column at disposal or cannot be
    asked any more. *)
Lemma reopen_restores_last_reported (doc : TextDocument) (w : World)
      (session : PreviewPanel) :
  reachable w →
  previews w !! uriString (uri doc) = Some session →
  let w1 := disposePreview (uriString (uri doc)) w in
  let r := createOrShowPreview doc None w1 in
  lastColumnPositions w1 !! uriString (uri doc) = Some (lastReported session w)
  ∧ panelRequests (window (client (snd r)))
    = (panelRequests (window (client w))
       ++ [(panelTitle doc, lastReported session w)])%list.
Proof.
  intros Hreach Hs w1 r. pose proof (reachable_tracked w Hreach _ _ Hs) as Hmem0.
  destruct (disposePreview_effect (uriString (uri doc)) w) as (Hpv & Hwin & Hlc).
  fold w1 in Hpv, Hwin, Hlc. rewrite Hs in Hlc.
  assert (Hmem : lastColumnPositions w1 !! uriString (uri doc)
                 = Some (lastReported session w)).
  { rewrite Hlc. unfold lastReported.
    destruct (panelViewColumn _ _) as [[c|]|e]; try exact Hmem0.
    apply lookup_insert_eq. }
  split; [exact Hmem|].
  assert (Hnone : previews w1 !! uriString (uri doc) = None)
    by (rewrite Hpv; apply lookup_delete_eq).
  subst r. clearbody w1.
  rewrite (createOrShowPreview_new doc None w1 Hnone), Hmem.
  change (orElse None (Some (lastReported session w)))
    with (Some (lastReported session w)).
  unfold orColumn. rewrite truthyColumn_Some.
  now rewrite createPreview_requests, Hwin.
Qed.

End ColumnMemory.

Section ContentFacts.
Import Js Detection Reader Webview Manager.

Lemma setHtml_html (p : nat) (x : Html) (win : Window) :
  is_Some (panels win !! p) →
  html <$> (panels (setHtml p x win) !! p) = Some (Some x).
Proof.
  intros [wp Hwp]. unfold setHtml. rewrite Hwp. cbn.
  now rewrite lookup_insert_eq.
Qed.

Lemma postMessage_posted (p : nat) (m : Message) (win : Window) wp :
  panels win !! p = Some wp →
  posted <$> (panels (postMessage p m win) !! p) = Some (posted wp ++ [m])%list.
Proof.
  intros Hwp. unfold postMessage. rewrite Hwp. cbn.
  now rewrite lookup_insert_eq.
Qed.

Lemma postMessage_is_Some (p q : nat) (m : Message) (win : Window) :
  is_Some (panels win !! q) → is_Some (panels (postMessage p m win) !! q).
Proof.
  intros Hq. unfold postMessage. destruct (panels win !! p) eqn:Hp; [|exact Hq].
  cbn. destruct (decide (p = q)) as [->|Hne].
  - rewrite lookup_insert_eq. eauto.
  - now rewrite lookup_insert_ne.
Qed.

(** The preview-creation path stores the text it read, whatever its
    length, when it is not empty. *)
Lemma createPreview_content (doc : TextDocument) (col : ViewColumn) (w : World)
      (text : string) :
  getText doc = Normal text → text ≠ "" →
  createWebviewPanelThrows (window (client w)) = None →
  let r := createPreview doc col w in
  let reg := Server.registerContent (uriString (uri doc)) text
                                    (httpServer (client w)) in
  httpServer (client (snd r)) = snd reg
  ∧ html <$> (panels (window (client (snd r))) !! nextPanel (window (client w)))
    = Some (Some (getHtmlContent (fst reg) None)).
Proof.
  intros G Hne Hc r reg. subst r reg.
  destruct w as [h [win srv] arrs nref pls prevs lcp].
  cbn [client window httpServer] in *.
  run_createPreview Hc.
  all: unfold readFromDocument; rewrite G;
    destruct text as [|ch text]; [contradiction|];
    cbn -[setHtml notify postMessage getDocumentTitle panelTitle
          Server.registerContent];
    (split; [reflexivity|]); apply setHtml_html;
    try apply postMessage_is_Some; cbn; rewrite lookup_insert_eq; eauto.
Qed.
End ContentFacts.

Section UpdateFacts.
Import Js Detection Reader Webview Manager.

(** The preview-update path posts the text it read, whatever its
    length, when it is not empty. *)
Lemma updatePreview_posts (doc : TextDocument) (w : World)
      (session : PreviewPanel) (wp : WebviewPanel) (text : string) :
  getText doc = Normal text → text ≠ "" →
  previews w !! uriString (uri doc) = Some session →
  panels (window (client w)) !! panel session = Some wp →
  posted <$> (panels (window (client (updatePreview doc w))) !! panel session)
  = Some (posted wp ++ [UpdateMessage text (Watcher.now (loop w))])%list.
Proof.
  intros G Hne Hs Hwp. unfold updatePreview, readFromDocument.
  rewrite Hs, G. destruct text as [|ch text]; [contradiction|].
  cbn -[postMessage]. now apply postMessage_posted.
Qed.
End UpdateFacts.


(** The sample document previewed in column two, moved by the user to
    column three, closed and opened again. *)
Lemma reopen_restores_column_sample :
  let w :=
    snd (Manager.createOrShowPreview Sample.petstore (Some Manager.Two)
           (Sample.world (Some Manager.Three))) in
  let documentUri := "file:///t/petstore.yaml" in
  let session :=
    {| Manager.panel := 0; Manager.document := Sample.petstore;
       Manager.disposables := 0; Manager.fileWatcher := 0;
       Manager.lastViewColumn := Manager.Two |} in
  let w1 := Manager.disposePreview documentUri w in
  let r := Manager.createOrShowPreview Sample.petstore None w1 in
  (Manager.previews w !! documentUri = Some session
   ∧ Manager.panelViewColumn 0 (Manager.window (Manager.client w))
     = Js.Normal (Some Manager.Three))
  ∧ Manager.lastColumnPositions w1 !! documentUri = Some Manager.Three
  ∧ Manager.panelRequests (Manager.window (Manager.client (snd r)))
    = [("Preview: petstore.yaml", Manager.Two);
       ("Preview: petstore.yaml", Manager.Three)].
Proof.
  intros w documentUri session w1 r.
  assert (H : Manager.previews w !! documentUri = Some session
              ∧ Manager.panelViewColumn 0 (Manager.window (Manager.client w))
                = Js.Normal (Some Manager.Three)).
  { vm_compute. split; reflexivity. }
  split; [exact H|]. destruct H as (H0 & H1).
  destruct (reopen_restores_column Sample.petstore w session Manager.Three H0 H1)
    as (_ & Hmem & Hreq & _).
  split; [exact Hmem|]. exact Hreq.
Defined.

(** The sample watcher with two registrations, disposed through the
    handle of the first. *)
Lemma disposeHandle_releases_all_sample :
  let h := fst Sample.twoRegistrations in
  let d := {| Watcher.handleThis := 0 |} in
  let fw :=
    {| Watcher.disposables :=
         [Watcher.ChangeSubscription 1; Watcher.DeleteSubscription 3;
          Watcher.FileSystemWatcher 2; Watcher.ChangeSubscription 4;
          Watcher.DeleteSubscription 6; Watcher.FileSystemWatcher 5];
       Watcher.debounceTimer := Some 7; Watcher.debounceDelay := 500 |} in
  Watcher.watchers h !! 0 = Some fw
  ∧ Watcher.active (Watcher.ChangeSubscription 4) h = true
  ∧ Watcher.pending 7 h = true
  ∧ Watcher.active (Watcher.ChangeSubscription 4) (Watcher.disposeHandle d h)
    = false
  ∧ Watcher.pending 7 (Watcher.disposeHandle d h) = false.
Proof.
  intros h d fw.
  assert (H : Watcher.watchers h !! Watcher.handleThis d = Some fw)
    by (vm_compute; reflexivity).
  split; [exact H|]. split; [vm_compute; reflexivity|].
  split; [vm_compute; reflexivity|].
  destruct (disposeHandle_releases_all h d fw H) as (_ & Hact & Hpend & _).
  split.
  - apply Hact. cbn. repeat constructor.
  - now apply Hpend.
Defined.

(** C10. The code on a document of length zero: [readFromDocument]
    succeeds with the empty text, as the claim says, but the
    preview-creation path then takes the branch meant for a failed
    read: nothing is registered with the server and the panel shows
    the words Failed to read file content; the preview-update path
    posts the same error.  The callback that the same function gives
    to the watcher makes no such test: it registers the empty text. *)
Lemma createPreview_empty_document :
  let w := Sample.world None in
  let r := Manager.createPreview Sample.blank Manager.Two w in
  let w' :=
    Manager.updatePreview Sample.blank
      (snd (Manager.createPreview Sample.blank Manager.Two w)) in
  let edited :=
    snd (Manager.onFileChanged "file:///t/blank.yaml" 0 ""
           (Manager.client (snd r))) in
  Reader.readFromDocument Sample.blank = Reader.succeed ""
  ∧ fst r = Js.Normal tt
  ∧ Server.contentMap (Manager.httpServer (Manager.client (snd r))) = ∅
  ∧ Manager.html <$> (Manager.panels (Manager.window (Manager.client (snd r))) !! 0)
    = Some (Some (Webview.getHtmlContent "about:blank"
                    (Some "Failed to read file content")))
  ∧ Manager.posted <$> (Manager.panels (Manager.window (Manager.client w')) !! 0)
    = Some [Manager.ErrorMessage "Failed to read file content"]
  ∧ Server.contentMap (Manager.httpServer edited)
      !! Server.docId "file:///t/blank.yaml" = Some "".
Proof. vm_compute. repeat split. Qed.

(** For every other text the two paths take what they read.
    [readFromDocument] answers with the full text of the document and
    applies no size check: nothing in the statement bounds the length
    of [text].  When the text is not empty, the preview-creation path
    registers exactly that text with the server and points the view at
    its URL, and the preview-update path posts exactly that text to the
    view. *)
Theorem readFromDocument_no_ceiling
        (doc : Detection.TextDocument) (text : string)
        (col : Manager.ViewColumn) (w : Manager.World) :
  Detection.getText doc = Js.Normal text →
  Reader.readFromDocument doc = Reader.succeed text
  ∧ (text ≠ "" →
     (Manager.createWebviewPanelThrows (Manager.window (Manager.client w)) = None →
      let r := Manager.createPreview doc col w in
      let reg :=
        Server.registerContent (Detection.uriString (Detection.uri doc)) text
                               (Manager.httpServer (Manager.client w)) in
      Manager.httpServer (Manager.client (snd r)) = snd reg
      ∧ Server.contentMap (Manager.httpServer (Manager.client (snd r)))
          !! Server.docId (Detection.uriString (Detection.uri doc)) = Some text
      ∧ Manager.html
          <$> (Manager.panels (Manager.window (Manager.client (snd r)))
                 !! Manager.nextPanel (Manager.window (Manager.client w)))
        = Some (Some (Webview.getHtmlContent (fst reg) None)))
     ∧ (∀ session wp,
          Manager.previews w !! Detection.uriString (Detection.uri doc)
          = Some session →
          Manager.panels (Manager.window (Manager.client w))
            !! Manager.panel session = Some wp →
          Manager.posted
            <$> (Manager.panels
                   (Manager.window (Manager.client (Manager.updatePreview doc w)))
                   !! Manager.panel session)
          = Some (Manager.posted wp
                  ++ [Manager.UpdateMessage text (Watcher.now (Manager.loop w))])%list)).
Proof.
  intros G. split.
  - unfold Reader.readFromDocument. now rewrite G.
  - intros Hne. split.
    + intros Hc r reg.
      destruct (createPreview_content doc col w text G Hne Hc) as (Hsrv & Hhtml).
      split; [exact Hsrv|]. split; [|exact Hhtml].
      fold r in Hsrv. rewrite Hsrv. subst reg. cbn. apply lookup_insert_eq.
    + intros session wp Hs Hwp.
      now apply (updatePreview_posts doc w session wp text).
Qed.

(** The sample document, created and then refreshed. *)
Lemma readFromDocument_no_ceiling_sample :
  let w := Sample.world None in
  let r := Manager.createPreview Sample.petstore Manager.Two w in
  Detection.getText Sample.petstore = Js.Normal "openapi: 3.0.0"
  ∧ Reader.readFromDocument Sample.petstore = Reader.succeed "openapi: 3.0.0"
  ∧ Server.contentMap (Manager.httpServer (Manager.client (snd r)))
      !! Server.docId "file:///t/petstore.yaml" = Some "openapi: 3.0.0".
Proof.
  intros w r.
  assert (G : Detection.getText Sample.petstore = Js.Normal "openapi: 3.0.0")
    by reflexivity.
  split; [exact G|].
  destruct (readFromDocument_no_ceiling Sample.petstore "openapi: 3.0.0"
              Manager.Two w G) as (Hread & Hrest).
  split; [exact Hread|].
  destruct (Hrest ltac:(discriminate)) as (Hcreate & _).
  destruct (Hcreate ltac:(reflexivity)) as (_ & Hmap & _).
  exact Hmap.
Defined.

(** * Further properties of the code *)

(** ** More on strings *)

Section MoreStringFacts.
Import Js.

Lemma allChars_app p (a b : string) :
  allChars p (a ++ b) = allChars p a && allChars p b.
Proof.
  induction a as [|c a IH]; [now rewrite app_nil_l|].
  rewrite app_cons. cbn. now rewrite IH, andb_assoc.
Qed.

Lemma takeWhile_app p (a b : string) :
  allChars p a = true → takeWhile p (a ++ b) = a ++ takeWhile p b.
Proof.
  induction a as [|c a IH]; intros H; [now rewrite !app_nil_l|].
  cbn in H. apply andb_true_iff in H as [Hc Ha].
  rewrite !app_cons. cbn. now rewrite Hc, IH.
Qed.

End MoreStringFacts.

(** ** The version marker, spelled out *)

Section MarkerFacts.
Import Js Regex Detection.

Lemma matches_Opt_Class p s :
  matches (Opt (Class p)) s → allChars p s = true.
Proof.
  intros H. apply matches_Alt in H as [H|H].
  - apply matches_Class in H as (c & -> & Hc). cbn. now rewrite Hc.
  - apply matches_Eps in H as ->. reflexivity.
Qed.

Lemma matches_Star_Class p s :
  matches (Star (Class p)) s → allChars p s = true.
Proof.
  intros H. remember (Star (Class p)) as r eqn:Er.
  induction H; try discriminate; [reflexivity|].
  injection Er as ->.
  apply matches_Class in H as (c' & [= -> ->] & Hc).
  rewrite app_cons, app_nil_l. cbn. rewrite Hc. now apply IHmatches2.
Qed.

Lemma lowerChar_lower (c : ascii) : isLower c = true → lowerChar c = c.
Proof.
  intros H. unfold lowerChar, hasLowerForm.
  unfold isLower, isUpper, inRange in *.
  destruct ((65 <=? code c)%N && (code c <=? 90)%N) eqn:E1; cbn.
  { apply andb_true_iff in E1 as [A B], H as [C D].
    apply N.leb_le in A, B, C, D. lia. }
  destruct ((192 <=? code c)%N && (code c <=? 222)%N) eqn:E2; cbn; [|reflexivity].
  apply andb_true_iff in E2 as [A B], H as [C D].
  apply N.leb_le in A, B, C, D. lia.
Qed.

Lemma Lit_lowerChar (c x : ascii) :
  matches (Lit true c) (String x "") → lowerChar x = lowerChar c.
Proof.
  intros H. apply matches_Class in H as (y & [= <-] & Hy).
  apply orb_true_iff in Hy as [Hy|Hy].
  - now apply Ascii.eqb_eq in Hy as ->.
  - apply andb_true_iff in Hy as [_ Hy]. now apply Ascii.eqb_eq in Hy.
Qed.

Lemma matches_Word (w : string) : ∀ s,
  matches (Word true w) s → toLowerCase s = toLowerCase w.
Proof.
  induction w as [|c w IH]; intros s H; cbn [Word] in H.
  - now apply matches_Eps in H as ->.
  - apply matches_Seq in H as (s1 & s2 & -> & H1 & H2).
    pose proof H1 as H1'. apply matches_Class in H1' as (x & -> & _).
    rewrite app_cons, app_nil_l. cbn [toLowerCase].
    now rewrite (Lit_lowerChar c x H1), (IH s2 H2).
Qed.

Lemma code_ascii_of_N (n : N) : (n < 256)%N → code (ascii_of_N n) = n.
Proof. intros H. unfold code. now apply N_ascii_embedding. Qed.

Lemma code_bound (c : ascii) : (code c < 256)%N.
Proof. apply N_ascii_bounded. Qed.

(** A character that lower-cases to a lower-case ASCII letter is that
    letter or its capital. *)
Lemma lowerChar_letter (x c : ascii) :
  isLower c = true → lowerChar x = c →
  x = c ∨ (isUpper x = true ∧ lowerChar x = lowerChar c).
Proof.
  intros Hc Hx. unfold lowerChar, hasLowerForm in Hx.
  destruct (isUpper x) eqn:Eu; cbn in Hx.
  - right. split; [reflexivity|]. rewrite (lowerChar_lower c Hc).
    unfold lowerChar, hasLowerForm. now rewrite Eu.
  - destruct (inRange 192 222 x && negb (code x =? 215)%N) eqn:Er; [|now left].
    exfalso. apply andb_true_iff in Er as [Er _].
    unfold inRange in Er. apply andb_true_iff in Er as [A B].
    apply N.leb_le in A, B.
    unfold isLower, inRange in Hc. apply andb_true_iff in Hc as [C D].
    apply N.leb_le in C, D. subst c.
    rewrite code_ascii_of_N in C, D; lia.
Qed.

Lemma Word_matches (w : string) : ∀ s,
  allChars isLower w = true → toLowerCase s = w → matches (Word true w) s.
Proof.
  induction w as [|c w IH]; intros s Hw Hs.
  - destruct s; [constructor | discriminate].
  - destruct s as [|x s]; [discriminate|]. cbn in Hs. injection Hs as Hx Hs.
    cbn in Hw. apply andb_true_iff in Hw as [Hc Hw].
    cbn [Word]. change (String x s) with (String x "" ++ s).
    constructor; [|now apply IH].
    constructor.
    destruct (lowerChar_letter x c Hc Hx) as [->|[Hu Hl]].
    + now rewrite Ascii.eqb_refl.
    + rewrite Hu. cbn. rewrite Hl, Ascii.eqb_refl. now rewrite orb_true_r.
Qed.

Lemma matches_colon s : matches (Lit true ":"%char) s → s = ":".
Proof.
  intros H. apply matches_Class in H as (x & -> & Hx).
  apply orb_true_iff in Hx as [Hx|Hx].
  - now apply Ascii.eqb_eq in Hx as ->.
  - exfalso. apply andb_true_iff in Hx as [Hl Hx].
    apply Ascii.eqb_eq in Hx. cbn in Hl.
    change (lowerChar ":"%char) with ":"%char in Hx.
    unfold lowerChar, hasLowerForm in Hx.
    destruct (isUpper x) eqn:Eu; cbn in Hx.
    + unfold isUpper, inRange in Eu. apply andb_true_iff in Eu as [A B].
      apply N.leb_le in A, B.
      assert (code (ascii_of_N (code x + 32)) = code ":"%char) by now rewrite Hx.
      rewrite code_ascii_of_N in H by lia. cbn in H. lia.
    + cbn in Hl. destruct (inRange 192 222 x && negb (code x =? 215)%N) eqn:Er.
      * apply andb_true_iff in Er as [Er _].
        unfold inRange in Er. apply andb_true_iff in Er as [A B].
        apply N.leb_le in A, B.
        assert (code (ascii_of_N (code x + 32)) = code ":"%char) by now rewrite Hx.
        rewrite code_ascii_of_N in H by lia. cbn in H. lia.
      * subst x. discriminate.
Qed.

Lemma matches_Opt_quote q : matches (Opt quote) q ↔ optionalQuote q.
Proof.
  unfold Opt, quote, optionalQuote. rewrite matches_Alt, matches_Class, matches_Eps.
  tauto.
Qed.

Lemma Star_Class_matches p s :
  allChars p s = true → matches (Star (Class p)) s.
Proof.
  induction s as [|c s IH]; intros H; [constructor|].
  cbn in H. apply andb_true_iff in H as [Hc Hs].
  change (String c s) with (String c "" ++ s).
  constructor; [now constructor | now apply IH].
Qed.

Lemma matches_keyword word :
  matches (Alt (Word true "openapi") (Word true "swagger")) word ↔ isKeyword word.
Proof.
  rewrite matches_Alt. unfold isKeyword. split.
  - intros [H|H]; apply matches_Word in H; [now left | now right].
  - intros [H|H]; [left | right]; now apply Word_matches.
Qed.

Lemma matches_Plus_Class p s :
  matches (Plus (Class p)) s ↔ ∃ d r, s = String d r ∧ p d = true ∧ allChars p r = true.
Proof.
  unfold Plus. rewrite matches_Seq. split.
  - intros (s1 & s2 & -> & H1 & H2).
    apply matches_Class in H1 as (d & -> & Hd).
    exists d, s2. rewrite app_cons, app_nil_l. repeat split; auto.
    now apply matches_Star_Class.
  - intros (d & r & -> & Hd & Hr). exists (String d ""), r.
    repeat split; [now constructor | now apply Star_Class_matches].
Qed.

Lemma matches_marker m :
  matches OPENAPI_MARKER_REGEX m ↔
  ∃ q0 s0 word s1 q1 s2 s3 q2 d ds q3,
    m = q0 ++ (s0 ++ (word ++ (s1 ++ (q1 ++ (s2 ++ (":" ++ (s3 ++ (q2 ++ (String d ds ++ q3)))))))))
    ∧ optionalQuote q0 ∧ allChars isSpace s0 = true
    ∧ isKeyword word
    ∧ allChars isSpace s1 = true ∧ optionalQuote q1
    ∧ allChars isSpace s2 = true ∧ allChars isSpace s3 = true
    ∧ optionalQuote q2 ∧ isDigitOrDot d = true ∧ allChars isDigitOrDot ds = true
    ∧ optionalQuote q3.
Proof.
  unfold OPENAPI_MARKER_REGEX. split.
  - intros H.
    apply matches_Seq in H as (q0 & m0 & -> & Hq0 & H).
    apply matches_Seq in H as (s0 & m1 & -> & Hs0 & H).
    apply matches_Seq in H as (word & m2 & -> & Hw & H).
    apply matches_Seq in H as (s1 & m3 & -> & Hs1 & H).
    apply matches_Seq in H as (q1 & m4 & -> & Hq1 & H).
    apply matches_Seq in H as (s2 & m5 & -> & Hs2 & H).
    apply matches_Seq in H as (co & m6 & -> & Hco & H).
    apply matches_Seq in H as (s3 & m7 & -> & Hs3 & H).
    apply matches_Seq in H as (q2 & m8 & -> & Hq2 & H).
    apply matches_Seq in H as (dd & q3 & -> & Hdd & Hq3).
    apply matches_colon in Hco as ->.
    apply matches_Plus_Class in Hdd as (d & ds & -> & Hd & Hds).
    exists q0, s0, word, s1, q1, s2, s3, q2, d, ds, q3.
    split; [reflexivity|].
    repeat split; try (now apply matches_Opt_quote);
      try (now apply matches_Star_Class); try assumption.
    now apply matches_keyword.
  - intros (q0 & s0 & word & s1 & q1 & s2 & s3 & q2 & d & ds & q3 & -> &
            Hq0 & Hs0 & Hw & Hs1 & Hq1 & Hs2 & Hs3 & Hq2 & Hd & Hds & Hq3).
    repeat (apply m_seq);
      try (now apply matches_Opt_quote);
      try (now apply Star_Class_matches);
      try (now apply matches_keyword).
    + constructor. reflexivity.
    + apply matches_Plus_Class. eauto 6.
Qed.

Lemma containsVersionMarker_shape content :
  containsVersionMarker content ↔ markerShape content.
Proof.
  split.
  - intros (a & m & b & -> & Hm).
    apply matches_marker in Hm
      as (q0 & s0 & word & s1 & q1 & s2 & s3 & q2 & d & ds & q3 & -> &
            Hq0 & Hs0 & Hw & Hs1 & Hq1 & Hs2 & Hs3 & Hq2 & Hd & Hds & Hq3).
    exists (a ++ (q0 ++ s0)), word, s1, q1, s2, s3, q2, d, (ds ++ (q3 ++ b)).
    split; [|tauto].
    repeat rewrite ?string_app_assoc, ?app_cons, ?app_nil_l. reflexivity.
  - intros (before & word & s1 & q1 & s2 & s3 & q2 & d & rest & -> &
            Hw & Hs1 & Hq1 & Hs2 & Hs3 & Hq2 & Hd).
    exists before, (word ++ (s1 ++ (q1 ++ (s2 ++ (":" ++ (s3 ++ (q2 ++ String d ""))))))),
           rest.
    split.
    + repeat rewrite ?string_app_assoc, ?app_cons, ?app_nil_l. reflexivity.
    + apply matches_marker.
      exists "", "", word, s1, q1, s2, s3, q2, d, "", "".
      rewrite !app_nil_l, string_app_nil.
      repeat split; try assumption; try reflexivity; now left.
Qed.

(** Text around a marker does not hide it. *)
Lemma containsVersionMarker_embedded (before content rest : string) :
  containsVersionMarker content →
  containsVersionMarker (before ++ (content ++ rest)).
Proof.
  intros (a & m & b & -> & Hm).
  exists (before ++ a), m, (b ++ rest). split; [|exact Hm].
  now rewrite !string_app_assoc.
Qed.

End MarkerFacts.

(** X1. The marker search is not anchored: a text in which
    [hasOpenApiMarker] finds a version marker is still accepted with
    any text put before and after it. *)
Theorem hasOpenApiMarker_embedded (before content rest : string) :
  Detection.hasOpenApiMarker content = true →
  Detection.hasOpenApiMarker (before ++ (content ++ rest)) = true.
Proof.
  rewrite !hasOpenApiMarker_spec. apply containsVersionMarker_embedded.
Qed.

(** A version line inside a longer text. *)
Lemma hasOpenApiMarker_embedded_sample :
  Detection.hasOpenApiMarker "swagger: 2.0" = true
  ∧ Detection.hasOpenApiMarker
      ("# see " ++ ("swagger: 2.0" ++ " for the old format")) = true.
Proof.
  assert (H : Detection.hasOpenApiMarker "swagger: 2.0" = true).
  { vm_compute. reflexivity. }
  split; [exact H|].
  exact (hasOpenApiMarker_embedded "# see " "swagger: 2.0"
           " for the old format" H).
Defined.

(** X2. [hasOpenApiMarker] accepts a text exactly when it contains,
    anywhere, the word openapi or swagger in any mix of cases, then
    white space, an optional quote, white space, a colon, white space,
    an optional quote and one digit or dot.  Nothing is asked of what
    stands before the word or after that character. *)
Theorem hasOpenApiMarker_shape (content : string) :
  Detection.hasOpenApiMarker content = true ↔ Detection.markerShape content.
Proof. rewrite hasOpenApiMarker_spec. apply containsVersionMarker_shape. Qed.

(** ** File types and the reader's answers *)

Section FileTypeFacts.
Import Js Detection Reader.

Lemma suffix_length_eq (s pre pre' a b : string) :
  s = pre ++ a → s = pre' ++ b → String.length a = String.length b → a = b.
Proof.
  intros Ha Hb Hl.
  assert (Hp : String.length pre = String.length pre').
  { assert (H : String.length (pre ++ a) = String.length (pre' ++ b)) by congruence.
    rewrite !string_app_length in H. lia. }
  rewrite <- (substring_after pre a), <- (substring_after pre' b).
  now rewrite <- Ha, <- Hb, Hp, Hl.
Qed.

Lemma endsWith_json_not_yaml (p : string) :
  endsWith p ".json" = true →
  endsWith p ".yaml" = false ∧ endsWith p ".yml" = false.
Proof.
  intros H. apply endsWith_spec in H as [pre Hp]. split.
  - destruct (endsWith p ".yaml") eqn:E; [|reflexivity].
    apply endsWith_spec in E as [pre' Hp'].
    now pose proof (suffix_length_eq p pre pre' _ _ Hp Hp' eq_refl).
  - destruct (endsWith p ".yml") eqn:E; [|reflexivity].
    apply endsWith_spec in E as [pre' Hp'].
    assert (Hp2 : p = (pre ++ ".") ++ "json").
    { now rewrite string_app_assoc. }
    now pose proof (suffix_length_eq p _ pre' _ _ Hp2 Hp' eq_refl).
Qed.

End FileTypeFacts.

(** X3. [detectFileType] answers yaml exactly for the paths that end,
    in any case, in .yaml or .yml, json exactly for those that end in
    .json, and unknown exactly for the paths [hasOpenApiExtension]
    rejects: reader and classifier agree on the extensions. *)
Theorem detectFileType_agrees (u : Detection.Uri) :
  let p := Js.toLowerCase (Detection.fsPath u) in
  (Reader.detectFileType u = Reader.yaml
   ↔ (∃ pre, p = pre ++ ".yaml") ∨ (∃ pre, p = pre ++ ".yml"))
  ∧ (Reader.detectFileType u = Reader.json ↔ ∃ pre, p = pre ++ ".json")
  ∧ (Reader.detectFileType u = Reader.unknown
     ↔ Detection.hasOpenApiExtension u = false).
Proof.
  intros p. rewrite <- !endsWith_spec.
  unfold Reader.detectFileType, Detection.hasOpenApiExtension. fold p.
  cbn [existsb Detection.OPENAPI_EXTENSIONS].
  pose proof (endsWith_json_not_yaml p) as Hx.
  destruct (Js.endsWith p ".yaml"), (Js.endsWith p ".yml"),
    (Js.endsWith p ".json"); cbn;
    try (destruct (Hx eq_refl); discriminate);
    (repeat split; try tauto; try discriminate; try (intros [?|?]; discriminate));
    auto.
Qed.

Section ReaderFacts.
Import Js Detection Reader.
Variable fsReadFile : Uri → Completion (list Byte.byte).
Variable utf8ToString : list Byte.byte → Completion string.

Lemma readFile_caught (u : Uri) (e : Thrown) :
  fsReadFile u = Throw e → readFile fsReadFile utf8ToString u = caught u e.
Proof. intros H. unfold readFile. now rewrite H. Qed.

End ReaderFacts.

(** X4. When the host returns the bytes of the file and they decode,
    [readFile] succeeds exactly when there are at most 10485760 bytes
    (the limit itself is accepted), and the result then carries the
    decoded text. *)
Theorem readFile_size_limit
        (fsReadFile : Detection.Uri → Js.Completion (list Byte.byte))
        (utf8ToString : list Byte.byte → Js.Completion string)
        (u : Detection.Uri) (fileData : list Byte.byte) (text : string) :
  fsReadFile u = Js.Normal fileData →
  utf8ToString fileData = Js.Normal text →
  let r := Reader.readFile fsReadFile utf8ToString u in
  (Reader.success r = true ↔ (Reader.byteLength fileData <= 10485760)%Z)
  ∧ ((Reader.byteLength fileData <= 10485760)%Z → r = Reader.succeed text).
Proof.
  intros Hr Hd r. subst r. unfold Reader.readFile. rewrite Hr.
  change Reader.MAX_FILE_SIZE with 10485760%Z.
  destruct (Z.ltb_spec 10485760 (Reader.byteLength fileData)) as [Hlt|Hle].
  - cbn. split; [split; [discriminate|lia] | lia].
  - rewrite Hd. cbn. split; [split; auto | auto].
Qed.

(** A file of exactly 10 MiB is read. *)
Lemma readFile_size_limit_10MiB :
  let u := Sample.file "/edge.yaml" in
  let fileData := replicate (Z.to_nat 10485760) Byte.x00 in
  let r := Reader.readFile (fun _ => Js.Normal fileData)
                           (fun _ => Js.Normal "decoded") u in
  Reader.byteLength fileData = 10485760%Z ∧ r = Reader.succeed "decoded".
Proof.
  intros u fileData r.
  assert (Hl : Reader.byteLength fileData = 10485760%Z).
  { unfold Reader.byteLength, fileData. rewrite length_replicate. lia. }
  split; [exact Hl|].
  apply (readFile_size_limit (fun _ => Js.Normal fileData)
                             (fun _ => Js.Normal "decoded")
                             u fileData "decoded" eq_refl eq_refl).
  rewrite Hl. lia.
Defined.

(** X5. When the read of the host throws, [readFile] fails and the
    message for the user follows the code of the error: not found for
    FileNotFound and ENOENT, permission denied for NoPermissions, EACCES
    and EPERM, and for every other code (or none) the general message
    with the non-empty message of a thrown Error, else Unknown error. *)
Theorem readFile_failure_message
        (fsReadFile : Detection.Uri → Js.Completion (list Byte.byte))
        (utf8ToString : list Byte.byte → Js.Completion string)
        (u : Detection.Uri) (e : Js.Thrown) :
  fsReadFile u = Js.Throw e →
  let r := Reader.readFile fsReadFile utf8ToString u in
  let said := option_map Reader.getUserMessage (Reader.error r) in
  let code := Reader.codeOf e in
  Reader.success r = false
  ∧ (code = Some "FileNotFound" ∨ code = Some "ENOENT" →
     said = Some ("File not found: " ++ Detection.fsPath u))
  ∧ (code = Some "NoPermissions" ∨ code = Some "EACCES" ∨ code = Some "EPERM" →
     said = Some ("Permission denied: Cannot read file " ++ Detection.fsPath u))
  ∧ (code ∉ [Some "FileNotFound"; Some "ENOENT"; Some "NoPermissions";
              Some "EACCES"; Some "EPERM"] →
     said = Some ("Failed to read file: " ++ Detection.fsPath u ++ ". "
                  ++ match e with
                     | Js.ThrownError _ (String c m) => String c m
                     | _ => "Unknown error"
                     end)).
Proof.
  intros Hr r said code. subst r said.
  rewrite (readFile_caught _ _ _ _ Hr).
  unfold Reader.caught, Reader.determineErrorType. fold code. cbn.
  split; [reflexivity|]. split; [|split].
  - intros [->| ->]; reflexivity.
  - intros [->|[->| ->]]; reflexivity.
  - intros Hn. rewrite !not_elem_of_cons in Hn.
    destruct Hn as (H1 & H2 & H3 & H4 & H5 & _).
    assert (Hf : ∀ name, code ≠ Some name → Reader.codeIs code name = false).
    { intros name Hne. destruct code as [x|]; [|reflexivity]. cbn.
      apply String.eqb_neq. congruence. }
    rewrite !Hf by assumption. cbn. unfold Reader.getUserMessage. cbn.
    destruct e as [c [|ch m]| |]; reflexivity.
Qed.

(** A file the host refuses to read. *)
Lemma readFile_failure_message_denied :
  let u := Sample.file "/locked.yaml" in
  let r :=
    Reader.readFile
      (fun _ => Js.Throw (Js.ThrownError (Some "EACCES") "permission denied"))
      (fun _ => Js.Normal "") u in
  Reader.success r = false
  ∧ option_map Reader.getUserMessage (Reader.error r)
    = Some "Permission denied: Cannot read file /locked.yaml".
Proof.
  intros u r.
  destruct (readFile_failure_message
              (fun _ => Js.Throw (Js.ThrownError (Some "EACCES")
                                                 "permission denied"))
              (fun _ => Js.Normal "") u
              (Js.ThrownError (Some "EACCES") "permission denied") eq_refl)
    as (Hs & _ & Hp & _).
  split; [exact Hs|]. apply Hp. right. left. reflexivity.
Defined.

(** ** Identifiers and addresses of the content server *)

Section IdentifierFacts.
Import Js Server.

Lemma substring0_length (s : string) : ∀ n,
  (String.length (substring0 n s) ≤ n)%nat.
Proof.
  unfold substring0. induction s as [|c s IH]; intros [|n]; cbn; try lia.
  specialize (IH n). lia.
Qed.

Lemma base64_head (a : N) (l : list N) :
  ∃ rest, base64 (a :: l) = String (base64Digit (N.shiftr a 2)) rest.
Proof. destruct l as [|b [|c l]]; cbn; eauto. Qed.

Lemma utf8Char_head (c : ascii) :
  ∃ a l, utf8Char c = a :: l ∧ isAlnum (base64Digit (N.shiftr a 2)) = true.
Proof.
  destruct c as [[] [] [] [] [] [] [] []];
    (eexists; eexists; split; [vm_compute; reflexivity | vm_compute; reflexivity]).
Qed.

Lemma docId_nonempty (documentUri : string) :
  documentUri ≠ "" → docId documentUri ≠ "".
Proof.
  destruct documentUri as [|c r]; [congruence|]. intros _.
  unfold docId. cbn [utf8Encode].
  destruct (utf8Char_head c) as (a & l & -> & Ha).
  cbn [app]. destruct (base64_head a (l ++ utf8Encode r)) as [rest ->].
  cbn [filterString]. rewrite Ha. discriminate.
Qed.





End IdentifierFacts.

(** X6. The identifier of a document has at most 32 characters, all
    of them letters or digits; it is empty only for the empty URI; and
    the handler reads it back from the path /doc/<identifier>, except
    that an empty identifier gives a path that matches nothing. *)
Theorem docId_shape (documentUri : string) :
  (String.length (Server.docId documentUri) ≤ 32)%nat
  ∧ Js.allChars Js.isAlnum (Server.docId documentUri) = true
  ∧ (documentUri ≠ "" → Server.docId documentUri ≠ "")
  ∧ Server.matchDoc (Some ("/doc/" ++ Server.docId documentUri))
    = if decide (documentUri = "") then None
      else Some (Server.docId documentUri).
Proof.
  split; [apply substring0_length|]. split; [apply docId_alnum|].
  split; [apply docId_nonempty|].
  destruct (decide (documentUri = "")) as [->|Hne]; [reflexivity|].
  apply matchDoc_docId. now apply docId_nonempty.
Qed.



Section QueryFacts.
Import Js Server.



End QueryFacts.



(** ** The request handler *)

Section HandlerFacts.
Import Js Server.

Lemma rev_app_acc (s : string) : ∀ acc,
  String.rev_app s acc = String.rev_app s "" ++ acc.
Proof.
  induction s as [|a s IH]; intros acc; cbn; [now rewrite app_nil_l|].
  rewrite (IH (String a acc)), (IH (String a "")), string_app_assoc.
  now rewrite app_cons, app_nil_l.
Qed.

Lemma rev_cons (c : ascii) (s : string) :
  String.rev (String c s) = String.rev s ++ String c "".
Proof. unfold String.rev. cbn. apply rev_app_acc. Qed.

Lemma rev_snoc (s : string) (c : ascii) :
  String.rev (s ++ String c "") = String c (String.rev s).
Proof.
  induction s as [|a s IH]; [reflexivity|].
  rewrite app_cons, !rev_cons, IH. now rewrite app_cons.
Qed.

Lemma trimStart_snoc (c : ascii) : isSpace c = false → ∀ s,
  ∃ r, trimStart (s ++ String c "") = r ++ String c "".
Proof.
  intros Hc. induction s as [|a s [r IH]].
  - exists "". rewrite !app_nil_l. cbn [trimStart]. now rewrite Hc.
  - rewrite app_cons. cbn. destruct (isSpace a); [eauto|].
    exists (String a s). now rewrite app_cons.
Qed.

Lemma trimStart_spaces (ws rest : string) :
  allChars isSpace ws = true → trimStart (ws ++ rest) = trimStart rest.
Proof.
  induction ws as [|a ws IH]; intros H; [now rewrite app_nil_l|].
  cbn in H. apply andb_true_iff in H as [Ha Hw].
  rewrite app_cons. cbn. rewrite Ha. now apply IH.
Qed.

(** [trim] stops at the first character that is not white space. *)
Lemma trim_head (ws rest : string) (c : ascii) :
  allChars isSpace ws = true → isSpace c = false →
  ∃ r, trim (ws ++ String c rest) = String c r.
Proof.
  intros Hw Hc. unfold trim. rewrite trimStart_spaces by assumption.
  cbn [trimStart]. rewrite Hc. unfold trimEnd. rewrite rev_cons.
  destruct (trimStart_snoc c Hc (String.rev rest)) as [r ->].
  rewrite rev_snoc. eauto.
Qed.

Lemma trim_spaces (ws : string) : allChars isSpace ws = true → trim ws = "".
Proof.
  intros H. unfold trim.
  assert (Ht : trimStart ws = "").
  { rewrite <- (string_app_nil ws). now rewrite trimStart_spaces. }
  now rewrite Ht.
Qed.

End HandlerFacts.

(** X9. Every response of the handler starts with the three CORS
    headers; a 200 is either the empty answer to OPTIONS or, for a GET,
    the non-empty text stored under the identifier of the path; a
    method other than OPTIONS and GET is answered 405; and no status
    other than 200, 404 and 405 is ever sent. *)
Theorem handle_serves_stored_text (s : Server.HttpServer) (req : Server.Request) :
  let r := Server.handle s req in
  (take 3 (Server.headers r) = Server.corsHeaders)
  ∧ (Server.status r = 200%N →
     (Server.method req = "OPTIONS" ∧ Server.body r = "")
     ∨ (Server.method req = "GET"
        ∧ ∃ id, Server.matchDoc (Server.url req) = Some id
                ∧ Server.contentMap s !! id = Some (Server.body r)
                ∧ Server.body r ≠ ""))
  ∧ (Server.method req ≠ "OPTIONS" → Server.method req ≠ "GET" →
     Server.status r = 405%N)
  ∧ (Server.status r = 200%N ∨ Server.status r = 404%N ∨ Server.status r = 405%N).
Proof.
  intros r. subst r. unfold Server.handle.
  destruct (String.eqb_spec (Server.method req) "OPTIONS") as [Ho|Ho].
  { cbn. repeat split; auto. congruence. }
  destruct (String.eqb_spec (Server.method req) "GET") as [Hg|Hg]; cbn [negb].
  2:{ cbn. repeat split; auto. discriminate. }
  destruct (Server.matchDoc (Server.url req)) as [id|].
  2:{ cbn. repeat split; auto; try discriminate. congruence. }
  destruct (Server.contentMap s !! id) as [[|c text]|] eqn:E; cbn.
  - repeat split; auto; try discriminate. congruence.
  - repeat split; auto; try congruence.
    intros _. right. split; [assumption|]. exists id.
    split; [reflexivity|]. split; [exact E | discriminate].
  - repeat split; auto; try discriminate. congruence.
Qed.

(** X10. A stored text whose first character after leading white
    space is [c] is served unchanged with status 200, with the content
    type application/json when [c] is an opening brace and text/yaml
    otherwise, and with caching switched off. *)
Theorem content_type_of_served_text (s : Server.HttpServer)
        (target key ws rest : string) (c : ascii) :
  Server.matchDoc (Some target) = Some key →
  Server.contentMap s !! key = Some (ws ++ String c rest) →
  Js.allChars Js.isSpace ws = true → Js.isSpace c = false →
  Server.handle s {| Server.method := "GET"; Server.url := Some target |}
  = {| Server.status := 200;
       Server.headers :=
         Server.corsHeaders ++
           [ ("Content-Type",
              if Ascii.eqb c "{" then "application/json" else "text/yaml");
             ("Cache-Control", "no-cache, no-store, must-revalidate") ];
       Server.body := ws ++ String c rest |}.
Proof.
  intros Hm Hk Hw Hc. unfold Server.handle. cbn [Server.method Server.url].
  change (String.eqb "GET" "OPTIONS") with false.
  change (String.eqb "GET" "GET") with true. cbn [negb]. rewrite Hm, Hk.
  assert (Ht : Js.truthyString (Some (ws ++ String c rest)) = true).
  { destruct ws; [reflexivity|]. now rewrite app_cons. }
  rewrite Ht. cbn [negb from_option]. unfold id.
  destruct (trim_head ws rest c Hw Hc) as [r ->].
  cbn [Js.startsWith]. rewrite andb_true_r.
  rewrite (Ascii.eqb_sym "{" c). reflexivity.
Qed.

(** An indented JSON document is served as JSON. *)
Lemma content_type_of_served_text_json :
  let key := Server.docId "file:///t/api.json" in
  let s :=
    snd (Server.registerContent "file:///t/api.json" "  {}"
           (snd (Server.start (Js.Normal 4000%N) Server.create))) in
  Server.contentMap s !! key = Some "  {}"
  ∧ Server.headers
      (Server.handle s {| Server.method := "GET";
                          Server.url := Some ("/doc/" ++ key) |})
    = (Server.corsHeaders
       ++ [ ("Content-Type", "application/json");
            ("Cache-Control", "no-cache, no-store, must-revalidate") ])%list.
Proof.
  intros key s.
  assert (Hk : Server.contentMap s !! key = Some ("  " ++ String "{" "}")).
  { vm_compute. reflexivity. }
  split; [exact Hk|].
  exact (f_equal Server.headers
           (content_type_of_served_text s ("/doc/" ++ key) key "  " "}" "{"
              eq_refl Hk eq_refl eq_refl)).
Defined.

(** ** Removal and start of the server *)

Section RemoveFacts.
Import Js Server.


End RemoveFacts.


(** X12. The first [start] returns http://localhost:<port> and records
    the port when the host binds one, and fails with the error of the
    host otherwise, keeping the registered contents either way; every
    later [start] returns the URL of the recorded port and changes
    nothing, also after a failed first start. *)
Theorem start_once (bound again : Js.Completion N) (s : Server.HttpServer) :
  Server.server s = false →
  let (r1, s1) := Server.start bound s in
  Server.start again s1 = (Js.Normal (Server.getServerUrl s1), s1)
  ∧ Server.contentMap s1 = Server.contentMap s
  ∧ match bound with
    | Js.Normal p =>
        r1 = Js.Normal ("http://localhost:" ++ Js.showN p) ∧ Server.port s1 = p
    | Js.Throw e => r1 = Js.Throw e ∧ Server.port s1 = Server.port s
    end.
Proof.
  intros Hs. unfold Server.start. rewrite Hs.
  destruct bound as [p|e]; cbn; repeat split.
Qed.

(** A server started on port 4000 and started again. *)
Lemma start_once_sample :
  let r := Server.start (Js.Normal 4000%N) Server.create in
  Server.server Server.create = false
  ∧ fst r = Js.Normal "http://localhost:4000"
  ∧ Server.start (Js.Normal 5000%N) (snd r)
    = (Js.Normal "http://localhost:4000", snd r).
Proof.
  intros r. split; [reflexivity|].
  pose proof (start_once (Js.Normal 4000%N) (Js.Normal 5000%N) Server.create
                eq_refl) as H.
  change (Server.start (Js.Normal 4000%N) Server.create)
    with (fst r, snd r) in H.
  cbv iota beta in H. destruct H as (H1 & _ & H2 & _).
  split; [exact H2 | exact H1].
Defined.

(** ** Escaping for attributes *)

Section EscapeFacts.
Import Js Webview.

Lemma replaceAll_app c rep (a b : string) :
  replaceAll c rep (a ++ b) = replaceAll c rep a ++ replaceAll c rep b.
Proof.
  induction a as [|x a IH]; [now rewrite !app_nil_l|].
  rewrite app_cons. cbn [replaceAll]. rewrite IH.
  destruct (Ascii.eqb x c); [now rewrite string_app_assoc | now rewrite app_cons].
Qed.

Lemma escapeForJson_app (a b : string) :
  escapeForJson (a ++ b) = escapeForJson a ++ escapeForJson b.
Proof. unfold escapeForJson. now rewrite !replaceAll_app. Qed.

Lemma escapeForJson_cons (c : ascii) (s : string) :
  escapeForJson (String c s) = escapeForJson (String c "") ++ escapeForJson s.
Proof. rewrite <- escapeForJson_app. now rewrite app_cons, app_nil_l. Qed.

Lemma escapeForJson_char (c : ascii) :
  escapeForJson (String c "")
  = if isEscaped c then
      "&" ++ (if Ascii.eqb c "&" then "amp"
              else if Ascii.eqb c doubleQuote then "quot"
              else if Ascii.eqb c "'" then "#39"
              else if Ascii.eqb c "<" then "lt"
              else if Ascii.eqb c ">" then "gt"
              else if Ascii.eqb c lineFeed then "#10"
              else if Ascii.eqb c carriageReturn then "#13"
              else "#9") ++ ";"
    else String c "".
Proof.
  destruct c as [[] [] [] [] [] [] [] []]; vm_compute; reflexivity.
Qed.

Lemma escapeForJson_char_clean (c : ascii) :
  allChars (fun x => negb (isEscaped x) || Ascii.eqb x "&")
           (escapeForJson (String c "")) = true.
Proof.
  destruct c as [[] [] [] [] [] [] [] []]; vm_compute; reflexivity.
Qed.

Lemma isEscaped_cases (c : ascii) :
  isEscaped c = true →
  c = "&"%char ∨ c = doubleQuote ∨ c = "'"%char ∨ c = "<"%char ∨ c = ">"%char
  ∨ c = lineFeed ∨ c = carriageReturn ∨ c = tabulation.
Proof.
  unfold isEscaped. rewrite !orb_true_iff, !Ascii.eqb_eq. tauto.
Qed.

Lemma escapeForJson_head (c c' : ascii) (s s' : string) :
  escapeForJson (String c "") ++ s = escapeForJson (String c' "") ++ s' →
  c = c' ∧ s = s'.
Proof.
  destruct (isEscaped c) eqn:Ec, (isEscaped c') eqn:Ec'.
  - apply isEscaped_cases in Ec, Ec'.
    destruct Ec as [->|[->|[->|[->|[->|[->|[->| ->]]]]]]];
    destruct Ec' as [->|[->|[->|[->|[->|[->|[->| ->]]]]]]];
    vm_compute; intros H; try discriminate;
    (injection H as <-; split; reflexivity).
  - rewrite (escapeForJson_char c), (escapeForJson_char c'), Ec, Ec'.
    unfold isEscaped in Ec'. rewrite !app_cons. intros [= <- _].
    discriminate.
  - rewrite (escapeForJson_char c), (escapeForJson_char c'), Ec, Ec'.
    unfold isEscaped in Ec. rewrite !app_cons. intros [= -> _].
    discriminate.
  - rewrite (escapeForJson_char c), (escapeForJson_char c'), Ec, Ec'.
    rewrite !app_cons, !app_nil_l. now intros [= -> ->].
Qed.

Lemma escapeForJson_injective : ∀ a b : string,
  escapeForJson a = escapeForJson b → a = b.
Proof.
  induction a as [|c a IH]; intros [|c' b] H.
  - reflexivity.
  - exfalso. rewrite escapeForJson_cons in H.
    destruct c' as [[] [] [] [] [] [] [] []]; vm_compute in H; discriminate.
  - exfalso. rewrite escapeForJson_cons in H.
    destruct c as [[] [] [] [] [] [] [] []]; vm_compute in H; discriminate.
  - rewrite (escapeForJson_cons c), (escapeForJson_cons c') in H.
    apply escapeForJson_head in H as [-> H]. f_equal. now apply IH.
Qed.

Lemma escapeForJson_clean (s : string) :
  allChars (fun x => negb (isEscaped x) || Ascii.eqb x "&") (escapeForJson s) = true.
Proof.
  induction s as [|c s IH]; [reflexivity|].
  rewrite escapeForJson_cons, allChars_app, IH, escapeForJson_char_clean.
  reflexivity.
Qed.

End EscapeFacts.

(** X13. The result of [escapeForJson] contains no quote, apostrophe,
    angle bracket, line feed, carriage return or tab; different texts
    have different results; the result of a concatenation is the
    concatenation of the results; and escaping twice is not escaping
    once: an ampersand of an entity is escaped again. *)
Theorem escapeForJson_safe :
  (∀ s, Js.allChars (fun c => negb (Webview.isEscaped c) || Ascii.eqb c "&")
                    (Webview.escapeForJson s) = true)
  ∧ (∀ a b, Webview.escapeForJson a = Webview.escapeForJson b → a = b)
  ∧ (∀ a b, Webview.escapeForJson (a ++ b)
            = Webview.escapeForJson a ++ Webview.escapeForJson b)
  ∧ Webview.escapeForJson "&lt;" = "&amp;lt;".
Proof.
  split; [exact escapeForJson_clean|]. split; [exact escapeForJson_injective|].
  split; [exact escapeForJson_app | reflexivity].
Qed.

(** ** The watcher between edits *)

Ltac same_timer :=
  unfold Watcher.quiet, Watcher.waiting; cbn;
  repeat match goal with
         | |- context [decide (?a ≠ ?a)] =>
             destruct (decide (a ≠ a)) as [?|_]; [contradiction|]; cbn
         end.

Section QuietFacts.
Import Js Detection Watcher.
Context {Client : Type}.
Variable onChanged : FileChangeCallback Client.
Variable onError : option (FileErrorCallback Client).
Variable this : nat.
Variable document : string.
Variable delay : Z.

Local Abbreviation quiet := (quiet this document delay onChanged onError).
Local Abbreviation waiting := (waiting this document delay onChanged onError).
Local Abbreviation window := (setTimeoutDelay delay).

Lemma editDocument_steps (doc text : string) (t : Z) (hc : Host Client * Client) :
  editDocument doc text t hc
  = (fireDidChangeTextDocument doc
       (setDocuments (<[doc := text]> (documents (fst (advanceTo t hc))))
                     (fst (advanceTo t hc))),
     snd (advanceTo t hc)).
Proof. unfold editDocument. now destruct (advanceTo t hc). Qed.

(** Time passes over a watcher without pending call. *)
Lemma advanceTo_quiet (h : Host Client) (c : Client) (T : Z) seen :
  quiet seen h →
  advanceTo T (h, c) = (setNow (Z.max (now h) T) h, c).
Proof.
  intros (Ht & _).
  destruct h as [now0 next docs cls dls fsw thr tms ws cs]. simpl in *. subst.
  reflexivity.
Qed.

Lemma quiet_setNow (h : Host Client) (t : Z) seen :
  quiet seen h → quiet seen (setNow t h).
Proof. intros H. exact H. Qed.

Lemma waiting_setNow (h : Host Client) (t due : Z) x seen :
  waiting due x seen h → waiting due x seen (setNow t h).
Proof. intros H. exact H. Qed.

(** Time passes, the pending call is not due yet. *)
Lemma advanceTo_early (h : Host Client) (c : Client) (T due : Z) x seen :
  waiting due x seen h → (T < due)%Z →
  advanceTo T (h, c) = (setNow (Z.max (now h) T) h, c).
Proof.
  intros ((id & tid & ds & Hl & Ht & Hw & Hin) & Hdoc & Hc) Hlt.
  destruct h as [now0 next docs cls dls fsw thr tms ws cs]. simpl in *. subst.
  unfold advanceTo. cbn.
  destruct (Z.leb_spec due T); [lia|]. reflexivity.
Qed.

(** The pending call comes due: it runs once, with the text that the
    document has. *)
Lemma advanceTo_due (h : Host Client) (c : Client) (T due : Z) x seen :
  waiting due x seen h → (due <= T)%Z →
  let r := advanceTo T (h, c) in
  quiet (seen ++ observed onChanged onError x c)%list (fst r)
  ∧ snd r = afterChange onChanged onError x c
  ∧ now (fst r) = Z.max (now h) T
  ∧ documents (fst r) = documents h.
Proof.
  intros ((id & tid & ds & Hl & Ht & Hw & Hin) & Hdoc & Hc) Hdue.
  destruct h as [now0 next docs cls dls fsw thr tms ws cs]. simpl in *. subst.
  unfold advanceTo. cbn.
  destruct (Z.leb_spec due T) as [Hle|Hgt]; [|lia]. cbn.
  destruct (decide (tid ≠ tid)) as [?|_]; [contradiction|]. cbn.
  unfold runTimer, runDebounced. cbn. rewrite Hdoc. cbn.
  unfold afterChange, observed.
  assert (Hq : ∀ dt, ∃ id0 ds0 dt0,
             [(id, listenerOf this document onChanged onError)]
             = [(id0, listenerOf this document onChanged onError)]
             ∧ <[this := {| disposables := ds; debounceTimer := dt;
                            debounceDelay := delay |}]> ws !! this
               = Some {| disposables := ds0; debounceTimer := dt0;
                         debounceDelay := delay |}
             ∧ ChangeSubscription id0 ∈ ds0).
  { intros dt. exists id, ds, dt. split; [reflexivity|].
    split; [apply lookup_insert_eq | exact Hin]. }
  destruct (onChanged x c) as [[[]|e] c1]; cbn.
  - unfold setDebounceTimer. cbn. rewrite Hw. same_timer.
    split; [|split; [reflexivity|split; [lia|reflexivity]]].
    split; [reflexivity|]. split; [apply Hq | reflexivity].
  - destruct onError as [f|].
    + destruct (f (toError e) c1) as [[[]|e'] c2]; cbn.
      * unfold setDebounceTimer. cbn. rewrite Hw. same_timer.
        split; [|split; [reflexivity|split; [lia|reflexivity]]].
        split; [reflexivity|]. split; [apply Hq | now rewrite <- app_assoc].
      * same_timer.
        split; [|split; [reflexivity|split; [lia|reflexivity]]].
        split; [reflexivity|]. split; [|now rewrite <- app_assoc].
        exists id, ds, (Some tid). split; [reflexivity|]. split; assumption.
    + unfold setDebounceTimer. cbn. rewrite Hw. same_timer.
      split; [|split; [reflexivity|split; [lia|reflexivity]]].
      split; [reflexivity|]. split; [apply Hq | reflexivity].
Qed.

(** The change event of the watched document on a quiet watcher. *)
Lemma change_quiet (h : Host Client) (x : string) seen :
  quiet seen h →
  let h' := fireDidChangeTextDocument document
              (setDocuments (<[document := x]> (documents h)) h) in
  waiting (now h + window) x seen h' ∧ now h' = now h.
Proof.
  intros (Ht & (id & ds & dt & Hl & Hw & Hin) & Hc).
  destruct h as [now0 next docs cls dls fsw thr tms ws cs]. simpl in *. subst.
  unfold fireDidChangeTextDocument. cbn.
  unfold onDidChangeTextDocument. cbn. rewrite String.eqb_refl.
  unfold debounceChange. cbn. rewrite Hw. cbn.
  destruct dt as [old|]; cbn.
  - unfold setDebounceTimer. cbn. rewrite Hw. same_timer.
    split; [|reflexivity].
    split; [|split; [apply lookup_insert_eq | reflexivity]].
    exists id, next, ds. split; [reflexivity|]. split; [reflexivity|].
    split; [apply lookup_insert_eq | exact Hin].
  - unfold setDebounceTimer. cbn. rewrite Hw. same_timer.
    split; [|reflexivity].
    split; [|split; [apply lookup_insert_eq | reflexivity]].
    exists id, next, ds. split; [reflexivity|]. split; [reflexivity|].
    split; [apply lookup_insert_eq | exact Hin].
Qed.

(** The change event of the watched document while a call is pending:
    the call is replaced. *)
Lemma change_waiting (h : Host Client) (due : Z) (x0 x : string) seen :
  waiting due x0 seen h →
  let h' := fireDidChangeTextDocument document
              (setDocuments (<[document := x]> (documents h)) h) in
  waiting (now h + window) x seen h' ∧ now h' = now h.
Proof.
  intros ((id & tid & ds & Hl & Ht & Hw & Hin) & Hdoc & Hc).
  destruct h as [now0 next docs cls dls fsw thr tms ws cs]. simpl in *. subst.
  unfold fireDidChangeTextDocument. cbn.
  unfold onDidChangeTextDocument. cbn. rewrite String.eqb_refl.
  unfold debounceChange. cbn. rewrite Hw. cbn.
  destruct (decide (tid ≠ tid)) as [?|_]; [contradiction|]. cbn.
  unfold setDebounceTimer. cbn. rewrite Hw. same_timer.
  split; [|reflexivity].
  split; [|split; [apply lookup_insert_eq | reflexivity]].
  exists id, next, ds. split; [reflexivity|]. split; [reflexivity|].
  split; [apply lookup_insert_eq | exact Hin].
Qed.

(** The change event of another document. *)
Lemma change_other (h : Host Client) (other y : string) :
  other ≠ document →
  (∃ id, changeListeners h = [(id, listenerOf this document onChanged onError)]) →
  fireDidChangeTextDocument other
    (setDocuments (<[other := y]> (documents h)) h)
  = setDocuments (<[other := y]> (documents h)) h.
Proof.
  intros Hne [id Hl]. unfold fireDidChangeTextDocument. cbn. rewrite Hl. cbn.
  unfold onDidChangeTextDocument. cbn.
  now apply String.eqb_neq in Hne as ->.
Qed.

Lemma quiet_setDocuments (h : Host Client) d seen :
  quiet seen h → quiet seen (setDocuments d h).
Proof. intros H. exact H. Qed.

Lemma waiting_setDocuments (h : Host Client) (other y : string) due x seen :
  other ≠ document → waiting due x seen h →
  waiting due x seen (setDocuments (<[other := y]> (documents h)) h).
Proof.
  intros Hne (H1 & Hdoc & Hc). repeat split; auto.
  cbn. now rewrite lookup_insert_ne.
Qed.

(** An edit of the watched document. *)
Lemma edit_quiet (h : Host Client) (c : Client) (t : Z) (x : string) seen :
  quiet seen h → (now h <= t)%Z →
  let r := editDocument document x t (h, c) in
  waiting (t + window) x seen (fst r) ∧ now (fst r) = t ∧ snd r = c.
Proof.
  intros Hq Hnow r. subst r. rewrite editDocument_steps.
  rewrite (advanceTo_quiet h c t seen Hq). cbn [fst snd].
  rewrite Z.max_r by lia.
  destruct (change_quiet (setNow t h) x seen
                         (quiet_setNow h _ seen Hq)) as [Hw Hn].
  cbn [now setNow] in Hw, Hn.
  split; [exact Hw | split; [exact Hn | reflexivity]].
Qed.

Lemma edit_early (h : Host Client) (c : Client) (t due : Z) (x0 x : string) seen :
  waiting due x0 seen h → (now h <= t < due)%Z →
  let r := editDocument document x t (h, c) in
  waiting (t + window) x seen (fst r) ∧ now (fst r) = t ∧ snd r = c.
Proof.
  intros Hw Hnow r. subst r. rewrite editDocument_steps.
  rewrite (advanceTo_early h c t due x0 seen Hw) by lia. cbn [fst snd].
  rewrite Z.max_r by lia.
  destruct (change_waiting (setNow t h) due x0 x seen
                           (waiting_setNow h _ due x0 seen Hw)) as [Hw' Hn].
  cbn [now setNow] in Hw', Hn.
  split; [exact Hw' | split; [exact Hn | reflexivity]].
Qed.

Lemma edit_late (h : Host Client) (c : Client) (t due : Z) (x0 x : string) seen :
  waiting due x0 seen h → (now h <= t)%Z → (due <= t)%Z →
  let r := editDocument document x t (h, c) in
  waiting (t + window) x (seen ++ observed onChanged onError x0 c)%list (fst r)
  ∧ now (fst r) = t
  ∧ snd r = afterChange onChanged onError x0 c.
Proof.
  intros Hw Hnow Hdue r. subst r. rewrite editDocument_steps.
  destruct (advanceTo_due h c t due x0 seen Hw Hdue) as (Hq & Hc & Hn & Hd).
  destruct (advanceTo t (h, c)) as [h1 c1]. cbn [fst snd] in *.
  destruct (change_quiet h1 x _ Hq) as [Hw' Hn'].
  rewrite Hn, Z.max_r in Hw', Hn' by lia.
  split; [exact Hw' | split; [exact Hn' | exact Hc]].
Qed.

(** An edit of another document changes nothing for the watcher. *)
Lemma edit_other_quiet (h : Host Client) (c : Client) (t : Z)
      (other y : string) seen :
  other ≠ document → quiet seen h →
  let r := editDocument other y t (h, c) in
  quiet seen (fst r) ∧ snd r = c.
Proof.
  intros Hne Hq r. subst r. rewrite editDocument_steps.
  rewrite (advanceTo_quiet h c t seen Hq). cbn [fst snd].
  pose proof Hq as (_ & (id & ds & dt & Hl & _) & _).
  rewrite change_other by (cbn; eauto). split; [exact Hq | reflexivity].
Qed.

Lemma edit_other_early (h : Host Client) (c : Client) (t due : Z)
      (other y x : string) seen :
  other ≠ document → waiting due x seen h → (t < due)%Z →
  let r := editDocument other y t (h, c) in
  waiting due x seen (fst r) ∧ snd r = c.
Proof.
  intros Hne Hw Hlt r. subst r. rewrite editDocument_steps.
  rewrite (advanceTo_early h c t due x seen Hw) by lia. cbn [fst snd].
  pose proof Hw as ((id & tid & ds & Hl & _) & _).
  rewrite change_other by (cbn; eauto). split; [|reflexivity].
  apply (waiting_setDocuments (setNow _ h)); [exact Hne | exact Hw].
Qed.

Lemma edit_other_late (h : Host Client) (c : Client) (t due : Z)
      (other y x : string) seen :
  other ≠ document → waiting due x seen h → (due <= t)%Z →
  let r := editDocument other y t (h, c) in
  quiet (seen ++ observed onChanged onError x c)%list (fst r)
  ∧ snd r = afterChange onChanged onError x c.
Proof.
  intros Hne Hw Hdue r. subst r. rewrite editDocument_steps.
  destruct (advanceTo_due h c t due x seen Hw Hdue) as (Hq & Hc & Hn & Hd).
  destruct (advanceTo t (h, c)) as [h1 c1]. cbn [fst snd] in *.
  pose proof Hq as (_ & (id & ds & dt & Hl & _) & _).
  rewrite change_other by eauto. split; [exact Hq | exact Hc].
Qed.

Lemma delivered_observed (x : string) (c : Client) :
  delivered (observed onChanged onError x c) = [x].
Proof.
  unfold observed. destruct (fst (onChanged x c)); [reflexivity|].
  destruct onError; reflexivity.
Qed.

End QuietFacts.

Section WatchOneFacts.
Import Js Detection Watcher.
Context {Client : Type}.

(** A new watcher with its first registration is quiet; nothing was
    delivered, and the client was touched only to report that the
    file-system watch could not be set up. *)
Lemma watchOne_quiet (options : FileWatcherOptions) (u : Uri)
      (onChanged : FileChangeCallback Client) onDeleted onError
      (clock : Z) docs fsThrows (c : Client) :
  let r := watchOne options u onChanged onDeleted onError clock docs fsThrows c in
  quiet (fst r) (uriString u) (default 500%Z (optDebounceDelay options))
        onChanged onError (calls (fst (snd r))) (fst (snd r))
  ∧ now (fst (snd r)) = clock
  ∧ delivered (calls (fst (snd r))) = [].
Proof.
  unfold watchOne, newFileWatcher, watch. cbn.
  unfold pushDisposable. cbn. rewrite lookup_insert_eq. cbn.
  assert (Hin : ∀ l, ChangeSubscription 1 ∈ (ChangeSubscription 1 :: l)).
  { intros l. apply elem_of_cons. now left. }
  destruct fsThrows as [e|]; cbn.
  - destruct onError as [f|]; cbn.
    + destruct (f (toError e) c) as [[[]|e'] c1]; cbn;
        (split; [|split; reflexivity]); unfold quiet; cbn;
        (split; [reflexivity|]); (split; [|reflexivity]);
        eexists _, _, _; (split; [reflexivity|]);
        (split; [apply lookup_insert_eq | apply Hin]).
    + (split; [|split; reflexivity]); unfold quiet; cbn;
        (split; [reflexivity|]); (split; [|reflexivity]);
        eexists _, _, _; (split; [reflexivity|]);
        (split; [apply lookup_insert_eq | apply Hin]).
  - unfold pushDisposable. cbn. rewrite !lookup_insert_eq. cbn.
    rewrite !lookup_insert_eq. cbn.
    (split; [|split; reflexivity]); unfold quiet; cbn;
        (split; [reflexivity|]); (split; [|reflexivity]);
        eexists _, _, _; (split; [reflexivity|]);
        (split; [apply lookup_insert_eq | apply Hin]).
Qed.

End WatchOneFacts.

(** ** Bursts of edits and disposal *)

Section BurstFacts.
Import Js Detection Watcher.
Context {Client : Type}.
Variable onChanged : FileChangeCallback Client.
Variable onError : option (FileErrorCallback Client).
Variable this : nat.
Variable document : string.
Variable delay : Z.

Local Abbreviation quiet := (quiet this document delay onChanged onError).
Local Abbreviation waiting := (waiting this document delay onChanged onError).
Local Abbreviation window := (setTimeoutDelay delay).

(** Edits that are more than the delay apart: each finds the call of
    the one before already made. *)
Lemma editAll_apart (rest : list (Z * string)) :
  ∀ (h : Host Client) (c : Client) (t : Z) (x : string) seen,
    (0 <= window)%Z →
    waiting (t + window) x seen h → now h = t → apart window t rest →
    let r := editAll document rest (h, c) in
    let final := lastEdit (t, x) rest in
    ∃ seen',
      waiting (fst final + window) (snd final) seen' (fst r)
      ∧ now (fst r) = fst final
      ∧ (delivered seen' ++ [snd final]
         = delivered seen ++ x :: map snd rest)%list
      ∧ snd r = foldl (fun c x => afterChange onChanged onError x c) c
                      (removelast (x :: map snd rest)).
Proof.
  induction rest as [|[t' x'] rest IH]; intros h c t x seen Hd Hw Hn Hap.
  - exists seen. split; [exact Hw|]. split; [exact Hn|]. split; reflexivity.
  - destruct Hap as [Hlt Hap]. cbn [fst] in Hlt, Hap.
    destruct (edit_late onChanged onError this document delay
                        h c t' (t + window) x x' seen Hw) as (Hw1 & Hn1 & Hc1);
      [lia | lia |].
    unfold editAll. cbn [foldl fst snd].
    destruct (editDocument document x' t' (h, c)) as [h1 c1].
    cbn [fst snd] in *.
    destruct (IH h1 c1 t' x' _ Hd Hw1 Hn1 Hap)
      as (seen' & Hw2 & Hn2 & Hdel & Hcl).
    exists seen'. unfold lastEdit in *. rewrite last_cons_default.
    split; [exact Hw2|]. split; [exact Hn2|]. split.
    + rewrite Hdel, delivered_app, delivered_observed.
      cbn [map snd]. now rewrite <- app_assoc.
    + unfold editAll in Hcl. rewrite Hcl, Hc1. reflexivity.
Qed.

(** Edits inside the window keep the call pending, for the last of
    them; nothing is added to what was seen. *)
Lemma editAll_spaced (rest : list (Z * string)) :
  ∀ (h : Host Client) (c : Client) (t : Z) (x : string) seen,
    waiting (t + window) x seen h → now h = t → spaced window t rest →
    let r := editAll document rest (h, c) in
    let final := lastEdit (t, x) rest in
    waiting (fst final + window) (snd final) seen (fst r)
    ∧ now (fst r) = fst final ∧ snd r = c.
Proof.
  induction rest as [|[t' x'] rest IH]; intros h c t x seen Hw Hn Hsp.
  - split; [exact Hw|]. split; [exact Hn | reflexivity].
  - destruct Hsp as [Hwin Hsp]. cbn [fst] in Hwin, Hsp.
    destruct (edit_early onChanged onError this document delay
                         h c t' (t + window) x x' seen Hw) as (Hw1 & Hn1 & Hc1);
      [lia|].
    unfold editAll. cbn [foldl fst snd].
    destruct (editDocument document x' t' (h, c)) as [h1 c1].
    cbn [fst snd] in *. subst c1.
    destruct (IH h1 c t' x' _ Hw1 Hn1 Hsp) as (Hw2 & Hn2 & Hc2).
    unfold lastEdit in *. rewrite last_cons_default.
    split; [exact Hw2|]. split; [exact Hn2 | exact Hc2].
Qed.

End BurstFacts.

Section DisposeFacts.
Import Js Detection Watcher.
Context {Client : Type}.

Lemma release_all_calls (l : list Subscription) :
  ∀ h : Host Client,
    calls (foldl (fun h d => release d h) h l) = calls h
    ∧ now (foldl (fun h d => release d h) h l) = now h.
Proof.
  induction l as [|d l IH]; intros h; cbn [foldl]; [auto|].
  destruct (IH (release d h)) as [-> ->]. destruct d; auto.
Qed.

Lemma release_all_none (l : list Subscription) :
  ∀ h : Host Client,
    changeListeners h = [] →
    changeListeners (foldl (fun h d => release d h) h l) = [].
Proof.
  induction l as [|d l IH]; intros h H; cbn [foldl]; [exact H|].
  apply IH. destruct d; cbn; try exact H. now rewrite H.
Qed.

Lemma release_all_one (l : list Subscription) :
  ∀ (h : Host Client) id x,
    changeListeners h = [(id, x)] → ChangeSubscription id ∈ l →
    changeListeners (foldl (fun h d => release d h) h l) = [].
Proof.
  induction l as [|d l IH]; intros h id x H Hin; cbn [foldl].
  - inversion Hin.
  - apply elem_of_cons in Hin as [<-|Hin].
    + apply release_all_none. cbn. rewrite H. unfold withoutId.
      rewrite filter_cons. cbn.
      destruct (decide (id ≠ id)) as [?|_]; [contradiction | reflexivity].
    + destruct d as [id'| |]; cbn.
      * rewrite H. unfold withoutId. rewrite filter_cons. cbn.
        destruct (decide (id ≠ id')).
        -- eapply IH; [|exact Hin]. reflexivity.
        -- now apply release_all_none.
      * eapply IH; [|exact Hin]. exact H.
      * eapply IH; [|exact Hin]. exact H.
Qed.

(** A host without change listeners and timers: edits and time call
    nothing. *)
Lemma editAll_silent (document : string) (edits : list (Z * string)) :
  ∀ (h : Host Client) (c : Client),
    changeListeners h = [] → timers h = [] →
    let r := editAll document edits (h, c) in
    changeListeners (fst r) = [] ∧ timers (fst r) = []
    ∧ calls (fst r) = calls h ∧ snd r = c.
Proof.
  induction edits as [|[t x] edits IH]; intros h c Hl Ht.
  - cbn. auto.
  - unfold editAll. cbn [foldl fst snd].
    assert (He : editDocument document x t (h, c)
                 = (setDocuments (<[document := x]> (documents h))
                                 (setNow (Z.max (now h) t) h), c)).
    { destruct h as [now0 next docs cls dls fsw thr tms ws cs].
      simpl in *. subst. reflexivity. }
    rewrite He.
    destruct (IH (setDocuments (<[document := x]> (documents h))
                               (setNow (Z.max (now h) t) h)) c Hl Ht)
      as (H1 & H2 & H3 & H4).
    unfold editAll in *. auto.
Qed.

Lemma advanceTo_silent (h : Host Client) (c : Client) (T : Z) :
  timers h = [] → advanceTo T (h, c) = (setNow (Z.max (now h) T) h, c).
Proof.
  intros Ht. destruct h as [now0 next docs cls dls fsw thr tms ws cs].
  simpl in *. subst. reflexivity.
Qed.

(** Disposing the watcher with its single registration leaves no
    listener and no timer, and calls nothing. *)
Lemma dispose_waiting this document delay
      (onChanged : FileChangeCallback Client) onError due x seen
      (h : Host Client) :
  waiting this document delay onChanged onError due x seen h →
  let h' := dispose this h in
  changeListeners h' = [] ∧ timers h' = [] ∧ calls h' = seen.
Proof.
  intros ((id & tid & ds & Hl & Ht & Hw & Hin) & Hdoc & Hc) h'. subst h'.
  unfold dispose. rewrite Hw. cbn [debounceTimer Watcher.disposables].
  set (h1 := setDebounceTimer this None (clearTimeout tid h)).
  assert (Hl1 : changeListeners h1 = [(id, listenerOf this document onChanged onError)]).
  { subst h1. unfold setDebounceTimer. cbn. rewrite Hw. exact Hl. }
  assert (Ht1 : timers h1 = []).
  { subst h1. unfold setDebounceTimer. cbn. rewrite Hw. cbn. rewrite Ht.
    unfold withoutId. rewrite filter_cons. cbn.
    destruct (decide (tid ≠ tid)) as [?|_]; [contradiction | reflexivity]. }
  assert (Hc1 : calls h1 = seen).
  { subst h1. unfold setDebounceTimer. cbn. rewrite Hw. exact Hc. }
  pose proof (release_all_one ds h1 id _ Hl1 Hin) as Hl2.
  destruct (release_all_frame ds h1) as [Ht2 Hw2].
  destruct (release_all_calls ds h1) as [Hc2 _].
  destruct (watchers (foldl (fun h d => release d h) h1 ds) !! this); cbn;
    rewrite ?Hl2, ?Ht2, ?Hc2; auto.
Qed.

End DisposeFacts.

Section FoldFacts.
Import Watcher.

Lemma foldl_last_edit {A} (f : A → string → A) (rest : list (Z * string)) :
  ∀ (c : A) (t1 : Z) (x1 : string),
    f (foldl f c (removelast (x1 :: map snd rest)))
      (snd (lastEdit (t1, x1) rest))
    = foldl f c (x1 :: map snd rest).
Proof.
  induction rest as [|[t' x'] rest IH]; intros c t1 x1; [reflexivity|].
  unfold lastEdit in *. rewrite last_cons_default.
  change (removelast (x1 :: map snd ((t', x') :: rest)))
    with (x1 :: removelast (x' :: map snd rest)).
  cbn [foldl map snd]. apply (IH (f c x1) t' x').
Qed.

End FoldFacts.

(** X14. Edits of the watched document that are more than the debounce
    window apart are all delivered: once the last timer is due, the
    client is what the change callback (and the error callback, where
    it throws) leaves when run once per edit, in order, each time with
    the text of that edit. *)
Theorem edits_apart_all_delivered {Client : Type}
        (options : Watcher.FileWatcherOptions) (u : Detection.Uri)
        (onChanged : Watcher.FileChangeCallback Client)
        (onDeleted : option (Watcher.FileDeletionCallback Client))
        (onError : option (Watcher.FileErrorCallback Client))
        (clock : Z) (docs : gmap string string) (fsThrows : option Js.Thrown)
        (c : Client) (first : Z * string) (rest : list (Z * string)) (T : Z) :
  let delay := default 500%Z (Watcher.optDebounceDelay options) in
  let window := Js.setTimeoutDelay delay in
  (clock <= fst first)%Z →
  Watcher.apart window (fst first) rest →
  (fst (Watcher.lastEdit first rest) + window <= T)%Z →
  let watching :=
    snd (Watcher.watchOne options u onChanged onDeleted onError
                          clock docs fsThrows c) in
  let final :=
    Watcher.advanceTo T
      (Watcher.editAll (Detection.uriString u) (first :: rest) watching) in
  snd final
  = foldl (fun c x => Watcher.afterChange onChanged onError x c)
          (snd watching) (map snd (first :: rest)).
Proof.
  intros delay window Hclock Hap HT watching final.
  pose proof (setTimeoutDelay_positive delay) as Hd. fold window in Hd.
  destruct (watchOne_quiet options u onChanged onDeleted onError
                           clock docs fsThrows c) as (Hq & Hnow & Hnone).
  fold watching in Hq, Hnow, Hnone.
  destruct watching as [h0 c0] eqn:Ew. cbn [fst snd] in *.
  destruct first as [t1 x1]. cbn [fst snd] in *.
  destruct (edit_quiet onChanged onError _ (Detection.uriString u) delay
                       h0 c0 t1 x1 _ Hq ltac:(lia)) as (Hw & Hn1 & Hc1).
  subst final. unfold Watcher.editAll. cbn [foldl fst snd].
  destruct (Watcher.editDocument (Detection.uriString u) x1 t1 (h0, c0))
    as [h1 c1]. cbn [fst snd] in *.
  destruct (editAll_apart onChanged onError _ (Detection.uriString u) delay
              rest h1 c1 t1 x1 _ ltac:(lia) Hw Hn1 Hap)
    as (seen' & Hw2 & Hn2 & Hdel & Hcl).
  unfold Watcher.editAll in *.
  destruct (foldl _ (h1, c1) rest) as [h2 c2]. cbn [fst snd] in *.
  destruct (advanceTo_due onChanged onError _ (Detection.uriString u) delay
              h2 c2 T _ _ _ Hw2 HT) as (_ & Hc & _).
  rewrite Hc, Hcl, Hc1.
  exact (foldl_last_edit
           (fun c x => Watcher.afterChange onChanged onError x c)
           rest c0 t1 x1).
Qed.

(** Three edits 600 ms apart: the callback has run three times, with
    the three texts in order. *)
Lemma edits_apart_all_delivered_sample :
  let first := (0%Z, "openapi: 3.0.0") in
  let rest := [(600%Z, "openapi: 3.0.1"); (1200%Z, "openapi: 3.1.0")] in
  let final :=
    Watcher.advanceTo 1700
      (Watcher.editAll "file:///t/a.yaml" (first :: rest)
         (snd (Watcher.watchOne {| Watcher.optDebounceDelay := None |} (Sample.file "/t/a.yaml")
                 Sample.recordFirst None None 0 ∅ None ([], [])))) in
  Watcher.apart 500 (fst first) rest
  ∧ snd final = (["openapi: 3.0.0"; "openapi: 3.0.1"; "openapi: 3.1.0"], []).
Proof.
  intros first rest final.
  assert (H : Watcher.apart 500 (fst first) rest).
  { vm_compute. repeat split. }
  split; [exact H|].
  pose proof (edits_apart_all_delivered {| Watcher.optDebounceDelay := None |}
                (Sample.file "/t/a.yaml") Sample.recordFirst None None
                0%Z ∅ None ([], []) first rest 1700%Z
                ltac:(vm_compute; discriminate) H
                ltac:(vm_compute; discriminate)) as Hx.
  cbv zeta in Hx. refine (eq_trans Hx _).
  vm_compute. reflexivity.
Defined.

(** X15. Disposing the handle while a call is pending drops that
    call: whatever edits follow and however long one waits, the callback
    is never called, the client is as it was after registration, and no
    listener and no timer is left on the host. *)
Theorem dispose_drops_pending_call {Client : Type}
        (options : Watcher.FileWatcherOptions) (u : Detection.Uri)
        (onChanged : Watcher.FileChangeCallback Client)
        (onDeleted : option (Watcher.FileDeletionCallback Client))
        (onError : option (Watcher.FileErrorCallback Client))
        (clock : Z) (docs : gmap string string) (fsThrows : option Js.Thrown)
        (c : Client) (first : Z * string) (rest later : list (Z * string))
        (T : Z) :
  let delay := default 500%Z (Watcher.optDebounceDelay options) in
  let window := Js.setTimeoutDelay delay in
  (clock <= fst first)%Z →
  Watcher.spaced window (fst first) rest →
  let started :=
    Watcher.watchOne options u onChanged onDeleted onError
                     clock docs fsThrows c in
  let edited :=
    Watcher.editAll (Detection.uriString u) (first :: rest) (snd started) in
  let disposed :=
    (Watcher.disposeHandle {| Watcher.handleThis := fst started |} (fst edited),
     snd edited) in
  let final :=
    Watcher.advanceTo T
      (Watcher.editAll (Detection.uriString u) later disposed) in
  Watcher.delivered (Watcher.calls (fst final)) = []
  ∧ Watcher.calls (fst final) = Watcher.calls (fst (snd started))
  ∧ snd final = snd (snd started)
  ∧ Watcher.changeListeners (fst final) = []
  ∧ Watcher.timers (fst final) = [].
Proof.
  intros delay window Hclock Hsp started edited disposed final.
  destruct (watchOne_quiet options u onChanged onDeleted onError
                           clock docs fsThrows c) as (Hq & Hnow & Hnone).
  fold started in Hq, Hnow, Hnone.
  destruct started as [this [h0 c0]] eqn:Ew. cbn [fst snd] in *.
  destruct first as [t1 x1]. cbn [fst snd] in *.
  destruct (edit_quiet onChanged onError _ (Detection.uriString u) delay
                       h0 c0 t1 x1 _ Hq ltac:(lia)) as (Hw & Hn1 & Hc1).
  subst final disposed edited.
  change (Watcher.editAll (Detection.uriString u) ((t1, x1) :: rest) (h0, c0))
    with (Watcher.editAll (Detection.uriString u) rest
            (Watcher.editDocument (Detection.uriString u) x1 t1 (h0, c0))).
  destruct (Watcher.editDocument (Detection.uriString u) x1 t1 (h0, c0))
    as [h1 c1]. cbn [fst snd] in *. subst c1.
  destruct (editAll_spaced onChanged onError _ (Detection.uriString u) delay
              rest h1 c0 t1 x1 _ Hw Hn1 Hsp) as (Hw2 & Hn2 & Hc2).
  destruct (Watcher.editAll (Detection.uriString u) rest (h1, c0)) as [h2 c2].
  cbn [fst snd] in *. subst c2.
  destruct (dispose_waiting _ _ _ _ _ _ _ _ h2 Hw2) as (Hl3 & Ht3 & Hc3).
  unfold Watcher.disposeHandle. cbn [Watcher.handleThis].
  destruct (editAll_silent (Detection.uriString u) later
              (Watcher.dispose this h2) c0 Hl3 Ht3) as (Hl4 & Ht4 & Hc4 & Hcl4).
  destruct (Watcher.editAll (Detection.uriString u) later
              (Watcher.dispose this h2, c0)) as [h4 c4]. cbn [fst snd] in *.
  rewrite (advanceTo_silent h4 c4 T Ht4). cbn.
  rewrite Hc4, Hc3, Hnone. auto.
Qed.

(** Two edits, disposal before the timer is due, a third edit after. *)
Lemma dispose_drops_pending_call_sample :
  let first := (0%Z, "openapi: 3.0.0") in
  let rest := [(100%Z, "openapi: 3.0.1")] in
  let started :=
    Watcher.watchOne {| Watcher.optDebounceDelay := None |} (Sample.file "/t/a.yaml") Sample.recordFirst
                     None None 0 ∅ None ([], []) in
  let edited := Watcher.editAll "file:///t/a.yaml" (first :: rest) (snd started) in
  let disposed :=
    (Watcher.disposeHandle {| Watcher.handleThis := fst started |} (fst edited),
     snd edited) in
  let final :=
    Watcher.advanceTo 5000
      (Watcher.editAll "file:///t/a.yaml" [(200%Z, "openapi: 3.1.0")] disposed) in
  Watcher.spaced 500 (fst first) rest
  ∧ snd final = ([], [])
  ∧ Watcher.timers (fst final) = [].
Proof.
  intros first rest started edited disposed final.
  assert (H : Watcher.spaced 500 (fst first) rest).
  { vm_compute. repeat split; discriminate. }
  split; [exact H|].
  destruct (dispose_drops_pending_call {| Watcher.optDebounceDelay := None |}
              (Sample.file "/t/a.yaml") Sample.recordFirst None None
              0%Z ∅ None ([], []) first rest [(200%Z, "openapi: 3.1.0")]
              5000%Z ltac:(vm_compute; discriminate) H)
    as (_ & _ & H2 & _ & H3).
  split; [|exact H3].
  refine (eq_trans H2 _). vm_compute. reflexivity.
Defined.

(** X16. When the change callback throws, the error is caught: with
    an error callback it is handed over, wrapped into an Error when it
    is not one, and the client is what the error callback leaves;
    without one the error is dropped and the client is what the change
    callback left. *)
Theorem failing_callback_is_reported {Client : Type}
        (options : Watcher.FileWatcherOptions) (u : Detection.Uri)
        (onChanged : Watcher.FileChangeCallback Client)
        (onDeleted : option (Watcher.FileDeletionCallback Client))
        (onError : option (Watcher.FileErrorCallback Client))
        (clock : Z) (docs : gmap string string) (fsThrows : option Js.Thrown)
        (c : Client) (t : Z) (x : string) (T : Z)
        (e : Js.Thrown) (c1 : Client) :
  let delay := default 500%Z (Watcher.optDebounceDelay options) in
  let window := Js.setTimeoutDelay delay in
  let watching :=
    snd (Watcher.watchOne options u onChanged onDeleted onError
                          clock docs fsThrows c) in
  (clock <= t)%Z → (t + window <= T)%Z →
  onChanged x (snd watching) = (Js.Throw e, c1) →
  let final :=
    Watcher.advanceTo T
      (Watcher.editDocument (Detection.uriString u) x t watching) in
  match onError with
  | Some f =>
      Watcher.calls (fst final)
      = (Watcher.calls (fst watching)
         ++ [Watcher.CallChanged x; Watcher.CallError (Js.toError e)])%list
      ∧ snd final = snd (f (Js.toError e) c1)
  | None =>
      Watcher.calls (fst final)
      = (Watcher.calls (fst watching) ++ [Watcher.CallChanged x])%list
      ∧ snd final = c1
  end.
Proof.
  intros delay window watching Hclock HT Hthrow final.
  destruct (watchOne_quiet options u onChanged onDeleted onError
                           clock docs fsThrows c) as (Hq & Hnow & Hnone).
  fold watching in Hq, Hnow, Hnone.
  destruct watching as [h0 c0] eqn:Ew. cbn [fst snd] in *.
  destruct (edit_quiet onChanged onError _ (Detection.uriString u) delay
                       h0 c0 t x _ Hq ltac:(lia)) as (Hw & Hn1 & Hc1).
  subst final.
  destruct (Watcher.editDocument (Detection.uriString u) x t (h0, c0))
    as [h1 c1']. cbn [fst snd] in *. subst c1'.
  destruct (advanceTo_due onChanged onError _ (Detection.uriString u) delay
              h1 c0 T _ _ _ Hw HT) as ((_ & _ & Hc) & Hcl & _).
  rewrite Hc, Hcl. unfold Watcher.observed, Watcher.afterChange.
  rewrite Hthrow. cbn. destruct onError; split; reflexivity.
Qed.

(** A callback that throws, with an error callback. *)
Lemma failing_callback_is_reported_sample :
  let watching :=
    snd (Watcher.watchOne {| Watcher.optDebounceDelay := None |} (Sample.file "/t/a.yaml") Sample.failing
           None (Some Sample.noting) 0 ∅ None 0) in
  let final :=
    Watcher.advanceTo 500
      (Watcher.editDocument "file:///t/a.yaml" "openapi: 3.0.0" 0 watching) in
  Sample.failing "openapi: 3.0.0" (snd watching)
  = (Js.Throw (Js.ThrownValue "boom"), 0)
  ∧ snd final = 100.
Proof.
  intros watching final.
  assert (H : Sample.failing "openapi: 3.0.0" (snd watching)
              = (Js.Throw (Js.ThrownValue "boom"), 0)).
  { vm_compute. reflexivity. }
  split; [exact H|].
  exact (proj2
           (failing_callback_is_reported {| Watcher.optDebounceDelay := None |}
              (Sample.file "/t/a.yaml") Sample.failing None
              (Some Sample.noting) 0%Z ∅ None 0 0%Z "openapi: 3.0.0" 500%Z
              (Js.ThrownValue "boom") 0
              ltac:(vm_compute; discriminate) ltac:(vm_compute; discriminate)
              H)).
Defined.

(** ** Registrations of one watcher *)

Section WatchFrame.
Import Js Detection Watcher.
Context {Client : Type}.

(** What a registration adds to the loop: one change listener, at the
    end; timers, clock, documents and what was delivered stay. *)
Lemma watch_frame this u (onC : FileChangeCallback Client) onD onE h c fw :
  watchers h !! this = Some fw →
  let h' := fst (snd (watch this u onC onD onE (h, c))) in
  changeListeners h'
  = (changeListeners h ++ [(nextId h, listenerOf this (uriString u) onC onE)])%list
  ∧ timers h' = timers h ∧ now h' = now h ∧ documents h' = documents h
  ∧ delivered (calls h') = delivered (calls h)
  ∧ ∃ ds, watchers h' !! this
          = Some {| disposables := ds; debounceTimer := debounceTimer fw;
                    debounceDelay := debounceDelay fw |}.
Proof.
  intros Hw.
  destruct h as [now0 next docs cls dls fsw thr tms ws cs]. simpl in *.
  unfold watch, pushDisposable. cbn. rewrite Hw. cbn.
  destruct thr as [e|]; cbn.
  - destruct onE as [f|]; cbn.
    + destruct (f (toError e) c) as [[[]|e'] c1]; cbn;
        rewrite delivered_app; cbn; rewrite app_nil_r;
        repeat split; eexists; apply lookup_insert_eq.
    + repeat split; eexists; apply lookup_insert_eq.
  - unfold pushDisposable. cbn. rewrite !lookup_insert_eq. cbn.
    rewrite !lookup_insert_eq. cbn.
    repeat split; eexists; apply lookup_insert_eq.
Qed.

End WatchFrame.

Section SharedTimer.
Import Js Detection Watcher.
Context {Client : Type}.

(** Two registrations on one watcher share its timer: a change of the
    second document inside the window of the first replaces the pending
    call. *)
Lemma shared_timer (this : nat) (a b : string)
      (onA onB : FileChangeCallback Client) eA eB
      (h : Host Client) (c : Client) i1 i2 ds delay
      (tA tB T : Z) (x y : string) :
  a ≠ b →
  changeListeners h = [(i1, listenerOf this a onA eA); (i2, listenerOf this b onB eB)] →
  timers h = [] →
  watchers h !! this
  = Some {| disposables := ds; debounceTimer := None; debounceDelay := delay |} →
  (now h <= tA)%Z → (tA <= tB < tA + setTimeoutDelay delay)%Z →
  (tB + setTimeoutDelay delay <= T)%Z →
  let final := advanceTo T (editDocument b y tB (editDocument a x tA (h, c))) in
  calls (fst final) = (calls h ++ observed onB eB y c)%list
  ∧ snd final = afterChange onB eB y c.
Proof.
  intros Hne Hl Ht Hw HtA HtB HT.
  destruct h as [now0 next docs cls dls fsw thr tms ws cs]. simpl in *. subst.
  assert (Hab : String.eqb a b = false) by now apply String.eqb_neq.
  assert (Hba : String.eqb b a = false) by (apply String.eqb_neq; congruence).
  unfold editDocument at 2. unfold advanceTo. cbn -[setTimeoutDelay].
  unfold fireDidChangeTextDocument. cbn -[setTimeoutDelay].
  unfold onDidChangeTextDocument. cbn -[setTimeoutDelay]. rewrite String.eqb_refl, Hab.
  unfold debounceChange. cbn -[setTimeoutDelay]. rewrite Hw. cbn -[setTimeoutDelay].
  unfold setDebounceTimer. cbn -[setTimeoutDelay]. rewrite Hw. cbn -[setTimeoutDelay].
  unfold editDocument, advanceTo. cbn -[setTimeoutDelay].
  destruct (Z.leb_spec (Z.max now0 tA + setTimeoutDelay delay) tB) as [Hle|Hgt]; [lia|]. cbn -[setTimeoutDelay].
  unfold fireDidChangeTextDocument. cbn -[setTimeoutDelay].
  unfold onDidChangeTextDocument. cbn -[setTimeoutDelay]. rewrite String.eqb_refl, Hba.
  unfold debounceChange. cbn -[setTimeoutDelay]. rewrite lookup_insert_eq. cbn -[setTimeoutDelay].
  destruct (decide (next ≠ next)) as [?|_]; [contradiction|]. cbn -[setTimeoutDelay].
  unfold setDebounceTimer. cbn -[setTimeoutDelay]. rewrite lookup_insert_eq. cbn -[setTimeoutDelay].
  destruct (Z.leb_spec (Z.max (Z.max now0 tA) tB + setTimeoutDelay delay) T) as [Hle|Hgt'];
    [|lia]. cbn -[setTimeoutDelay].
  destruct (decide (S next ≠ S next)) as [?|_]; [contradiction|]. cbn -[setTimeoutDelay].
  unfold runTimer, runDebounced. cbn -[setTimeoutDelay]. rewrite lookup_insert_eq. cbn -[setTimeoutDelay].
  unfold afterChange, observed.
  destruct (onB y c) as [[[]|e] c1]; cbn -[setTimeoutDelay].
  - unfold setDebounceTimer. cbn -[setTimeoutDelay]. rewrite lookup_insert_eq. cbn -[setTimeoutDelay]. now split.
  - destruct eB as [f|].
    + destruct (f (toError e) c1) as [[[]|e'] c2]; cbn -[setTimeoutDelay].
      * unfold setDebounceTimer. cbn -[setTimeoutDelay]. rewrite lookup_insert_eq. cbn -[setTimeoutDelay].
        now rewrite <- app_assoc.
      * now rewrite <- app_assoc.
    + unfold setDebounceTimer. cbn -[setTimeoutDelay]. rewrite lookup_insert_eq. cbn -[setTimeoutDelay]. now split.
Qed.

End SharedTimer.

(** X18. The debounce timer belongs to the watcher, not to the
    registration: with two documents registered on one watcher, an edit
    of the second within the delay of an edit of the first cancels the
    pending call of the first, and only the callback of the second
    runs. *)
Theorem one_timer_for_all_registrations {Client : Type}
        (options : Watcher.FileWatcherOptions) (uA uB : Detection.Uri)
        (onA onB : Watcher.FileChangeCallback Client)
        (dA dB : option (Watcher.FileDeletionCallback Client))
        (eA eB : option (Watcher.FileErrorCallback Client))
        (clock : Z) (docs : gmap string string) (fsThrows : option Js.Thrown)
        (c : Client) (tA tB T : Z) (x y : string) :
  let window :=
    Js.setTimeoutDelay (default 500%Z (Watcher.optDebounceDelay options)) in
  Detection.uriString uA ≠ Detection.uriString uB →
  (clock <= tA)%Z → (tA <= tB < tA + window)%Z → (tB + window <= T)%Z →
  let (this, h0) := Watcher.newFileWatcher options
                      (Watcher.boot clock docs fsThrows) in
  let hc1 := snd (Watcher.watch this uA onA dA eA (h0, c)) in
  let hc2 := snd (Watcher.watch this uB onB dB eB hc1) in
  let final :=
    Watcher.advanceTo T
      (Watcher.editDocument (Detection.uriString uB) y tB
         (Watcher.editDocument (Detection.uriString uA) x tA hc2)) in
  Watcher.delivered (Watcher.calls (fst final)) = [y]
  ∧ snd final = Watcher.afterChange onB eB y (snd hc2).
Proof.
  intros window Hne HtA HtB HT.
  destruct (Watcher.newFileWatcher options (Watcher.boot clock docs fsThrows))
    as [this h0] eqn:E0.
  assert (H0 : Watcher.watchers h0 !! this
               = Some {| Watcher.disposables := [];
                         Watcher.debounceTimer := None;
                         Watcher.debounceDelay :=
                           default 500%Z (Watcher.optDebounceDelay options) |}
               ∧ Watcher.changeListeners h0 = [] ∧ Watcher.timers h0 = []
               ∧ Watcher.now h0 = clock ∧ Watcher.calls h0 = []).
  { unfold Watcher.newFileWatcher in E0. cbn in E0. injection E0 as <- <-.
    cbn. repeat split; apply lookup_insert_eq. }
  destruct H0 as (Hw0 & Hl0 & Ht0 & Hn0 & Hc0).
  destruct (watch_frame this uA onA dA eA h0 c _ Hw0)
    as (Hl1 & Ht1 & Hn1 & Hd1 & Hc1 & [ds1 Hw1]).
  destruct (Watcher.watch this uA onA dA eA (h0, c)) as [r1 [h1 c1]].
  cbn [fst snd] in *.
  destruct (watch_frame this uB onB dB eB h1 c1 _ Hw1)
    as (Hl2 & Ht2 & Hn2 & Hd2 & Hc2 & [ds2 Hw2]).
  destruct (Watcher.watch this uB onB dB eB (h1, c1)) as [r2 [h2 c2]].
  cbn [fst snd] in *.
  rewrite Hl1, Hl0 in Hl2. cbn in Hl2. rewrite Ht1, Ht0 in Ht2.
  destruct (shared_timer this _ _ onA onB eA eB h2 c2 _ _ _ _ tA tB T x y
              Hne Hl2 Ht2 Hw2 ltac:(lia) HtB HT) as [Hc Hcl].
  split; [|exact Hcl].
  rewrite Hc, delivered_app, delivered_observed, Hc2, Hc1, Hc0. reflexivity.
Qed.

(** Two registrations of one watcher, edited 100 ms apart: only the
    second callback has run. *)
Lemma one_timer_for_all_registrations_sample :
  let made := Watcher.newFileWatcher {| Watcher.optDebounceDelay := None |} (Watcher.boot 0 ∅ None) in
  let hc1 :=
    snd (Watcher.watch (fst made) (Sample.file "/a.yaml") Sample.recordFirst
           None None (snd made, ([], []))) in
  let hc2 :=
    snd (Watcher.watch (fst made) (Sample.file "/b.yaml") Sample.recordSecond
           None None hc1) in
  let final :=
    Watcher.advanceTo 600
      (Watcher.editDocument "file:///b.yaml" "swagger: 2.0" 100
         (Watcher.editDocument "file:///a.yaml" "openapi: 3.0.0" 0 hc2)) in
  Detection.uriString (Sample.file "/a.yaml")
  ≠ Detection.uriString (Sample.file "/b.yaml")
  ∧ snd final = ([], ["swagger: 2.0"]).
Proof.
  intros made hc1 hc2 final.
  assert (H : Detection.uriString (Sample.file "/a.yaml")
              ≠ Detection.uriString (Sample.file "/b.yaml")).
  { vm_compute. discriminate. }
  split; [exact H|].
  pose proof (one_timer_for_all_registrations {| Watcher.optDebounceDelay := None |}
                (Sample.file "/a.yaml") (Sample.file "/b.yaml")
                Sample.recordFirst Sample.recordSecond None None None None
                0%Z ∅ None ([], []) 0%Z 100%Z 600%Z
                "openapi: 3.0.0" "swagger: 2.0"
                H ltac:(vm_compute; discriminate)
                ltac:(vm_compute; split; [discriminate | reflexivity])
                ltac:(vm_compute; discriminate)) as Hx.
  change (Watcher.newFileWatcher {| Watcher.optDebounceDelay := None |} (Watcher.boot 0 ∅ None))
    with (fst made, snd made) in Hx.
  cbv zeta iota beta in Hx. destruct Hx as [_ Hx].
  refine (eq_trans Hx _). vm_compute. reflexivity.
Defined.

(** X17. Registration itself calls nothing.  The deletion of another
    file changes nothing; the deletion of the watched file calls the
    deletion callback once, an error it throws going to the error
    callback when there is one; after disposal, or when the file-system
    watcher could not be created, no deletion is reported. *)
Theorem deletion_is_reported {Client : Type}
        (options : Watcher.FileWatcherOptions) (u : Detection.Uri)
        (onChanged : Watcher.FileChangeCallback Client)
        (onDeleted : Watcher.FileDeletionCallback Client)
        (onError : option (Watcher.FileErrorCallback Client))
        (clock : Z) (docs : gmap string string) (c : Client) (deleted : string) :
  let started :=
    Watcher.watchOne options u onChanged (Some onDeleted) onError
                     clock docs None c in
  let h := fst (snd started) in
  let r := Watcher.fireDidDelete deleted (h, c) in
  snd (snd started) = c
  ∧ (deleted ≠ Detection.uriString u → r = (h, c))
  ∧ (deleted = Detection.uriString u →
     Watcher.calls (fst r)
     = Watcher.CallDeleted ::
       match fst (onDeleted c), onError with
       | Js.Throw e, Some _ => [Watcher.CallError (Js.toError e)]
       | _, _ => []
       end
     ∧ snd r = match onDeleted c with
               | (Js.Normal _, c1) => c1
               | (Js.Throw e, c1) =>
                   match onError with
                   | Some f => snd (f (Js.toError e) c1)
                   | None => c1
                   end
               end)
  ∧ Watcher.fireDidDelete deleted (Watcher.dispose (fst started) h, c)
    = (Watcher.dispose (fst started) h, c)
  ∧ (∀ e,
       let failed :=
         snd (Watcher.watchOne options u onChanged (Some onDeleted) onError
                               clock docs (Some e) c) in
       Watcher.fireDidDelete deleted failed = failed).
Proof.
  intros started h r. subst r h started.
  unfold Watcher.watchOne, Watcher.newFileWatcher, Watcher.watch. cbn.
  unfold Watcher.pushDisposable. cbn. rewrite !lookup_insert_eq. cbn.
  unfold Watcher.pushDisposable. cbn. rewrite !lookup_insert_eq. cbn.
  rewrite !lookup_insert_eq. cbn.
  split; [reflexivity|]. split; [|split; [|split]].
  - intros Hne. unfold Watcher.fireDidDelete. cbn.
    unfold Watcher.onDidDelete. cbn.
    now apply String.eqb_neq in Hne as ->.
  - intros ->. unfold Watcher.fireDidDelete. cbn.
    unfold Watcher.onDidDelete. cbn. rewrite String.eqb_refl.
    destruct (onDeleted c) as [[[]|e] c1]; cbn; [now split|].
    destruct onError as [f|]; [|now split].
    destruct (f (Js.toError e) c1) as [[[]|e'] c2]; now split.
  - unfold Watcher.dispose. cbn. rewrite !lookup_insert_eq. cbn.
    rewrite !lookup_insert_eq. reflexivity.
  - intros e. destruct onError as [f|]; cbn.
    + destruct (f (Js.toError e) c) as [[[]|e'] c1]; reflexivity.
    + reflexivity.
Qed.

(** ** Previews that fail to open *)

Section FailureFacts.
Import Js Detection Reader Webview Manager.

(** The window after a creation that failed: the panel was asked for
    and the failure shown. *)
Lemma createPreview_throws_window (doc : TextDocument) (col : ViewColumn)
      (w : World) (e : Thrown) :
  createWebviewPanelThrows (window (client w)) = Some e →
  let r := createPreview doc col w in
  window (client (snd r))
  = notify (ErrorNotification ("Failed to create preview: " ++ describe e))
           (snd (createWebviewPanel (panelTitle doc) col (window (client w))))
  ∧ (lastColumnPositions (snd r) = lastColumnPositions w
     ∨ ∃ c, lastColumnPositions (snd r)
            = <[uriString (uri doc) := c]> (lastColumnPositions w)).
Proof.
  intros Hc. unfold createPreview, createWebviewPanel. rewrite Hc.
  unfold createPreviewFailed. cbn [fst snd].
  match goal with
  | |- context [disposePreview ?u ?w0] =>
      destruct (disposePreview_effect u w0) as (_ & Hwin & Hl);
      rewrite Hwin, Hl
  end.
  cbn [client window setClient setLoopClient setWindow snd previews
       lastColumnPositions loop fst].
  split; [reflexivity|].
  destruct (previews w !! uriString (uri doc)) as [s|]; [|now left].
  destruct (panelViewColumn _ _) as [[c|]|?]; [right; eauto | now left | now left].
Qed.

(** The three ways of [createOrShowPreview]: the panel of the session
    is revealed; or a preview is created, in the world as it is or
    after the session that could not be revealed was disposed. *)
Lemma createOrShowPreview_cases (doc : TextDocument)
      (column : option ViewColumn) (w : World) :
  let r := createOrShowPreview doc column w in
  (fst r = Normal tt ∧ previews (snd r) = previews w
   ∧ lastColumnPositions (snd r) = lastColumnPositions w
   ∧ is_Some (previews w !! uriString (uri doc)))
  ∨ (∃ col, r = createPreview doc col w
            ∧ previews w !! uriString (uri doc) = None)
  ∨ (∃ col, r = createPreview doc col (disposePreview (uriString (uri doc)) w)).
Proof.
  unfold createOrShowPreview.
  destruct (previews w !! uriString (uri doc)) as [existing|] eqn:Hs.
  - unfold reveal.
    destruct (panels (window (client w)) !! panel existing) as [wp|].
    + destruct (revealThrows wp).
      * right. right. rewrite setClient_same. eauto.
      * left. cbn. eauto.
    + right. right. rewrite setClient_same. eauto.
  - right. left. eauto.
Qed.

End FailureFacts.

Section ThrowFacts.
Import Js Detection Reader Webview Manager.

(** A call of [createOrShowPreview] that throws: the host refused the
    panel; the session of the document, if there was one, is gone and
    the failure was shown. *)
Lemma createOrShowPreview_throws (doc : TextDocument)
      (column : option ViewColumn) (w : World) (e : Thrown) :
  fst (createOrShowPreview doc column w) = Throw e →
  createWebviewPanelThrows (window (client w)) = Some e
  ∧ previews (snd (createOrShowPreview doc column w))
    = delete (uriString (uri doc)) (previews w)
  ∧ notifications (window (client (snd (createOrShowPreview doc column w))))
    = (notifications (window (client w))
       ++ [ErrorNotification ("Failed to create preview: " ++ describe e)])%list.
Proof.
  set (r := createOrShowPreview doc column w). intros Hthrow.
  assert (Hgen : ∀ col w0,
             window (client w0) = window (client w) →
             r = createPreview doc col w0 →
             createWebviewPanelThrows (window (client w)) = Some e
             ∧ previews (snd r) = delete (uriString (uri doc)) (previews w0)
             ∧ notifications (window (client (snd r)))
               = (notifications (window (client w))
                  ++ [ErrorNotification
                        ("Failed to create preview: " ++ describe e)])%list).
  { intros col w0 Hwin Hr.
    destruct (createWebviewPanelThrows (window (client w0))) as [e'|] eqn:Hc.
    - destruct (createPreview_throws doc col w0 e' Hc) as (Hf & Hp & _).
      destruct (createPreview_throws_window doc col w0 e' Hc) as [Hw _].
      rewrite <- Hr in Hf, Hp, Hw. rewrite Hthrow in Hf.
      injection Hf as <-. rewrite <- Hwin, Hc.
      split; [reflexivity|]. split; [exact Hp|].
      rewrite Hw. unfold createWebviewPanel. rewrite Hc. reflexivity.
    - destruct (createPreview_ok doc col w0 Hc) as (Hf & _).
      rewrite <- Hr, Hthrow in Hf. discriminate. }
  pose proof (createOrShowPreview_cases doc column w) as Hcases.
  cbv zeta in Hcases. fold r in Hcases.
  destruct Hcases as [(Hn & _)|[(col & Hr & Hnone)|(col & Hr)]].
  - rewrite Hthrow in Hn. discriminate.
  - apply (Hgen col w eq_refl Hr).
  - destruct (disposePreview_effect (uriString (uri doc)) w) as (Hp & Hwin & _).
    destruct (Hgen col _ Hwin Hr) as (H1 & H2 & H3).
    split; [exact H1|]. split; [|exact H3].
    rewrite H2, Hp. apply delete_delete_eq.
Qed.

End ThrowFacts.

(** X19. [createOrShowPreview] throws only when the host fails to
    create the panel, and then with the error of the host; no session
    is left for the document and exactly one notification, Failed to
    create preview with the message of the error, has been added. *)
Theorem failed_preview_leaves_no_session
        (doc : Detection.TextDocument) (column : option Manager.ViewColumn)
        (w : Manager.World) (e : Js.Thrown) :
  let documentUri := Detection.uriString (Detection.uri doc) in
  let r := Manager.createOrShowPreview doc column w in
  fst r = Js.Throw e →
  Manager.createWebviewPanelThrows (Manager.window (Manager.client w)) = Some e
  ∧ Manager.previews (snd r) = delete documentUri (Manager.previews w)
  ∧ Manager.notifications (Manager.window (Manager.client (snd r)))
    = (Manager.notifications (Manager.window (Manager.client w))
       ++ [Manager.ErrorNotification
             ("Failed to create preview: " ++ Manager.describe e)])%list.
Proof. intros documentUri r. apply createOrShowPreview_throws. Qed.

(** A host that refuses to create the panel. *)
Lemma failed_preview_leaves_no_session_sample :
  let w := Manager.create (Watcher.boot 0 ∅ None) Sample.refusing
                          (Js.Normal 4000%N) in
  let r := Manager.createOrShowPreview Sample.petstore None w in
  fst r = Js.Throw (Js.ThrownError None "panel limit reached")
  ∧ Manager.previews (snd r) !! "file:///t/petstore.yaml" = None
  ∧ Manager.notifications (Manager.window (Manager.client (snd r)))
    = [Manager.ErrorNotification
         "Failed to create preview: panel limit reached"].
Proof.
  intros w r.
  assert (H : fst r = Js.Throw (Js.ThrownError None "panel limit reached")).
  { vm_compute. reflexivity. }
  split; [exact H|].
  destruct (failed_preview_leaves_no_session Sample.petstore None w _ H)
    as (_ & Hp & Hn).
  split; [|exact Hn].
  fold r in Hp. rewrite Hp. apply lookup_delete_eq.
Defined.

(** ** The column memory over time *)

Section MemoryFacts.
Import Js Detection Reader Webview Manager.

(** The documents with a remembered column. *)
Local Abbreviation remembered w documentUri :=
  (is_Some (lastColumnPositions w !! documentUri)).

Lemma remembered_insert (w w' : World) u c :
  lastColumnPositions w' = <[u := c]> (lastColumnPositions w) →
  ∀ d, remembered w d → remembered w' d.
Proof.
  intros -> d H. destruct (decide (u = d)) as [->|Hne].
  - rewrite lookup_insert_eq. eauto.
  - now rewrite lookup_insert_ne.
Qed.

Lemma remembered_same (w w' : World) :
  lastColumnPositions w' = lastColumnPositions w →
  ∀ d, remembered w d → remembered w' d.
Proof. now intros ->. Qed.

Lemma remembered_disposePreview (documentUri : string) (w : World) :
  ∀ d, remembered w d → remembered (disposePreview documentUri w) d.
Proof.
  destruct (disposePreview_effect documentUri w) as (_ & _ & Hl).
  destruct (previews w !! documentUri) as [s|];
    [|now apply remembered_same].
  destruct (panelViewColumn _ _) as [[c|]|?];
    [eapply remembered_insert; exact Hl | now apply remembered_same
     | now apply remembered_same].
Qed.

Lemma remembered_createPreview (doc : TextDocument) (col : ViewColumn) (w : World) :
  ∀ d, remembered w d → remembered (snd (createPreview doc col w)) d.
Proof.
  destruct (createWebviewPanelThrows (window (client w))) as [e|] eqn:Hc.
  - destruct (createPreview_throws_window doc col w e Hc) as [_ [H|[c H]]].
    + now apply remembered_same.
    + eapply remembered_insert; exact H.
  - destruct (createPreview_ok doc col w Hc) as (_ & _ & H & _).
    eapply remembered_insert; exact H.
Qed.

Lemma remembered_createOrShowPreview (doc : TextDocument) column (w : World) :
  ∀ d, remembered w d → remembered (snd (createOrShowPreview doc column w)) d.
Proof.
  intros d Hd.
  destruct (createOrShowPreview_cases doc column w)
    as [(_ & _ & Hl & _)|[(col & -> & _)|(col & ->)]].
  - now rewrite Hl.
  - now apply remembered_createPreview.
  - now apply remembered_createPreview, remembered_disposePreview.
Qed.

Lemma updatePreview_maps (doc : TextDocument) (w : World) :
  lastColumnPositions (updatePreview doc w) = lastColumnPositions w
  ∧ previews (updatePreview doc w) = previews w
  ∧ httpServer (client (updatePreview doc w)) = httpServer (client w)
  ∧ loop (updatePreview doc w) = loop w.
Proof.
  unfold updatePreview. destruct (previews w !! uriString (uri doc)); [|auto].
  destruct (negb _ || negb _); auto.
Qed.

Lemma remembered_onDidChangeViewState (documentUri : string) (p : nat) (w : World) :
  ∀ d, remembered w d → remembered (snd (onDidChangeViewState documentUri p w)) d.
Proof.
  unfold onDidChangeViewState.
  destruct (panelViewColumn p (window (client w))) as [[c|]|e]; cbn [snd]; auto.
  destruct (previews w !! documentUri); cbn [snd]; auto.
  eapply remembered_insert. reflexivity.
Qed.

Lemma remembered_firePanelEvent kind (p : nat) (w : World) :
  ∀ d, remembered w d → remembered (firePanelEvent kind p w) d.
Proof.
  unfold firePanelEvent. generalize (panelListeners w) as l. intros l. revert w.
  induction l as [|e l IH]; intros w d Hd; cbn [foldl]; [exact Hd|].
  apply IH. destruct (Nat.eqb _ _ && kind _); [|exact Hd].
  destruct (snd (snd e)) as [u|u|]; cbn [runPanelListener].
  - now apply remembered_disposePreview.
  - now apply remembered_onDidChangeViewState.
  - exact Hd.
Qed.

Lemma remembered_step (w w' : World) :
  step w w' → ∀ d, remembered w d → remembered w' d.
Proof.
  intros [doc column w0|doc w0|p w0|p w0|u x t w0|t w0|u w0] d Hd.
  - now apply remembered_createOrShowPreview.
  - now rewrite (proj1 (updatePreview_maps doc w0)).
  - now apply remembered_firePanelEvent.
  - now apply remembered_firePanelEvent.
  - exact Hd.
  - exact Hd.
  - exact Hd.
Qed.

End MemoryFacts.

(** X20. Column Memory never forgets: over any sequence of preview
    requests, refreshes, panel events, edits, timer runs and file
    deletions, a document whose column is remembered stays
    remembered. *)
Theorem column_memory_is_kept (w w' : Manager.World) (documentUri : string) :
  rtc Manager.step w w' →
  is_Some (Manager.lastColumnPositions w !! documentUri) →
  is_Some (Manager.lastColumnPositions w' !! documentUri).
Proof.
  induction 1 as [w|w w1 w' Hstep _ IH]; intros Hd; [exact Hd|].
  apply IH. now apply (remembered_step w w1 Hstep).
Qed.

(** The column of the pet store is still known after its panel was
    closed. *)
Lemma column_memory_is_kept_sample :
  let w :=
    snd (Manager.createOrShowPreview Sample.petstore (Some Manager.Two)
           (Sample.world None)) in
  let w' := Manager.panelDisposed 0 w in
  Manager.lastColumnPositions w !! "file:///t/petstore.yaml"
  = Some Manager.Two
  ∧ is_Some (Manager.lastColumnPositions w' !! "file:///t/petstore.yaml").
Proof.
  intros w w'.
  assert (H : Manager.lastColumnPositions w !! "file:///t/petstore.yaml"
              = Some Manager.Two).
  { vm_compute. reflexivity. }
  split; [exact H|].
  exact (column_memory_is_kept w w' "file:///t/petstore.yaml"
           (rtc_once _ _ (Manager.step_disposed 0 w))
           (ex_intro _ Manager.Two H)).
Defined.

(** X21. In every world the coordinator can reach, the column a
    session recorded last is in Column Memory; so closing a preview and
    opening it again without a column asks the host for the column the
    session reported last, also when the panel gives no column at
    disposal or cannot be asked any more. *)
Theorem reopen_after_any_close
        (doc : Detection.TextDocument) (w : Manager.World)
        (session : Manager.PreviewPanel) :
  Manager.reachable w →
  Manager.previews w !! Detection.uriString (Detection.uri doc) = Some session →
  let w1 := Manager.disposePreview (Detection.uriString (Detection.uri doc)) w in
  let r := Manager.createOrShowPreview doc None w1 in
  Manager.lastColumnPositions w !! Detection.uriString (Detection.uri doc)
  = Some (Manager.lastViewColumn session)
  ∧ Manager.lastColumnPositions w1 !! Detection.uriString (Detection.uri doc)
    = Some (Manager.lastReported session w)
  ∧ Manager.panelRequests (Manager.window (Manager.client (snd r)))
    = (Manager.panelRequests (Manager.window (Manager.client w))
       ++ [(Manager.panelTitle doc, Manager.lastReported session w)])%list.
Proof.
  intros Hr Hs w1 r. split.
  - exact (reachable_tracked w Hr _ _ Hs).
  - exact (reopen_restores_last_reported doc w session Hr Hs).
Qed.

(** The pet store previewed in column two by a host whose panels report
    no column, closed and opened again. *)
Lemma reopen_after_any_close_sample :
  let w :=
    snd (Manager.createOrShowPreview Sample.petstore (Some Manager.Two)
           (Sample.world None)) in
  let documentUri := "file:///t/petstore.yaml" in
  let session :=
    {| Manager.panel := 0; Manager.document := Sample.petstore;
       Manager.disposables := 0; Manager.fileWatcher := 0;
       Manager.lastViewColumn := Manager.Two |} in
  let w1 := Manager.disposePreview documentUri w in
  let r := Manager.createOrShowPreview Sample.petstore None w1 in
  (Manager.previews w !! documentUri = Some session
   ∧ Manager.panelViewColumn 0 (Manager.window (Manager.client w))
     = Js.Normal None)
  ∧ Manager.lastColumnPositions w1 !! documentUri = Some Manager.Two
  ∧ Manager.panelRequests (Manager.window (Manager.client (snd r)))
    = [("Preview: petstore.yaml", Manager.Two);
       ("Preview: petstore.yaml", Manager.Two)].
Proof.
  intros w documentUri session w1 r.
  assert (H : Manager.previews w !! documentUri = Some session
              ∧ Manager.panelViewColumn 0 (Manager.window (Manager.client w))
                = Js.Normal None).
  { vm_compute. split; reflexivity. }
  split; [exact H|]. destruct H as (H0 & H1).
  destruct (reopen_after_any_close Sample.petstore w session
              (Manager.reach_show _ _ _ (Manager.reach_create _ _ _)) H0)
    as (_ & Hmem & Hreq).
  split; [exact Hmem | exact Hreq].
Defined.

(** ** What closing a preview releases *)

Section ReleaseFacts.
Import Js Detection Watcher.
Context {Client : Type}.

Lemma active_setTimers (s : Subscription) l (h : Host Client) :
  active s (setTimers l h) = active s h.
Proof. destruct s; reflexivity. Qed.

Lemma active_setDebounceTimer (s : Subscription) this t (h : Host Client) :
  active s (setDebounceTimer this t h) = active s h.
Proof.
  unfold setDebounceTimer. destruct (watchers h !! this); [|reflexivity].
  apply active_setWatchers.
Qed.

Lemma pending_setWatchers id m (h : Host Client) :
  pending id (setWatchers m h) = pending id h.
Proof. reflexivity. Qed.

Lemma pending_setDebounceTimer id this t (h : Host Client) :
  pending id (setDebounceTimer this t h) = pending id h.
Proof.
  unfold setDebounceTimer. destruct (watchers h !! this); reflexivity.
Qed.

(** What [dispose] releases, and that it brings nothing back. *)
Lemma dispose_releases (this : nat) (h : Host Client) (fw : FileWatcher) :
  watchers h !! this = Some fw →
  (∀ s, s ∈ disposables fw → active s (dispose this h) = false)
  ∧ (∀ id, debounceTimer fw = Some id → pending id (dispose this h) = false).
Proof.
  intros Hw. unfold dispose. rewrite Hw.
  set (h1 := match debounceTimer fw with
             | Some id => setDebounceTimer this None (clearTimeout id h)
             | None => h
             end).
  destruct (release_all_frame (disposables fw) h1) as [Ht Hws].
  set (h2 := foldl (fun h d => release d h) h1 (disposables fw)) in *.
  assert (Ha : ∀ s, s ∈ disposables fw → active s h2 = false).
  { intros s Hs. apply active_release_all. now left. }
  assert (Hp : ∀ id, debounceTimer fw = Some id → pending id h2 = false).
  { intros id Hid. unfold pending. rewrite Ht. subst h1. rewrite Hid.
    fold (pending id (setDebounceTimer this None (clearTimeout id h))).
    rewrite pending_setDebounceTimer. apply existsb_withoutId_same. }
  destruct (watchers h2 !! this); split; intros;
    rewrite ?active_setWatchers, ?pending_setWatchers; auto.
Qed.

Lemma dispose_keeps_released (this : nat) (h : Host Client) :
  (∀ s, active s h = false → active s (dispose this h) = false)
  ∧ (∀ id, pending id h = false → pending id (dispose this h) = false).
Proof.
  unfold dispose. destruct (watchers h !! this) as [fw|]; [|auto].
  set (h1 := match debounceTimer fw with
             | Some id => setDebounceTimer this None (clearTimeout id h)
             | None => h
             end).
  assert (Ha1 : ∀ s, active s h = false → active s h1 = false).
  { intros s Hs. subst h1. destruct (debounceTimer fw); [|exact Hs].
    rewrite active_setDebounceTimer. unfold clearTimeout.
    now rewrite active_setTimers. }
  assert (Hp1 : ∀ id, pending id h = false → pending id h1 = false).
  { intros id Hid. subst h1. destruct (debounceTimer fw); [|exact Hid].
    rewrite pending_setDebounceTimer. now apply existsb_withoutId. }
  destruct (release_all_frame (disposables fw) h1) as [Ht Hws].
  set (h2 := foldl (fun h d => release d h) h1 (disposables fw)) in *.
  assert (Ha : ∀ s, active s h = false → active s h2 = false).
  { intros s Hs. apply active_release_all. right. now apply Ha1. }
  assert (Hp : ∀ id, pending id h = false → pending id h2 = false).
  { intros id Hid. unfold pending. rewrite Ht. now apply Hp1. }
  destruct (watchers h2 !! this); split; intros;
    rewrite ?active_setWatchers, ?pending_setWatchers; auto.
Qed.

End ReleaseFacts.

Section DisposePreviewFacts.
Import Js Detection Reader Webview Manager.

Lemma disposeAll_released (l : list Disposable) :
  ∀ w : World,
    let w' := foldl (fun w d => disposeOne d w) w l in
    (∀ s, Watcher.active s (loop w) = false → Watcher.active s (loop w') = false)
    ∧ (∀ id, Watcher.pending id (loop w) = false →
             Watcher.pending id (loop w') = false).
Proof.
  induction l as [|d l IH]; intros w; cbn [foldl]; [auto|].
  destruct (IH (disposeOne d w)) as [Ha Hp].
  destruct d as [id|[this]]; cbn [disposeOne] in *.
  - auto.
  - destruct (dispose_keeps_released this (loop w)) as [Ha' Hp'].
    split; intros; [apply Ha | apply Hp]; cbn; auto.
Qed.

Lemma disposeAll_unsubscribed (l : list Disposable) :
  ∀ (w : World) (id : nat),
    PanelSubscription id ∈ l
    ∨ existsb (fun e => Nat.eqb (fst e) id) (panelListeners w) = false →
    existsb (fun e => Nat.eqb (fst e) id)
            (panelListeners (foldl (fun w d => disposeOne d w) w l)) = false.
Proof.
  induction l as [|d l IH]; intros w id H; cbn [foldl].
  - destruct H as [H|H]; [inversion H | exact H].
  - apply IH. destruct H as [H|H].
    + apply elem_of_cons in H as [<-|H]; [|now left].
      right. cbn. apply existsb_withoutId_same.
    + right. destruct d as [id'|h]; cbn; [|exact H].
      now apply existsb_withoutId.
Qed.

End DisposePreviewFacts.

(** X22. [disposePreview] of an open preview, when the panel can
    still be asked for its column, removes the session and the entry of
    the document in the content server, releases every subscription of
    the watcher of the session and its pending timer, and removes the
    panel listeners of the session.  When asking the panel throws,
    only the session is removed. *)
Theorem disposePreview_releases
        (documentUri : string) (w : Manager.World)
        (session : Manager.PreviewPanel) :
  Manager.previews w !! documentUri = Some session →
  let w' := Manager.disposePreview documentUri w in
  match Manager.panelViewColumn (Manager.panel session)
                                (Manager.window (Manager.client w)) with
  | Js.Normal column =>
      Manager.previews w' !! documentUri = None
      ∧ Server.contentMap (Manager.httpServer (Manager.client w'))
          !! Server.docId documentUri = None
      ∧ (∀ fw s,
           Watcher.watchers (Manager.loop w) !! Manager.fileWatcher session
           = Some fw →
           s ∈ Watcher.disposables fw →
           Watcher.active s (Manager.loop w') = false)
      ∧ (∀ fw id,
           Watcher.watchers (Manager.loop w) !! Manager.fileWatcher session
           = Some fw →
           Watcher.debounceTimer fw = Some id →
           Watcher.pending id (Manager.loop w') = false)
      ∧ (∀ id,
           Manager.PanelSubscription id
           ∈ default [] (Manager.arrays w !! Manager.disposables session) →
           ∀ e, e ∈ Manager.panelListeners w' → fst e ≠ id)
  | Js.Throw _ =>
      w' = Manager.setPreviews (delete documentUri (Manager.previews w)) w
  end.
Proof.
  intros Hs w'. subst w'. unfold Manager.disposePreview. rewrite Hs.
  destruct (Manager.panelViewColumn _ _) as [column|e]; [|reflexivity].
  set (w1 := match column with
             | Some c => Manager.setLastColumnPositions _ w
             | None => w
             end).
  assert (H1 : Manager.loop w1 = Manager.loop w
               ∧ Manager.arrays w1 = Manager.arrays w).
  { subst w1. destruct column; auto. }
  destruct H1 as [Hloop Harr].
  cbv zeta.
  set (w2 := Manager.setClient _ w1).
  set (w3 := Manager.setLoop _ w2).
  assert (Harr3 : Manager.arrays w3 = Manager.arrays w) by exact Harr.
  rewrite Harr3.
  set (arr := default [] (Manager.arrays w !! Manager.disposables session)).
  destruct (disposeAll_frame arr w3) as (Hc & _ & _).
  destruct (disposeAll_released arr w3) as [Ha Hp].
  pose proof (disposeAll_unsubscribed arr w3) as Hu.
  set (w4 := foldl _ w3 arr) in *.
  cbn [Manager.previews Manager.setPreviews Manager.client Manager.loop
       Manager.panelListeners].
  split; [apply lookup_delete_eq|]. split.
  { rewrite Hc. subst w3 w2. cbn. apply lookup_delete_eq. }
  split.
  { intros fw s Hw Hin. apply Ha. subst w3 w2. cbn. rewrite Hloop.
    now apply (dispose_releases _ _ fw). }
  split.
  { intros fw id Hw Hid. apply Hp. subst w3 w2. cbn. rewrite Hloop.
    now apply (dispose_releases _ _ fw). }
  intros id Hin e He Heq. specialize (Hu id (or_introl Hin)).
  apply (f_equal negb) in Hu. cbn in Hu.
  assert (Hex : existsb (fun e => Nat.eqb (fst e) id) (Manager.panelListeners w4)
                = true).
  { apply existsb_exists. exists e. split; [now apply list_elem_of_In|].
    now apply Nat.eqb_eq. }
  rewrite Hex in Hu. discriminate.
Qed.

(** Closing the preview of the pet store. *)
Lemma disposePreview_releases_sample :
  let w :=
    snd (Manager.createOrShowPreview Sample.petstore (Some Manager.Two)
           (Sample.world (Some Manager.Three))) in
  let documentUri := "file:///t/petstore.yaml" in
  let session :=
    {| Manager.panel := 0; Manager.document := Sample.petstore;
       Manager.disposables := 0; Manager.fileWatcher := 0;
       Manager.lastViewColumn := Manager.Two |} in
  let w' := Manager.disposePreview documentUri w in
  (Manager.previews w !! documentUri = Some session
   ∧ Manager.panelViewColumn 0 (Manager.window (Manager.client w))
     = Js.Normal (Some Manager.Three))
  ∧ Manager.previews w' !! documentUri = None
  ∧ Server.contentMap (Manager.httpServer (Manager.client w'))
      !! Server.docId documentUri = None.
Proof.
  intros w documentUri session w'.
  assert (H : Manager.previews w !! documentUri = Some session
              ∧ Manager.panelViewColumn 0 (Manager.window (Manager.client w))
                = Js.Normal (Some Manager.Three)).
  { vm_compute. split; reflexivity. }
  split; [exact H|]. destruct H as (H0 & H1).
  pose proof (disposePreview_releases documentUri w session H0) as H.
  cbv zeta in H. change (Manager.panel session) with 0 in H.
  rewrite H1 in H. destruct H as (Hp & Hs & _).
  split; [exact Hp | exact Hs].
Defined.

(** ** From an edit to the view *)

Section LiveFacts.
Import Js Detection Reader Webview Manager.

Lemma onWatchError_normal (p : nat) e c : fst (onWatchError p e c) = Normal tt.
Proof. reflexivity. Qed.

(** The watcher of a preview created on a loop that has just started:
    it is quiet, and nothing was delivered. *)
Lemma createPreview_watching (doc : TextDocument) (col : ViewColumn) (w : World)
      clock docs fsThrows :
  createWebviewPanelThrows (window (client w)) = None →
  loop w = Watcher.boot clock docs fsThrows →
  let p := nextPanel (window (client w)) in
  let r := createPreview doc col w in
  let documentUri := uriString (uri doc) in
  Watcher.quiet 0 documentUri 500 (onFileChanged documentUri p)
                (Some (onWatchError p))
                (Watcher.calls (loop (snd r))) (loop (snd r))
  ∧ Watcher.now (loop (snd r)) = clock
  ∧ Server.server (httpServer (client (snd r)))
    = Server.server (httpServer (client w))
  ∧ Server.port (httpServer (client (snd r)))
    = Server.port (httpServer (client w)).
Proof.
  intros Hc Hloop p r documentUri. subst r p documentUri.
  destruct w as [h [win srv] arrs nref pls prevs lcp].
  cbn [client window loop] in *. subst h.
  pose proof (watchOne_quiet {| Watcher.optDebounceDelay := Some 500%Z |}
                (uri doc)
                (onFileChanged (uriString (uri doc)) (nextPanel win))
                (Some (onFileDeleted doc (nextPanel win)))
                (Some (onWatchError (nextPanel win)))
                clock docs fsThrows
                {| window := snd (createWebviewPanel (panelTitle doc) col win);
                   httpServer := srv |}) as Hq.
  unfold Watcher.watchOne, Watcher.newFileWatcher in Hq.
  cbn -[Watcher.watch createWebviewPanel] in Hq.
  unfold createWebviewPanel in Hq. rewrite Hc in Hq.
  cbn -[Watcher.watch getDocumentTitle panelTitle] in Hq.
  unfold createPreview; cbn [client window].
  unfold createWebviewPanel; rewrite Hc.
  cbn -[Watcher.watch getDocumentTitle panelTitle
        readFromDocument Server.registerContent setHtml notify].
  match goal with
  | |- context [Watcher.watch ?t ?u ?a ?b ?c (?h, ?cl)] =>
      pose proof (watch_outcome t u a b c h cl) as Hw;
      set (W := Watcher.watch t u a b c (h, cl)) in *;
      change (Watcher.watch _ _ _ _ _ _) with W in Hq
  end.
  clearbody W. cbn in Hw. destruct W as [res [h' c']].
  cbn [fst snd] in Hq, Hw. destruct Hq as (Hq & Hn & _).
  assert (Hres : res = Normal {| Watcher.handleThis := 0 |}
                 ∧ httpServer c' = srv).
  { destruct fsThrows; destruct Hw as [-> ->]; split; reflexivity. }
  destruct Hres as [-> Hsrv].
  destruct (readFromDocument doc) as [ok [[|ch text]|] err];
    cbn -[setHtml notify Server.registerContent];
    destruct ok; cbn -[setHtml notify Server.registerContent];
    rewrite ?Hsrv;
    (split; [exact Hq | split; [exact Hn | split; reflexivity]]).
Qed.

End LiveFacts.

(** X23. From an edit to the view: after a preview was created, an
    edit of the document to a non-empty text reaches, once 500 ms have
    passed, the content server, which then answers the URL of the
    document with the new text, and the panel still holds the page of
    that URL. *)
Theorem edit_reaches_the_view
        (doc : Detection.TextDocument) (column : option Manager.ViewColumn)
        (clock : Z) (docs : gmap string string) (fsThrows : option Js.Thrown)
        (win : Manager.Window) (port : N) (t T : Z) (x : string) :
  let documentUri := Detection.uriString (Detection.uri doc) in
  let w0 := Manager.create (Watcher.boot clock docs fsThrows) win
                           (Js.Normal port) in
  let w1 := snd (Manager.createOrShowPreview doc column w0) in
  let w2 := Manager.timePasses T (Manager.documentEdited documentUri x t w1) in
  let url := "http://localhost:" ++ Js.showN port ++ "/doc/"
             ++ Server.docId documentUri in
  Manager.createWebviewPanelThrows win = None →
  documentUri ≠ "" → x ≠ "" →
  (clock <= t)%Z → (t + 500 <= T)%Z →
  Manager.html
    <$> (Manager.panels (Manager.window (Manager.client w2))
           !! Manager.nextPanel win)
  = Some (Some (Webview.getHtmlContent url None))
  ∧ Server.contentMap (Manager.httpServer (Manager.client w2))
      !! Server.docId documentUri = Some x
  ∧ ∃ r, Server.fetch (Manager.httpServer (Manager.client w2)) url = Some r
         ∧ Server.status r = 200%N ∧ Server.body r = x.
Proof.
  intros documentUri w0 w1 w2 url Hc Hu Hx Ht HT.
  assert (Hw0 : Manager.window (Manager.client w0) = win
                ∧ Manager.loop w0 = Watcher.boot clock docs fsThrows
                ∧ Manager.previews w0 = ∅
                ∧ Server.server (Manager.httpServer (Manager.client w0)) = true
                ∧ Server.port (Manager.httpServer (Manager.client w0)) = port).
  { subst w0. cbn. repeat split. }
  destruct Hw0 as (Hwin & Hloop & Hprev & Hsrv & Hport).
  assert (Hnew : Manager.previews w0 !! documentUri = None)
    by (rewrite Hprev; apply lookup_empty).
  subst w2 w1. rewrite (createOrShowPreview_new doc column w0 Hnew).
  set (col := Manager.orColumn _ _).
  rewrite <- Hwin in Hc.
  destruct (createPreview_watching doc col w0 clock docs fsThrows Hc Hloop)
    as (Hq & Hn & Hs1 & Hp1).
  destruct (createPreview_ok doc col w0 Hc) as (_ & _ & _ & Hst).
  destruct (steady_created (Manager.panelTitle doc) col _ Hc)
    as (_ & _ & Hcore & _).
  destruct Hst as (_ & _ & _ & _ & _ & _ & _ & Hpanels).
  rewrite <- Hpanels in Hcore.
  rewrite Hwin in Hq, Hcore.
  set (w1 := snd (Manager.createPreview doc col w0)) in *. clearbody w1.
  fold documentUri in Hq.
  unfold Manager.timePasses, Manager.documentEdited.
  cbn [Manager.loop Manager.client Manager.setLoopClient].
  destruct (edit_quiet _ _ _ _ _ (Manager.loop w1) (Manager.client w1) t x _ Hq
                       ltac:(lia)) as (Hw & Hn1 & Hc1).
  destruct (Watcher.editDocument documentUri x t
              (Manager.loop w1, Manager.client w1)) as [h2 c2].
  cbn [fst snd] in *. subst c2.
  assert (HT' : (t + Js.setTimeoutDelay 500 <= T)%Z) by exact HT.
  destruct (advanceTo_due _ _ _ _ _ h2 (Manager.client w1) T _ _ _ Hw HT')
    as (_ & Hcl & _).
  rewrite Hcl. unfold Watcher.afterChange, Manager.onFileChanged.
  cbn -[Manager.setHtml Server.docId Webview.getHtmlContent].
  set (s2 := Server.setContentMap _ _).
  assert (Hs2 : Server.server s2 = true ∧ Server.port s2 = port
                ∧ Server.contentMap s2 !! Server.docId documentUri = Some x).
  { subst s2. cbn. rewrite Hs1, Hsrv, Hp1, Hport.
    repeat split. apply lookup_insert_eq. }
  destruct Hs2 as (Hsv & Hpt & Hcm).
  assert (Hurl : Server.getServerUrl s2 ++ "/doc/" ++ Server.docId documentUri
                 = url).
  { subst url. unfold Server.getServerUrl. rewrite Hpt.
    now rewrite string_app_assoc. }
  rewrite Hurl. split.
  { apply setHtml_html.
    destruct (Manager.panels (Manager.window (Manager.client w1))
                !! Manager.nextPanel win); [eauto | discriminate]. }
  split; [apply lookup_insert_eq|].
  rewrite <- Hurl. apply fetch_document.
  - exact Hsv.
  - now apply docId_nonempty.
  - exact Hcm.
  - exact Hx.
Qed.

(** The pet store previewed, edited at 10 ms and looked at after 510 ms. *)
Lemma edit_reaches_the_view_sample :
  let documentUri := "file:///t/petstore.yaml" in
  let w1 :=
    snd (Manager.createOrShowPreview Sample.petstore None (Sample.world None)) in
  let w2 :=
    Manager.timePasses 510
      (Manager.documentEdited documentUri "openapi: 3.1.0" 10 w1) in
  Manager.createWebviewPanelThrows (Sample.window None) = None
  ∧ Server.contentMap (Manager.httpServer (Manager.client w2))
      !! Server.docId documentUri = Some "openapi: 3.1.0".
Proof.
  intros documentUri w1 w2. split; [reflexivity|].
  exact (proj1 (proj2
           (edit_reaches_the_view Sample.petstore None 0%Z ∅ None
              (Sample.window None) 4000%N 10%Z 510%Z "openapi: 3.1.0"
              eq_refl ltac:(vm_compute; discriminate) ltac:(discriminate)
              ltac:(lia) ltac:(lia)))).
Defined.

(** ** Titles and the page in the view *)

Section TitleFacts.
Import Js Detection Manager.

Lemma lastSegmentFrom_clean (sep : ascii) (s : string) : ∀ acc,
  allChars (fun c => negb (Ascii.eqb c sep)) (lastSegmentFrom acc sep s) = true
  ∨ (lastSegmentFrom acc sep s = acc
     ∧ allChars (fun c => negb (Ascii.eqb c sep)) s = true).
Proof.
  induction s as [|c s IH]; intros acc; cbn [lastSegmentFrom].
  - right. now split.
  - destruct (Ascii.eqb c sep) eqn:E.
    + left. destruct (IH s) as [H|[-> H]]; exact H.
    + destruct (IH acc) as [H|[H1 H2]]; [now left|right].
      split; [exact H1|]. cbn. now rewrite E, H2.
Qed.

Lemma lastSegment_clean (sep : ascii) (s : string) :
  allChars (fun c => negb (Ascii.eqb c sep)) (lastSegment sep s) = true.
Proof.
  unfold lastSegment. destruct (lastSegmentFrom_clean sep s s) as [H|[-> H]]; exact H.
Qed.

Lemma lastSegmentFrom_none (sep : ascii) (s : string) :
  allChars (fun c => negb (Ascii.eqb c sep)) s = true →
  ∀ acc, lastSegmentFrom acc sep s = acc.
Proof.
  induction s as [|x s IH]; intros Hs acc; [reflexivity|].
  cbn in Hs. apply andb_true_iff in Hs as [Hx Hs].
  cbn [lastSegmentFrom]. apply negb_true_iff in Hx. rewrite Hx. now apply IH.
Qed.

Lemma lastSegmentFrom_app (sep : ascii) (name : string) :
  allChars (fun c => negb (Ascii.eqb c sep)) name = true →
  ∀ dir acc, lastSegmentFrom acc sep (dir ++ String sep name) = name.
Proof.
  intros Hn. induction dir as [|c dir IH]; intros acc.
  - rewrite app_nil_l. cbn [lastSegmentFrom]. rewrite Ascii.eqb_refl.
    now apply lastSegmentFrom_none.
  - rewrite app_cons. cbn [lastSegmentFrom]. destruct (Ascii.eqb c sep); apply IH.
Qed.

End TitleFacts.

(** X24. The title of a document is never empty and contains no
    slash; it is the part of the path after the last slash, and OpenAPI
    when the path ends in a slash. *)
Theorem document_title (doc : Detection.TextDocument) :
  let title := Manager.getDocumentTitle doc in
  title ≠ ""
  ∧ Js.allChars (fun c => negb (Ascii.eqb c "/")) title = true
  ∧ (∀ dir name,
       Detection.path (Detection.uri doc) = dir ++ String "/" name →
       Js.allChars (fun c => negb (Ascii.eqb c "/")) name = true →
       title = if decide (name = "") then "OpenAPI" else name).
Proof.
  intros title. subst title. unfold Manager.getDocumentTitle.
  pose proof (lastSegment_clean "/" (Detection.path (Detection.uri doc))) as Hc.
  split; [|split].
  - destruct (Js.lastSegment _ _); cbn; discriminate.
  - destruct (Js.lastSegment _ _); [reflexivity | exact Hc].
  - intros dir name Hp Hn. unfold Js.lastSegment. rewrite Hp.
    rewrite (lastSegmentFrom_app "/" name Hn).
    destruct (decide (name = "")) as [->|Hne]; [reflexivity|].
    destruct name; [congruence | reflexivity].
Qed.

Section PageFacts.
Import Js Webview Manager Page.

Lemma withoutQuery_clean (u : string) :
  allChars (fun c => negb (Ascii.eqb c "?")) (withoutQuery u) = true.
Proof.
  unfold withoutQuery. induction u as [|c u IH]; [reflexivity|].
  cbn. destruct (negb (Ascii.eqb c "?")) eqn:E; [|reflexivity].
  cbn. now rewrite E.
Qed.

Lemma withoutQuery_query (base q : string) :
  allChars (fun c => negb (Ascii.eqb c "?")) base = true →
  withoutQuery (base ++ String "?" q) = base.
Proof.
  intros H. unfold withoutQuery. rewrite takeWhile_app by exact H.
  cbn. apply string_app_nil.
Qed.

Lemma withoutQuery_onMessage (m : Message) (now : Z) (v : View) :
  withoutQuery (elementUrl (onMessage m now v)) = withoutQuery (elementUrl v).
Proof.
  destruct m; cbn [onMessage elementUrl showError]; [|reflexivity].
  change ("?t=" ++ showZ now) with (String "?" ("t=" ++ showZ now)).
  apply withoutQuery_query, withoutQuery_clean.
Qed.

Lemma receive_snoc (ms : list (Message * Z)) m (v : View) :
  receive (ms ++ [m]) v = onMessage (fst m) (snd m) (receive ms v).
Proof. unfold receive. now rewrite foldl_app. Qed.

End PageFacts.

(** X25. After any sequence of messages the page shows what the last
    message asks for: the error text and no element after an error
    message; the element and no error after an update message, its URL
    being the URL of the page without query followed by ?t= and the
    time of that message.  Time stamps do not pile up. *)
Theorem view_after_messages (ms : list (Manager.Message * Z)) (v : Page.View) :
  let v' := Page.receive ms v in
  Page.withoutQuery (Page.elementUrl v') = Page.withoutQuery (Page.elementUrl v)
  ∧ match last ms with
    | None => v' = v
    | Some (Manager.ErrorMessage text, _) =>
        Page.errorDisplayed v' = true ∧ Page.elementDisplayed v' = false
        ∧ Page.shownError v' = text
    | Some (Manager.UpdateMessage _ _, now) =>
        Page.errorDisplayed v' = false ∧ Page.elementDisplayed v' = true
        ∧ Page.elementUrl v'
          = Page.withoutQuery (Page.elementUrl v) ++ "?t=" ++ Js.showZ now
    end.
Proof.
  induction ms as [|m ms IH] using rev_ind; [now split|].
  cbv zeta in *. rewrite receive_snoc, last_snoc, withoutQuery_onMessage.
  destruct IH as [IH _]. split; [exact IH|].
  destruct m as [[content ts|text] now]; cbn; [|now repeat split].
  rewrite IH. now repeat split.
Qed.

Section DigitFacts.
Import Js.



End DigitFacts.

Section RefreshFacts.
Import Js Webview Manager Page Server.


End RefreshFacts.



(** ** The commands *)

Section CommandFacts.
Import Js Detection Reader Webview Manager Extension.

Lemma notifications_setHtml p x win :
  notifications (setHtml p x win) = notifications win.
Proof. unfold setHtml. now destruct (panels win !! p). Qed.

Lemma notifications_postMessage p m win :
  notifications (postMessage p m win) = notifications win.
Proof. unfold postMessage. now destruct (panels win !! p). Qed.

(** A preview created for text that is not empty shows no message. *)
Lemma createPreview_silent (doc : TextDocument) (col : ViewColumn) (w : World)
      (text : string) :
  getText doc = Normal text → text ≠ "" →
  createWebviewPanelThrows (window (client w)) = None →
  notifications (window (client (snd (createPreview doc col w))))
  = notifications (window (client w)).
Proof.
  intros G Hne Hc.
  destruct w as [h [win srv] arrs nref pls prevs lcp].
  cbn [client window httpServer] in *.
  run_createPreview Hc.
  all: unfold readFromDocument; rewrite G;
    destruct text as [|ch text]; [contradiction|];
    cbn -[setHtml notify postMessage getDocumentTitle panelTitle
          Server.registerContent];
    destruct (Server.registerContent _ _ _) as [contentUrl srv0];
    cbn -[setHtml notify postMessage getDocumentTitle panelTitle];
    rewrite ?notifications_setHtml, ?notifications_postMessage; reflexivity.
Qed.

(** What a positive answer of [isOpenApiDocument] says. *)
Lemma isOpenApiDocument_true (u : Uri) (ws : Workspace) (d : TextDocument) :
  fst (isOpenApiDocument u ws) = true →
  openTextDocument ws u = Normal d →
  isOpenApiDocument u ws = (true, recordOpen u ws)
  ∧ ∃ content, getText d = Normal content ∧ content ≠ "".
Proof.
  unfold isOpenApiDocument. intros H Ho.
  destruct (hasOpenApiExtension u); cbn [negb] in *; [|discriminate].
  rewrite Ho in *. destruct (getText d) as [content|e]; [|discriminate].
  cbn [fst] in H. rewrite H. split; [reflexivity|].
  exists content. split; [reflexivity|]. intros ->. discriminate.
Qed.

(** The command on a file that is detected and has no preview yet. *)
Lemma openCommand_opens (failure : string) (column : option ViewColumn)
      (u : Uri) (st : State) (d : TextDocument) :
  let w := previewManager st in
  let documentUri := uriString (uri d) in
  let col := orColumn (orElse column (lastColumnPositions w !! documentUri))
                      (getPreviewColumn w) in
  fst (isOpenApiDocument u (workspace st)) = true →
  openTextDocument (workspace st) u = Normal d →
  createWebviewPanelThrows (window (client w)) = None →
  previews w !! documentUri = None →
  let st' := openCommand failure column (Some u) st in
  let w' := previewManager st' in
  (∃ session,
      previews w' = <[documentUri := session]> (previews w)
      ∧ lastViewColumn session = col ∧ document session = d)
  ∧ panelRequests (window (client w'))
    = (panelRequests (window (client w)) ++ [(panelTitle d, col)])%list
  ∧ notifications (window (client w')) = notifications (window (client w))
  ∧ Some <$> (Server.contentMap (httpServer (client w'))
                !! Server.docId documentUri)
    = Some (match getText d with Normal content => Some content | Throw _ => None end)
  ∧ opened (workspace st') = (opened (workspace st) ++ [u; u])%list.
Proof.
  intros w documentUri col Hd Ho Hc Hnew st' w'.
  subst w' st'. unfold openCommand.
  destruct (isOpenApiDocument_true u (workspace st) d Hd Ho)
    as (-> & content & Hg & Hne).
  cbn [negb workspace setWorkspace previewManager recordOpen openTextDocument].
  rewrite Ho. fold w.
  rewrite (createOrShowPreview_new d column w Hnew). fold documentUri col.
  destruct (createPreview_ok d col w Hc) as (Hn & Hp & _ & _).
  pose proof (createPreview_requests d col w) as Hreq.
  pose proof (createPreview_silent d col w content Hg Hne Hc) as Hsil.
  destruct (createPreview_content d col w content Hg Hne Hc) as (Hsrv & _).
  destruct (createPreview d col w) as [[[]|e] w1]; cbn [fst snd] in *;
    [|discriminate].
  cbn [previewManager setPreviewManager workspace opened].
  split; [eexists; split; [exact Hp | split; reflexivity]|].
  split; [exact Hreq|]. split; [exact Hsil|]. split.
  - rewrite Hsrv, Hg. cbn. now rewrite lookup_insert_eq.
  - cbn. now rewrite <- app_assoc.
Qed.

(** The command when the preview cannot be made. *)
Lemma openCommand_fails (failure : string) (column : option ViewColumn)
      (u : Uri) (st : State) (d : TextDocument) (e : Thrown) :
  let w := previewManager st in
  let documentUri := uriString (uri d) in
  fst (isOpenApiDocument u (workspace st)) = true →
  openTextDocument (workspace st) u = Normal d →
  fst (createOrShowPreview d column w) = Throw e →
  let w' := previewManager (openCommand failure column (Some u) st) in
  previews w' = delete documentUri (previews w)
  ∧ notifications (window (client w'))
    = (notifications (window (client w))
       ++ [ErrorNotification ("Failed to create preview: " ++ describe e);
           ErrorNotification (failure ++ describe e)])%list.
Proof.
  intros w documentUri Hd Ho Hthrow w'.
  subst w'. unfold openCommand.
  destruct (isOpenApiDocument_true u (workspace st) d Hd Ho) as (-> & _).
  cbn [negb workspace setWorkspace previewManager recordOpen openTextDocument].
  rewrite Ho. fold w.
  destruct (createOrShowPreview_throws d column w e Hthrow) as (_ & Hp & Hno).
  destruct (createOrShowPreview d column w) as [[[]|e'] w1]; cbn [fst snd] in *;
    [discriminate|]. injection Hthrow as ->.
  unfold showMessage.
  cbn [previewManager setPreviewManager setClient setLoopClient client window
       setWindow previews notify notifications loop fst snd].
  split; [exact Hp|]. rewrite Hno. now rewrite <- app_assoc.
Qed.

(** The command on a file that is not detected. *)
Lemma openCommand_rejects (failure : string) (column : option ViewColumn)
      (u : Uri) (st : State) :
  let w := previewManager st in
  fst (isOpenApiDocument u (workspace st)) = false →
  let st' := openCommand failure column (Some u) st in
  previewManager st'
  = setClient (setWindow (notify (WarningNotification notOpenApi)
                                 (window (client w))) (client w)) w
  ∧ workspace st' = snd (isOpenApiDocument u (workspace st)).
Proof.
  intros w Hf st'. subst st'. unfold openCommand.
  destruct (isOpenApiDocument u (workspace st)) as [b ws1].
  cbn [fst snd] in *. subst b. cbn [negb]. unfold showMessage. cbn.
  split; reflexivity.
Qed.

End CommandFacts.

(** X27. For a file that is detected as OpenAPI and has no preview
    yet, on a host that creates panels: Open Preview asks for one panel
    in the remembered column of the document, else the default column,
    and Open Preview to Side for one beside the editor; a session is
    recorded, the text is registered with the content server, nothing
    is notified, and the file has been opened twice. *)
Theorem command_opens_preview
        (u : Detection.Uri) (st : Extension.State) (d : Detection.TextDocument) :
  let w := Extension.previewManager st in
  let documentUri := Detection.uriString (Detection.uri d) in
  fst (Detection.isOpenApiDocument u (Extension.workspace st)) = true →
  Detection.openTextDocument (Extension.workspace st) u = Js.Normal d →
  Manager.createWebviewPanelThrows (Manager.window (Manager.client w)) = None →
  Manager.previews w !! documentUri = None →
  let opened := Extension.previewManager (Extension.openPreview (Some u) st) in
  let toSide := Extension.previewManager (Extension.openPreviewToSide (Some u) st) in
  let remembered :=
    Manager.orColumn (Manager.lastColumnPositions w !! documentUri)
                     (Manager.getPreviewColumn w) in
  (∃ session,
      Manager.previews opened = <[documentUri := session]> (Manager.previews w)
      ∧ Manager.lastViewColumn session = remembered)
  ∧ Manager.panelRequests (Manager.window (Manager.client opened))
    = (Manager.panelRequests (Manager.window (Manager.client w))
       ++ [(Manager.panelTitle d, remembered)])%list
  ∧ (∃ session,
        Manager.previews toSide = <[documentUri := session]> (Manager.previews w)
        ∧ Manager.lastViewColumn session = Manager.Beside)
  ∧ Manager.panelRequests (Manager.window (Manager.client toSide))
    = (Manager.panelRequests (Manager.window (Manager.client w))
       ++ [(Manager.panelTitle d, Manager.Beside)])%list
  ∧ Manager.notifications (Manager.window (Manager.client opened))
    = Manager.notifications (Manager.window (Manager.client w))
  ∧ (∃ content,
        Detection.getText d = Js.Normal content ∧ content ≠ ""
        ∧ Server.contentMap (Manager.httpServer (Manager.client opened))
            !! Server.docId documentUri = Some content)
  ∧ Detection.opened (Extension.workspace (Extension.openPreview (Some u) st))
    = (Detection.opened (Extension.workspace st) ++ [u; u])%list.
Proof.
  intros w documentUri Hd Ho Hc Hnew opened toSide remembered.
  destruct (openCommand_opens "Failed to open OpenAPI preview: " None u st d
              Hd Ho Hc Hnew) as ((s1 & Hp1 & Hl1 & _) & Hr1 & Hn1 & Hs1 & Ho1).
  destruct (openCommand_opens "Failed to open OpenAPI preview to side: "
              (Some Manager.Beside) u st d Hd Ho Hc Hnew)
    as ((s2 & Hp2 & Hl2 & _) & Hr2 & _).
  destruct (isOpenApiDocument_true u (Extension.workspace st) d Hd Ho)
    as (_ & content & Hg & Hne).
  split; [exists s1; split; [exact Hp1 | exact Hl1]|].
  split; [exact Hr1|].
  split; [exists s2; split; [exact Hp2 | exact Hl2]|].
  split; [exact Hr2|]. split; [exact Hn1|]. split; [|exact Ho1].
  exists content. split; [exact Hg|]. split; [exact Hne|].
  rewrite Hg in Hs1. fold w documentUri in Hs1.
  subst opened. unfold Extension.openPreview.
  destruct (Server.contentMap _ !! _); cbn in Hs1; congruence.
Qed.

(** The two commands on the pet store, right after activation. *)
Lemma command_opens_preview_sample :
  let u := Sample.file "/t/petstore.yaml" in
  let opened :=
    Extension.previewManager (Extension.openPreview (Some u) Sample.state) in
  let toSide :=
    Extension.previewManager (Extension.openPreviewToSide (Some u) Sample.state) in
  fst (Detection.isOpenApiDocument u (Extension.workspace Sample.state)) = true
  ∧ Manager.panelRequests (Manager.window (Manager.client opened))
    = [("Preview: petstore.yaml", Manager.Beside)]
  ∧ Manager.panelRequests (Manager.window (Manager.client toSide))
    = [("Preview: petstore.yaml", Manager.Beside)]
  ∧ Manager.notifications (Manager.window (Manager.client opened)) = [].
Proof.
  intros u opened toSide.
  assert (H : fst (Detection.isOpenApiDocument u
                     (Extension.workspace Sample.state)) = true).
  { vm_compute. reflexivity. }
  split; [exact H|].
  destruct (command_opens_preview u Sample.state Sample.petstore H
              eq_refl eq_refl ltac:(vm_compute; reflexivity))
    as (_ & H1 & _ & H2 & H3 & _).
  split; [exact H1|]. split; [exact H2 | exact H3].
Defined.

(** X28. Both commands: a file that is not detected as OpenAPI gives
    one warning and no other change of the coordinator; a failure to
    create the preview leaves no session and two error notifications,
    the second with the words of the command; without a target and
    without active editor there is one error notification. *)
Theorem command_failures
        (toSide : bool) (u : Detection.Uri) (st : Extension.State) :
  let w := Extension.previewManager st in
  let command :=
    if toSide then Extension.openPreviewToSide else Extension.openPreview in
  let failure :=
    if toSide then "Failed to open OpenAPI preview to side: "
    else "Failed to open OpenAPI preview: " in
  let column := if toSide then Some Manager.Beside else None in
  let w' := Extension.previewManager (command (Some u) st) in
  (fst (Detection.isOpenApiDocument u (Extension.workspace st)) = false →
   w' = Manager.setClient
          (Manager.setWindow
             (Manager.notify (Manager.WarningNotification Extension.notOpenApi)
                             (Manager.window (Manager.client w)))
             (Manager.client w)) w)
  ∧ (∀ d e,
       fst (Detection.isOpenApiDocument u (Extension.workspace st)) = true →
       Detection.openTextDocument (Extension.workspace st) u = Js.Normal d →
       fst (Manager.createOrShowPreview d column w) = Js.Throw e →
       Manager.previews w'
       = delete (Detection.uriString (Detection.uri d)) (Manager.previews w)
       ∧ Manager.notifications (Manager.window (Manager.client w'))
         = (Manager.notifications (Manager.window (Manager.client w))
            ++ [Manager.ErrorNotification
                  ("Failed to create preview: " ++ Manager.describe e);
                Manager.ErrorNotification (failure ++ Manager.describe e)])%list)
  ∧ (Extension.activeDocument st = None →
     Extension.previewManager (command None st)
     = Manager.setClient
         (Manager.setWindow
            (Manager.notify
               (Manager.ErrorNotification "No OpenAPI file is currently active")
               (Manager.window (Manager.client w)))
            (Manager.client w)) w).
Proof.
  intros w command failure column w'.
  split; [|split].
  - intros Hf. subst w' command. destruct toSide.
    + exact (proj1 (openCommand_rejects
                      "Failed to open OpenAPI preview to side: "
                      (Some Manager.Beside) u st Hf)).
    + exact (proj1 (openCommand_rejects "Failed to open OpenAPI preview: "
                      None u st Hf)).
  - intros d e Hd Ho Ht. subst w' command failure column. destruct toSide.
    + exact (openCommand_fails _ _ u st d e Hd Ho Ht).
    + exact (openCommand_fails _ _ u st d e Hd Ho Ht).
  - intros Ha. subst command.
    destruct toSide; unfold Extension.openPreviewToSide, Extension.openPreview,
      Extension.openCommand; rewrite Ha; reflexivity.
Qed.

(** X29. [updateOpenApiContext] sets the key to false without an
    active editor; it sets it to true exactly when the active document
    has a recognised extension and a text with a version marker, which
    is the answer [isOpenApiDocument] gives for the same file; when the
    text of the document cannot be read it throws and leaves the key
    as it was. *)
Theorem context_key_follows_detection (st : Extension.State) :
  let r := Extension.updateOpenApiContext st in
  (Extension.activeDocument st = None →
   r = (Js.Normal tt, Extension.setContext false st))
  ∧ (∀ d e, Extension.activeDocument st = Some d →
            Detection.endsInRecognizedSuffix
              (Detection.fsPath (Detection.uri d)) →
            Detection.getText d = Js.Throw e →
            r = (Js.Throw e, st))
  ∧ (fst r = Js.Normal tt ∧ Extension.isOpenApiFile (snd r) = Some true
     ↔ ∃ d content,
         Extension.activeDocument st = Some d
         ∧ Detection.endsInRecognizedSuffix (Detection.fsPath (Detection.uri d))
         ∧ Detection.getText d = Js.Normal content
         ∧ Detection.containsVersionMarker content)
  ∧ (∀ d, Extension.activeDocument st = Some d →
          Detection.openTextDocument (Extension.workspace st) (Detection.uri d)
          = Js.Normal d →
          fst r = Js.Normal tt →
          Extension.isOpenApiFile (snd r)
          = Some (fst (Detection.isOpenApiDocument (Detection.uri d)
                         (Extension.workspace st)))).
Proof.
  intros r. subst r. unfold Extension.updateOpenApiContext.
  destruct (Extension.activeDocument st) as [d|].
  2:{ split; [reflexivity|]. split; [discriminate|]. split; [|discriminate].
      cbn. split; [intros [_ [=]] | intros (d & c & [=] & _)]. }
  split; [discriminate|].
  pose proof (hasOpenApiExtension_spec (Detection.uri d)) as Hext.
  assert (Hdoc : ∀ content,
             Detection.openTextDocument (Extension.workspace st) (Detection.uri d)
             = Js.Normal d →
             Detection.getText d = Js.Normal content →
             fst (Detection.isOpenApiDocument (Detection.uri d)
                    (Extension.workspace st))
             = Detection.hasOpenApiExtension (Detection.uri d)
               && Detection.hasOpenApiMarker content).
  { intros content Ho Hg. unfold Detection.isOpenApiDocument.
    destruct (Detection.hasOpenApiExtension (Detection.uri d)); [|reflexivity].
    cbn [negb]. now rewrite Ho, Hg. }
  unfold Detection.isOpenApiTextDocument.
  destruct (Detection.hasOpenApiExtension (Detection.uri d)) eqn:Ex; cbn [negb].
  - assert (Hs : Detection.endsInRecognizedSuffix
                   (Detection.fsPath (Detection.uri d))) by now apply Hext.
    destruct (Detection.getText d) as [content|e] eqn:Hg.
    + split; [intros d' e [= <-] _ Hg'; rewrite Hg in Hg'; discriminate|].
      cbn [fst snd Extension.isOpenApiFile Extension.setContext]. split.
      * split.
        -- intros [_ [= Hm]]. exists d, content. repeat split; auto.
           now apply hasOpenApiMarker_spec.
        -- intros (d' & c' & [= <-] & _ & Hg' & Hm).
           rewrite Hg in Hg'. injection Hg' as <-.
           apply hasOpenApiMarker_spec in Hm. now rewrite Hm.
      * intros d' [= <-] Ho _. now rewrite (Hdoc content Ho eq_refl).
    + split; [intros d' e' [= <-] _ Hg'; rewrite Hg in Hg'; now injection Hg' as ->|].
      cbn [fst snd]. split.
      * split; [intros [[=] _]|].
        intros (d' & c' & [= <-] & _ & Hg' & _). rewrite Hg in Hg'. discriminate.
      * intros d' [= <-] _ [=].
  - assert (Hs : ¬ Detection.endsInRecognizedSuffix
                     (Detection.fsPath (Detection.uri d))).
    { intros H. apply Hext in H. discriminate. }
    split; [intros d' e [= <-] H; contradiction|].
    cbn [fst snd Extension.isOpenApiFile Extension.setContext]. split.
    + split; [intros [_ [=]]|]. intros (d' & c' & [= <-] & H & _). contradiction.
    + intros d' [= <-] _ _. unfold Detection.isOpenApiDocument. now rewrite Ex.
Qed.
